(** * DataStore: an observable state container

    A shallow embedding of [DataStore.ts] and [Broadcaster.ts].  The two
    classes are written over the JavaScript job model: promises with
    reaction lists, a FIFO microtask queue and the list of animation-frame
    callbacks.  The embedding keeps these explicit in one machine record and
    turns every closure of the source into a constructor of [Kont], so that
    each method of the source is a function on machines and the event loop
    is a pair of drivers ([drain], [run_frame]). *)

From stdpp Require Import base decidable option list gmap strings.
From Stdlib Require Import ZArith Lia.

Open Scope string_scope.
Open Scope list_scope.

(** ** Data *)

(** Values held in the fields of a state object. *)
Unset Elimination Schemes.
Inductive Value :=
| VUndefined
| VNull
| VBool (b : bool)
| VNum (n : Z)
| VStr (s : string)
| VArr (items : list Value)
| VObj (fields : list (string * Value)).
Set Elimination Schemes.

(** A state, and a partial update of it, is an object: named fields. *)
Abbreviation State := (gmap string Value).

(** [{...s, ...p}]: every field of [p] wins, the other fields of [s] stay. *)
Definition merge (s p : State) : State := p ∪ s.

(** The optional [props] argument of [observe]. *)
Inductive Props :=
| PropsUndefined
| PropsNull
| PropsValue (v : Value).

(** [new Error(message)] *)
Inductive Exn :=
| Error (message : string).

Inductive Completion (A : Type) :=
| Normal (a : A)
| Throw (e : Exn).
Arguments Normal {A} a.
Arguments Throw {A} e.

(** A subscriber callback.  User code is outside the repository: a callback
    is known by an identity and by whether it throws on a given state. *)
Record Callback := {
  cb_id : nat;
  cb_throws : State -> bool
}.

(** What the [update] method of a class given as [observerClassConstructor]
    does with a state: go through [super.update], or return a promise of
    its own without touching the callback. *)
Inductive UpdateResult :=
| ViaSuper
| ReturnsResolved
| ReturnsRejected (e : Exn).

Record CustomObserverClass := {
  custom_update : State -> UpdateResult
}.

(** [BroadcasterObserver]: [obs_class = None] is the stock class. *)
Record Observer := {
  callback : Callback;
  params : Props;
  obs_class : option CustomObserverClass
}.

Record BroadcasterParams := {
  observerClassConstructor : option CustomObserverClass;
  propsRequired : bool
}.

(** Keys of the observer registry ([Broadcaster.guid()], a random string
    supplied by the environment) and of the ledger ([uuidv4()]). *)
Abbreviation Guid := string.
Abbreviation Token := nat.

(** ** Promises *)

(** The promises the two classes create, named after the expression that
    creates them; [n] is the serial number of the call that made them. *)
Inductive PId :=
| PResolved (n : nat)       (* Promise.resolve(result), in a bound action *)
| PAsync (n : nat)          (* promisified.then(...), the [async] field *)
| PUpdate (n : nat)         (* the promise of one call of async update() *)
| PBroadcast (n : nat)      (* the promise of one call of async broadcast() *)
| PEmpty (n : nat)          (* Promise.resolve(), broadcast to nobody *)
| PDelivery (n i : nat)     (* observer.update(data), i-th target *)
| PSettled (n : nat)        (* Promise.allSettled(...) of a broadcast *)
| PLedger (n : nat)         (* ....then(() => delete ...), the ledger entry *)
| PBarrier (n : nat)        (* Promise.allSettled(...) of nextTick *)
| PUser (n : nat).          (* a promise returned by a transition function *)

#[global] Instance PId_eq_dec : EqDecision PId.
Proof. solve_decision. Defined.

Inductive PVal :=
| PvUndefined
| PvBool (b : bool)
| PvPartial (p : State)
| PvResults.                (* the array allSettled resolves with *)

Inductive Settlement :=
| Fulfilled (v : PVal)
| Rejected (e : Exn).

Inductive PState :=
| Pending
| Done (s : Settlement).

(** The closures of the source that are handed to [then] / [finally]. *)
Inductive Kont :=
| KUpdate (r : PId)               (* outputData => this.update(outputData) *)
| KAwait (u : PId)                (* update() after its await: return true *)
| KSlot (a : PId)                 (* allSettled's per-element handlers *)
| KDelete (tok : Token) (l : PId) (* () => delete this.pendingUpdates[tok] *)
| KFinally (o : Observer)         (* () => observer.callback(this._internalState) *)
| KForward (p : PId).             (* the resolving functions of p *)

Inductive Job :=
| JReaction (k : Kont) (s : Settlement)
| JThenable (p q : PId).          (* p was resolved with the promise q *)

Record Promise := {
  pstate : PState;
  reactions : list Kont;
  remaining : nat                 (* allSettled: elements not yet settled *)
}.

Definition pending_promise : Promise :=
  {| pstate := Pending; reactions := []; remaining := 0 |}.

Definition settled_promise (s : Settlement) : Promise :=
  {| pstate := Done s; reactions := []; remaining := 0 |}.

Abbreviation Heap := (list (PId * Promise)).

Fixpoint hget (p : PId) (h : Heap) : Promise :=
  match h with
  | [] => pending_promise
  | (q, v) :: h' => if decide (p = q) then v else hget p h'
  end.

Definition hset (p : PId) (v : Promise) (h : Heap) : Heap := (p, v) :: h.

(** ** Objects used as dictionaries

    [observers] and [pendingUpdates] are plain objects with string keys
    that are not array indices, so [Object.values] lists them in insertion
    order; assigning to a present key keeps its place. *)
Section Obj.
Context {K V : Type} `{EqDecision K}.

Fixpoint obj_set (k : K) (v : V) (o : list (K * V)) : list (K * V) :=
  match o with
  | [] => [(k, v)]
  | (k', v') :: o' =>
      if decide (k = k') then (k, v) :: o' else (k', v') :: obj_set k v o'
  end.

Fixpoint obj_delete (k : K) (o : list (K * V)) : list (K * V) :=
  match o with
  | [] => []
  | (k', v') :: o' =>
      if decide (k = k') then obj_delete k o' else (k', v') :: obj_delete k o'
  end.

Fixpoint obj_get (k : K) (o : list (K * V)) : option V :=
  match o with
  | [] => None
  | (k', v') :: o' => if decide (k = k') then Some v' else obj_get k o'
  end.

Definition obj_values (o : list (K * V)) : list V := map snd o.

Definition obj_keys (o : list (K * V)) : list K := map fst o.

End Obj.

(** ** The machine *)

(** A callback queued by [requestAnimationFrame] in
    [BroadcasterObserver.update]. *)
Record FrameCallback := {
  fc_observer : Observer;
  fc_data : State;
  fc_promise : PId
}.

(** Where a subscriber callback was called from. *)
Inductive Origin :=
| FromFrame        (* BroadcasterObserver.update: this.callback(newData) *)
| FromBarrier.     (* DataStore.observe: observer.callback(this._internalState) *)

Record Invocation := {
  inv_origin : Origin;
  inv_callback : nat;
  inv_data : State
}.

Record Machine := {
  (* the store object *)
  store_params : BroadcasterParams;
  selection : option (State -> Observer -> bool);
  internalState : State;
  observers : list (Guid * Observer);
  pendingUpdates : list (Token * PId);
  (* the runtime around it *)
  heap : Heap;
  microtasks : list Job;
  frames : list FrameCallback;
  calls : list Invocation;
  serial : nat
}.

Definition set_internalState (s : State) (m : Machine) : Machine :=
  {| store_params := store_params m; selection := selection m;
     internalState := s; observers := observers m;
     pendingUpdates := pendingUpdates m; heap := heap m;
     microtasks := microtasks m; frames := frames m; calls := calls m;
     serial := serial m |}.

Definition set_observers (o : list (Guid * Observer)) (m : Machine) : Machine :=
  {| store_params := store_params m; selection := selection m;
     internalState := internalState m; observers := o;
     pendingUpdates := pendingUpdates m; heap := heap m;
     microtasks := microtasks m; frames := frames m; calls := calls m;
     serial := serial m |}.

Definition set_pendingUpdates (l : list (Token * PId)) (m : Machine) : Machine :=
  {| store_params := store_params m; selection := selection m;
     internalState := internalState m; observers := observers m;
     pendingUpdates := l; heap := heap m;
     microtasks := microtasks m; frames := frames m; calls := calls m;
     serial := serial m |}.

Definition set_heap (h : Heap) (m : Machine) : Machine :=
  {| store_params := store_params m; selection := selection m;
     internalState := internalState m; observers := observers m;
     pendingUpdates := pendingUpdates m; heap := h;
     microtasks := microtasks m; frames := frames m; calls := calls m;
     serial := serial m |}.

Definition set_microtasks (q : list Job) (m : Machine) : Machine :=
  {| store_params := store_params m; selection := selection m;
     internalState := internalState m; observers := observers m;
     pendingUpdates := pendingUpdates m; heap := heap m;
     microtasks := q; frames := frames m; calls := calls m;
     serial := serial m |}.

Definition set_frames (f : list FrameCallback) (m : Machine) : Machine :=
  {| store_params := store_params m; selection := selection m;
     internalState := internalState m; observers := observers m;
     pendingUpdates := pendingUpdates m; heap := heap m;
     microtasks := microtasks m; frames := f; calls := calls m;
     serial := serial m |}.

Definition set_calls (c : list Invocation) (m : Machine) : Machine :=
  {| store_params := store_params m; selection := selection m;
     internalState := internalState m; observers := observers m;
     pendingUpdates := pendingUpdates m; heap := heap m;
     microtasks := microtasks m; frames := frames m; calls := c;
     serial := serial m |}.

Definition set_serial (n : nat) (m : Machine) : Machine :=
  {| store_params := store_params m; selection := selection m;
     internalState := internalState m; observers := observers m;
     pendingUpdates := pendingUpdates m; heap := heap m;
     microtasks := microtasks m; frames := frames m; calls := calls m;
     serial := n |}.

(** [new DataStore(initialData, params)] in a runtime with nothing queued. *)
Definition new_store (initialData : State) (p : BroadcasterParams) : Machine :=
  {| store_params := p; selection := None;
     internalState := initialData; observers := []; pendingUpdates := [];
     heap := []; microtasks := []; frames := []; calls := []; serial := 0 |}.

(** ** Promise primitives *)

Definition promise_of (p : PId) (m : Machine) : Promise := hget p (heap m).

Definition alloc (p : PId) (v : Promise) (m : Machine) : Machine :=
  set_heap (hset p v (heap m)) m.

Definition enqueue (js : list Job) (m : Machine) : Machine :=
  set_microtasks (microtasks m ++ js) m.

(** Fulfil or reject a pending promise: its reactions become jobs. *)
Definition settle (p : PId) (s : Settlement) (m : Machine) : Machine :=
  let pr := promise_of p m in
  match pstate pr with
  | Pending =>
      enqueue (map (fun k => JReaction k s) (reactions pr))
        (alloc p {| pstate := Done s; reactions := [];
                    remaining := remaining pr |} m)
  | Done _ => m
  end.

(** Resolve [p] with the promise [q]: a job will subscribe [p] to [q]. *)
Definition resolve_with (p q : PId) (m : Machine) : Machine :=
  enqueue [JThenable p q] m.

(** [p.then(k)] *)
Definition then_ (p : PId) (k : Kont) (m : Machine) : Machine :=
  let pr := promise_of p m in
  match pstate pr with
  | Pending =>
      alloc p {| pstate := Pending; reactions := reactions pr ++ [k];
                 remaining := remaining pr |} m
  | Done s => enqueue [JReaction k s] m
  end.

(** [Promise.allSettled(ps)], its result named [a]. *)
Definition allSettled (a : PId) (ps : list PId) (m : Machine) : Machine :=
  let m1 := alloc a {| pstate := Pending; reactions := [];
                       remaining := length ps |} m in
  let m2 := fold_left (fun acc d => then_ d (KSlot a) acc) ps m1 in
  match ps with
  | [] => settle a (Fulfilled PvResults) m2
  | _ :: _ => m2
  end.

(** One element of an [allSettled] has settled, either way. *)
Definition slot_settled (a : PId) (m : Machine) : Machine :=
  let pr := promise_of a m in
  let r := pred (remaining pr) in
  let m1 := alloc a {| pstate := pstate pr; reactions := reactions pr;
                       remaining := r |} m in
  if Nat.eqb r 0 then settle a (Fulfilled PvResults) m1 else m1.

(** ** Broadcaster *)

(** [Object.values(this.observers)] *)
Definition allObservers (m : Machine) : list Observer :=
  obj_values (observers m).

(** [getObserversToUpdate(data)]: the base class returns every observer; a
    subclass may override it to filter them by the candidate state. *)
Definition getObserversToUpdate (data : State) (m : Machine) : list Observer :=
  match selection m with
  | None => allObservers m
  | Some accepts => List.filter (accepts data) (allObservers m)
  end.

(** Which [update] an observer runs. *)
Definition update_behaviour (o : Observer) (newData : State) : UpdateResult :=
  match obs_class o with
  | None => ViaSuper
  | Some c => custom_update c newData
  end.

(** [observer.update(newData)], its promise named [d].  The stock method
    only queues a frame callback. *)
Definition observer_update (o : Observer) (d : PId) (newData : State)
    (m : Machine) : Machine :=
  match update_behaviour o newData with
  | ViaSuper =>
      set_frames
        (frames m ++ [{| fc_observer := o; fc_data := newData;
                         fc_promise := d |}])
        (alloc d pending_promise m)
  | ReturnsResolved => alloc d (settled_promise (Fulfilled PvUndefined)) m
  | ReturnsRejected e => alloc d (settled_promise (Rejected e)) m
  end.

Definition record_call (from : Origin) (cb : Callback) (data : State)
    (m : Machine) : Machine :=
  set_calls (calls m ++ [{| inv_origin := from; inv_callback := cb_id cb;
                            inv_data := data |}]) m.

(** The frame callback of the stock [update]:
    [this.callback(newData); resolve();].  When the callback throws, the
    exception leaves the frame callback and [resolve] is not reached. *)
Definition run_frame_callback (fc : FrameCallback) (m : Machine) : Machine :=
  let cb := callback (fc_observer fc) in
  let m1 := record_call FromFrame cb (fc_data fc) m in
  if cb_throws cb (fc_data fc) then m1
  else settle (fc_promise fc) (Fulfilled PvUndefined) m1.

(** [broadcastTo.map(observer => observer.update(data))], promises
    [PDelivery n i], [PDelivery n (i+1)], ... *)
Fixpoint update_all (n i : nat) (os : list Observer) (data : State)
    (m : Machine) : Machine :=
  match os with
  | [] => m
  | o :: os' => update_all n (S i) os' data (observer_update o (PDelivery n i) data m)
  end.

Definition delivery_ids (n i k : nat) : list PId :=
  map (PDelivery n) (seq i k).

(** [async broadcast(data)].  The call's serial number [n] stands for
    the [uuidv4()] token. *)
Definition broadcast (data : State) (m : Machine) : PId * Machine :=
  let n := serial m in
  let b := PBroadcast n in
  let m0 := set_serial (S n) (alloc b pending_promise m) in
  let broadcastTo := getObserversToUpdate data m0 in
  match broadcastTo with
  | [] =>
      let m1 := alloc (PEmpty n) (settled_promise (Fulfilled PvUndefined)) m0 in
      (b, resolve_with b (PEmpty n) m1)
  | _ :: _ =>
      let m1 := update_all n 0 broadcastTo data m0 in
      let m2 := allSettled (PSettled n) (delivery_ids n 0 (length broadcastTo)) m1 in
      let m3 := then_ (PSettled n) (KDelete n (PLedger n))
                  (alloc (PLedger n) pending_promise m2) in
      let m4 := set_pendingUpdates
                  (obj_set n (PLedger n) (pendingUpdates m3)) m3 in
      (b, resolve_with b (PLedger n) m4)
  end.

Definition props_error : Exn :=
  Error "Props cannot be null, this data store requires props parameters for each observer".

Definition is_undefined (props : Props) : bool :=
  match props with
  | PropsUndefined => true
  | _ => false
  end.

Definition buildObserver (cb : Callback) (props : Props) (m : Machine)
    : Completion Observer :=
  if propsRequired (store_params m) && is_undefined props
  then Throw props_error
  else Normal {| callback := cb; params := props;
                 obs_class := observerClassConstructor (store_params m) |}.

(** [saveObserver]; [guid] is what [Broadcaster.guid()] returned.  The
    destroy handle it returns is [destroy guid]. *)
Definition saveObserver (guid : Guid) (cb : Callback) (props : Props)
    (m : Machine) : Completion Observer * Machine :=
  match buildObserver cb props m with
  | Throw e => (Throw e, m)
  | Normal observer =>
      (Normal observer, set_observers (obj_set guid observer (observers m)) m)
  end.

(** [() => delete this.observers[guid]] *)
Definition destroy (guid : Guid) (m : Machine) : Machine :=
  set_observers (obj_delete guid (observers m)) m.

(** [Broadcaster.observe] *)
Definition broadcaster_observe (guid : Guid) (cb : Callback) (props : Props)
    (m : Machine) : Completion Guid * Machine :=
  match saveObserver guid cb props m with
  | (Throw e, m') => (Throw e, m')
  | (Normal _, m') => (Normal guid, m')
  end.

(** [Broadcaster.destroyAll(...destroyCallbacks)] *)
Definition destroyAll (guids : list Guid) (m : Machine) : Machine :=
  fold_left (fun acc g => destroy g acc) guids m.

(** ** DataStore *)

(** What a transition function may return. *)
Inductive ActionResult :=
| RUndefined
| RNull
| RBool (b : bool)
| RNumber (n : Z)
| RString (s : string)
| RFunction
| RObject (p : State)
| RPromise (q : PId).

Definition truthy (r : ActionResult) : bool :=
  match r with
  | RUndefined | RNull => false
  | RBool b => b
  | RNumber n => negb (Z.eqb n 0)
  | RString s => negb (String.eqb s "")
  | RFunction | RObject _ | RPromise _ => true
  end.

Definition typeof (r : ActionResult) : string :=
  match r with
  | RUndefined => "undefined"
  | RNull | RObject _ | RPromise _ => "object"
  | RBool _ => "boolean"
  | RNumber _ => "number"
  | RString _ => "string"
  | RFunction => "function"
  end.

Definition action_error : Exn :=
  Error "Actions must output data that is compatible with the DataStore's state. Received null, undefined, or a non-object result.".

(** The value [update] receives, spread into an object. *)
Definition partial_of (v : PVal) : State :=
  match v with
  | PvPartial p => p
  | _ => ∅
  end.

(** [nextTick(callback)] *)
Definition nextTick (k : Kont) (m : Machine) : Machine :=
  let n := serial m in
  let pendingUpdatePromises := obj_values (pendingUpdates m) in
  let m1 := allSettled (PBarrier n) pendingUpdatePromises (set_serial (S n) m) in
  then_ (PBarrier n) k m1.

(** [DataStore.observe] *)
Definition observe (guid : Guid) (cb : Callback) (props : Props)
    (updateImmediately : bool) (m : Machine) : Completion Guid * Machine :=
  match saveObserver guid cb props m with
  | (Throw e, m') => (Throw e, m')
  | (Normal observer, m') =>
      (Normal guid,
       if updateImmediately then nextTick (KFinally observer) m' else m')
  end.

(** The bound action [func] built by [createActions]; [action] is the
    transition function with its arguments already supplied. *)
Definition bound_action (action : State -> ActionResult) (m : Machine)
    : Completion PId * Machine :=
  let result := action (internalState m) in
  if negb (truthy result) || negb (String.eqb (typeof result) "object")
  then (Throw action_error, m)
  else
    let n := serial m in
    let m0 := set_serial (S n) m in
    let promise := PAsync n in
    match result with
    | RPromise q =>
        (Normal promise,
         then_ q (KUpdate promise) (alloc promise pending_promise m0))
    | RObject p =>
        let m1 := alloc (PResolved n)
                    (settled_promise (Fulfilled (PvPartial p))) m0 in
        (Normal promise,
         then_ (PResolved n) (KUpdate promise)
           (alloc promise pending_promise m1))
    | _ => (Throw action_error, m)
    end.

(** A promise of user code settles. *)
Definition user_settles (n : nat) (s : Settlement) (m : Machine) : Machine :=
  settle (PUser n) s m.

Section EventLoop.

(** [deepEqual] of the package deep-equal. *)
Variable deepEqual : State -> State -> bool.

(** [private async update(data)], run up to its first suspension. *)
Definition update (data : State) (m : Machine) : PId * Machine :=
  let n := serial m in
  let u := PUpdate n in
  let m0 := set_serial (S n) (alloc u pending_promise m) in
  let newState := merge (internalState m0) data in
  let equal := deepEqual newState (internalState m0) in
  if equal then (u, settle u (Fulfilled (PvBool false)) m0)
  else
    let m1 := set_internalState (merge (internalState m0) data) m0 in
    let '(b, m2) := broadcast (internalState m1) m1 in
    (u, then_ b (KAwait u) m2).

(** One microtask. *)
Definition run_job (j : Job) (m : Machine) : Machine :=
  match j with
  | JThenable p q => then_ q (KForward p) m
  | JReaction (KUpdate r) (Fulfilled v) =>
      let '(u, m1) := update (partial_of v) m in resolve_with r u m1
  | JReaction (KUpdate r) (Rejected e) => settle r (Rejected e) m
  | JReaction (KAwait u) (Fulfilled _) => settle u (Fulfilled (PvBool true)) m
  | JReaction (KAwait u) (Rejected e) => settle u (Rejected e) m
  | JReaction (KSlot a) _ => slot_settled a m
  | JReaction (KDelete tok l) (Fulfilled _) =>
      settle l (Fulfilled (PvBool true))
        (set_pendingUpdates (obj_delete tok (pendingUpdates m)) m)
  | JReaction (KDelete tok l) (Rejected e) => settle l (Rejected e) m
  | JReaction (KFinally o) _ =>
      record_call FromBarrier (callback o) (internalState m) m
  | JReaction (KForward p) s => settle p s m
  end.

(** The microtask checkpoint: run jobs until the queue is empty. *)
Fixpoint drain (fuel : nat) (m : Machine) : Machine :=
  match fuel with
  | 0 => m
  | S fuel' =>
      match microtasks m with
      | [] => m
      | j :: q => drain fuel' (run_job j (set_microtasks q m))
      end
  end.

(** One animation frame: the callbacks queued so far run in order, with a
    microtask checkpoint after each; callbacks queued meanwhile wait for
    the next frame. *)
Definition run_frame (fuel : nat) (m : Machine) : Machine :=
  fold_left (fun acc fc => drain fuel (run_frame_callback fc acc))
    (frames m) (set_frames [] m).

End EventLoop.

(** * Vocabulary of the statements *)

(** An observer whose [update] is the stock one (or delegates to it). *)
Definition stock (data : State) (o : Observer) : Prop :=
  update_behaviour o data = ViaSuper.

(** The frame callbacks [broadcastTo.map(...)] queues for stock observers. *)
Fixpoint frame_callbacks (n i : nat) (os : list Observer) (data : State)
    : list FrameCallback :=
  match os with
  | [] => []
  | o :: os' =>
      {| fc_observer := o; fc_data := data; fc_promise := PDelivery n i |}
      :: frame_callbacks n (S i) os' data
  end.

(** The call a frame callback makes. *)
Definition delivery_of (fc : FrameCallback) : Invocation :=
  {| inv_origin := FromFrame; inv_callback := cb_id (callback (fc_observer fc));
     inv_data := fc_data fc |}.

Definition delivered (from : Origin) (data : State) (o : Observer) : Invocation :=
  {| inv_origin := from; inv_callback := cb_id (callback o); inv_data := data |}.

Definition is_frame_call (i : Invocation) : bool :=
  match inv_origin i with
  | FromFrame => true
  | FromBarrier => false
  end.

(** The calls made by frame callbacks, in order. *)
Definition frame_calls (l : list Invocation) : list Invocation :=
  List.filter is_frame_call l.

(** The machine after a bound action of [m] has committed [data] and
    started the broadcast to the stock observers [os], with every
    microtask run: the promises of the call chain wait on one another and
    the frame callbacks are queued. *)
Record in_flight (m : Machine) (os : list Observer) (data : State)
    (M : Machine) : Prop := {
  fl_shape :
    M = set_internalState data
          (set_pendingUpdates
             (obj_set (serial m + 2) (PLedger (serial m + 2)) (pendingUpdates m))
             (set_frames (frames m ++ frame_callbacks (serial m + 2) 0 os data)
                (set_serial (serial m + 3)
                   (set_microtasks [] (set_heap (heap M) m)))));
  fl_async : promise_of (PAsync (serial m)) M = pending_promise;
  fl_update :
    promise_of (PUpdate (serial m + 1)) M =
    {| pstate := Pending; reactions := [KForward (PAsync (serial m))];
       remaining := 0 |};
  fl_broadcast :
    promise_of (PBroadcast (serial m + 2)) M =
    {| pstate := Pending; reactions := [KAwait (PUpdate (serial m + 1))];
       remaining := 0 |};
  fl_ledger :
    promise_of (PLedger (serial m + 2)) M =
    {| pstate := Pending; reactions := [KForward (PBroadcast (serial m + 2))];
       remaining := 0 |};
  fl_settled :
    promise_of (PSettled (serial m + 2)) M =
    {| pstate := Pending;
       reactions := [KDelete (serial m + 2) (PLedger (serial m + 2))];
       remaining := length os |};
  fl_delivery : forall j, j < length os ->
    promise_of (PDelivery (serial m + 2) j) M =
    {| pstate := Pending; reactions := [KSlot (PSettled (serial m + 2))];
       remaining := 0 |}
}.

(** An observer whose callback returns normally on [data]. *)
Definition quiet (data : State) (o : Observer) : Prop :=
  cb_throws (callback o) data = false.

(** A result the bound action accepts: an object or a promise. *)
Definition is_object_result (r : ActionResult) : bool :=
  match r with
  | RObject _ | RPromise _ => true
  | _ => false
  end.

(** A subscription request: the key drawn for it, the callback, the props. *)
Abbreviation Registration := (Guid * Callback * Props)%type.

Definition reg_guid (reg : Registration) : Guid := reg.1.1.

(** [saveObserver] for each request in turn. *)
Definition register_all (regs : list Registration) (m : Machine) : Machine :=
  fold_left (fun acc reg => (saveObserver reg.1.1 reg.1.2 reg.2 acc).2) regs m.

(** The observer [buildObserver] makes for a request. *)
Definition observer_of (m : Machine) (reg : Registration) : Observer :=
  {| callback := reg.1.2; params := reg.2;
     obs_class := observerClassConstructor (store_params m) |}.

Definition accepted (m : Machine) (reg : Registration) : Prop :=
  buildObserver reg.1.2 reg.2 m = Normal (observer_of m reg).

(** The destroy handle of the request is among the handles invoked. *)
Definition destroyed (ds : list Guid) (reg : Registration) : bool :=
  bool_decide (reg_guid reg ∈ ds).

(** Two machines with the same store configuration and registry. *)
Definition same_registry (m m' : Machine) : Prop :=
  store_params m' = store_params m /\ selection m' = selection m /\
  observers m' = observers m.

(** Two machines that differ at most in the heap and the microtask queue. *)
Definition same_store (m m' : Machine) : Prop :=
  store_params m' = store_params m /\ selection m' = selection m /\
  internalState m' = internalState m /\ observers m' = observers m /\
  pendingUpdates m' = pendingUpdates m /\ frames m' = frames m /\
  calls m' = calls m /\ serial m' = serial m.

(** What [same_registry] compares. *)
Definition registry (m : Machine)
    : BroadcasterParams * option (State -> Observer -> bool) * list (Guid * Observer) :=
  (store_params m, selection m, observers m).

(** [stock] and [quiet] over a list, as tests. *)
Definition all_stock (data : State) (os : list Observer) : bool :=
  forallb (fun o => match update_behaviour o data with
                    | ViaSuper => true
                    | _ => false
                    end) os.

Definition all_quiet (data : State) (os : list Observer) : bool :=
  forallb (fun o => negb (cb_throws (callback o) data)) os.

(** * Instances for the examples *)

(** Structural equality of values, for a [deepEqual] to run the examples
    with (the strict mode of the package on plain data). *)
Fixpoint value_eqb (a b : Value) : bool :=
  match a, b with
  | VUndefined, VUndefined | VNull, VNull => true
  | VBool x, VBool y => Bool.eqb x y
  | VNum x, VNum y => Z.eqb x y
  | VStr x, VStr y => String.eqb x y
  | VArr xs, VArr ys =>
      (fix go (xs ys : list Value) : bool :=
         match xs, ys with
         | [], [] => true
         | x :: xs', y :: ys' => value_eqb x y && go xs' ys'
         | _, _ => false
         end) xs ys
  | VObj xs, VObj ys =>
      (fix go (xs ys : list (string * Value)) : bool :=
         match xs, ys with
         | [], [] => true
         | (k, x) :: xs', (k', y) :: ys' =>
             String.eqb k k' && value_eqb x y && go xs' ys'
         | _, _ => false
         end) xs ys
  | _, _ => false
  end.

Fixpoint fields_eqb (xs ys : list (string * Value)) : bool :=
  match xs, ys with
  | [], [] => true
  | (k, x) :: xs', (k', y) :: ys' =>
      String.eqb k k' && value_eqb x y && fields_eqb xs' ys'
  | _, _ => false
  end.

Definition strict_deepEqual (a b : State) : bool :=
  fields_eqb (map_to_list a) (map_to_list b).

Definition quiet_cb (n : nat) : Callback :=
  {| cb_id := n; cb_throws := fun _ => false |}.

Definition throwing_cb (n : nat) : Callback :=
  {| cb_id := n; cb_throws := fun _ => true |}.

Definition ex_state : State := {[ "count" := VNum 1; "label" := VStr "a" ]}.

Definition ex_partial : State := {[ "count" := VNum 2 ]}.

Definition ex_same : State := {[ "count" := VNum 1 ]}.

Definition ex_merged : State := {[ "count" := VNum 2; "label" := VStr "a" ]}.

Definition ex_store : Machine :=
  new_store ex_state {| observerClassConstructor := None; propsRequired := false |}.

Definition ex_required : Machine :=
  new_store ex_state {| observerClassConstructor := None; propsRequired := true |}.

Definition ex_regs : list Registration :=
  [("g1", quiet_cb 1, PropsUndefined); ("g2", quiet_cb 2, PropsNull)].

(** Two subscribers. *)
Definition ex_two : Machine := register_all ex_regs ex_store.

(** Two subscribers, the first of which throws. *)
Definition ex_bad : Machine :=
  register_all [("g1", throwing_cb 1, PropsUndefined);
                ("g2", quiet_cb 2, PropsUndefined)] ex_store.

(** A class whose [update] returns a rejected promise. *)
Definition rejecting_class : CustomObserverClass :=
  {| custom_update := fun _ => ReturnsRejected (Error "no") |}.

(** Two subscribers, the first of a class whose [update] rejects. *)
Definition ex_rejecting : Machine :=
  set_observers
    [("g1", {| callback := quiet_cb 1; params := PropsUndefined;
               obs_class := Some rejecting_class |});
     ("g2", {| callback := quiet_cb 2; params := PropsUndefined;
               obs_class := None |})] ex_store.

Definition set_count (_ : State) : ActionResult := RObject ex_partial.

Definition keep_count (_ : State) : ActionResult := RObject ex_same.

Definition return_null (_ : State) : ActionResult := RNull.

Definition call (from : Origin) (cb : nat) (data : State) : Invocation :=
  {| inv_origin := from; inv_callback := cb; inv_data := data |}.

(** An observer whose [update] returns a promise that is already settled,
    without going through [super.update]. *)
Definition settles_at_once (data : State) (o : Observer) : Prop :=
  update_behaviour o data <> ViaSuper.

(** Further instances for the examples. *)

Definition return_promise (_ : State) : ActionResult := RPromise (PUser 0).

Definition count_of (s : State) : Z :=
  match s !! "count" with
  | Some (VNum n) => n
  | _ => 0%Z
  end.

(** [state => ({count: state.count + d})] *)
Definition add_to_count (d : Z) (s : State) : ActionResult :=
  RObject {[ "count" := VNum (count_of s + d) ]}.

Definition resolving_class : CustomObserverClass :=
  {| custom_update := fun _ => ReturnsResolved |}.

(** Two subscribers of classes whose [update] returns a settled promise. *)
Definition ex_settled : Machine :=
  set_observers
    [("g1", {| callback := quiet_cb 1; params := PropsUndefined;
               obs_class := Some rejecting_class |});
     ("g2", {| callback := quiet_cb 2; params := PropsUndefined;
               obs_class := Some resolving_class |})] ex_store.

Definition stock_observer (n : nat) (props : Props) : Observer :=
  {| callback := quiet_cb n; params := props; obs_class := None |}.

(** ** The rest of a checkpoint after a commit *)

(** An observer whose [update], given [data], is the stock one, as a test. *)
Definition delegates (data : State) (o : Observer) : bool :=
  match update_behaviour o data with
  | ViaSuper => true
  | _ => false
  end.

(** The frame callbacks [broadcastTo.map(...)] queues, whatever the
    classes of the observers: one for each observer that runs the stock
    [update], under the index the observer has among the targets. *)
Fixpoint queued_callbacks (n i : nat) (os : list Observer) (data : State)
    : list FrameCallback :=
  match os with
  | [] => []
  | o :: os' =>
      (if delegates data o
       then [{| fc_observer := o; fc_data := data; fc_promise := PDelivery n i |}]
       else [])
      ++ queued_callbacks n (S i) os' data
  end.

(** The promises one commit allocates: [r] is the promise of the bound
    action, [su] the serial number at which [update] starts and [len] the
    number of targets of its broadcast (with no target the broadcast
    returns [Promise.resolve()], otherwise the ledger entry). *)
Definition commit_promise (r : PId) (su len : nat) (p : PId) : Prop :=
  p = r \/ p = PUpdate su \/ p = PBroadcast (S su) \/
  (len = 0 /\ p = PEmpty (S su)) \/
  (0 < len /\ (p = PSettled (S su) \/ p = PLedger (S su) \/
               exists i, i < len /\ p = PDelivery (S su) i)).

(** A continuation that settles promises of the set [T] only; it neither
    commits a state nor calls a subscriber. *)
Definition inert_kont (T : PId -> Prop) (k : Kont) : Prop :=
  match k with
  | KAwait u => T u
  | KSlot a => T a
  | KDelete _ l => T l
  | KForward p => T p
  | KUpdate _ | KFinally _ => False
  end.

Definition inert_job (T : PId -> Prop) (j : Job) : Prop :=
  match j with
  | JReaction k _ => inert_kont T k
  | JThenable p q => T p /\ T q
  end.

(** The queue of [m] is [pre] followed by inert jobs, and the promises in
    [A] have inert reactions only. *)
Definition inert (T A : PId -> Prop) (pre : list Job) (m : Machine) : Prop :=
  (exists js, microtasks m = pre ++ js /\ Forall (inert_job T) js) /\
  forall p, A p -> Forall (inert_kont T) (reactions (promise_of p m)).

(** Two machines whose store differs at most in the ledger. *)
Definition same_but_ledger (m m' : Machine) : Prop :=
  store_params m' = store_params m /\ selection m' = selection m /\
  internalState m' = internalState m /\ observers m' = observers m /\
  frames m' = frames m /\ calls m' = calls m /\ serial m' = serial m.

(** Further instances for the examples. *)

Definition ex_three : State := {[ "count" := VNum 3; "label" := VStr "a" ]}.



(** * Promises and queues *)


Lemma hget_hset_eq p v h : hget p (hset p v h) = v.
Proof. unfold hset; simpl. by rewrite decide_True. Qed.

Lemma hget_hset_ne p q v h : p <> q -> hget p (hset q v h) = hget p h.
Proof. intros Hne. unfold hset; simpl. by rewrite decide_False. Qed.

Arguments hget : simpl never.
Arguments hset : simpl never.

Lemma same_store_refl m : same_store m m.
Proof. by repeat split. Qed.

Lemma same_store_trans m1 m2 m3 :
  same_store m1 m2 -> same_store m2 m3 -> same_store m1 m3.
Proof. unfold same_store. intuition congruence. Qed.

Lemma settle_same_store p s m : same_store m (settle p s m).
Proof. unfold settle. destruct (pstate _); by repeat split. Qed.

Lemma then_same_store p k m : same_store m (then_ p k m).
Proof. unfold then_. destruct (pstate _); by repeat split. Qed.

Lemma slot_settled_same_store a m : same_store m (slot_settled a m).
Proof.
  unfold slot_settled. destruct (Nat.eqb _ _); [|by repeat split].
  eapply same_store_trans; [|apply settle_same_store]. by repeat split.
Qed.

Lemma fold_then_same_store k ps m :
  same_store m (fold_left (fun acc d => then_ d k acc) ps m).
Proof.
  revert m. induction ps as [|d ps IH]; intros m; simpl.
  - apply same_store_refl.
  - eapply same_store_trans; [apply then_same_store | apply IH].
Qed.

Lemma allSettled_same_store a ps m : same_store m (allSettled a ps m).
Proof.
  unfold allSettled.
  assert (same_store m (fold_left (fun acc d => then_ d (KSlot a) acc) ps
     (alloc a {| pstate := Pending; reactions := []; remaining := length ps |} m))) as H.
  { eapply same_store_trans; [|apply fold_then_same_store]. by repeat split. }
  destruct ps; [|exact H].
  eapply same_store_trans; [exact H | apply settle_same_store].
Qed.

(** Machines are compared field by field. *)
Lemma machine_eq m m' :
  store_params m = store_params m' -> selection m = selection m' ->
  internalState m = internalState m' -> observers m = observers m' ->
  pendingUpdates m = pendingUpdates m' -> heap m = heap m' ->
  microtasks m = microtasks m' -> frames m = frames m' ->
  calls m = calls m' -> serial m = serial m' -> m = m'.
Proof. destruct m, m'; simpl; intros; by subst. Qed.

Ltac machine_eq := apply machine_eq; simpl; try reflexivity.

Lemma promise_of_alloc_eq p v m : promise_of p (alloc p v m) = v.
Proof. apply hget_hset_eq. Qed.

Lemma promise_of_alloc_ne p q v m :
  p <> q -> promise_of p (alloc q v m) = promise_of p m.
Proof. apply hget_hset_ne. Qed.

(** [then_] on a pending promise only extends its reaction list. *)
Lemma then_pending p k m :
  pstate (promise_of p m) = Pending ->
  then_ p k m =
  alloc p {| pstate := Pending; reactions := reactions (promise_of p m) ++ [k];
             remaining := remaining (promise_of p m) |} m.
Proof. intros H. unfold then_. by rewrite H. Qed.

Lemma then_done p k s m :
  pstate (promise_of p m) = Done s -> then_ p k m = enqueue [JReaction k s] m.
Proof. intros H. unfold then_. by rewrite H. Qed.

Lemma settle_pending p s m :
  pstate (promise_of p m) = Pending ->
  settle p s m =
  enqueue (map (fun k => JReaction k s) (reactions (promise_of p m)))
    (alloc p {| pstate := Done s; reactions := [];
                remaining := remaining (promise_of p m) |} m).
Proof. intros H. unfold settle. by rewrite H. Qed.

(** Subscribing one continuation to a list of pending promises. *)
Lemma fold_then_pending k ps m :
  (forall d, d ∈ ps -> pstate (promise_of d m) = Pending) ->
  let m' := fold_left (fun acc d => then_ d k acc) ps m in
  m' = set_heap (heap m') m /\
  (forall p, p ∉ ps -> promise_of p m' = promise_of p m) /\
  (NoDup ps -> forall d, d ∈ ps ->
     promise_of d m' =
     {| pstate := Pending; reactions := reactions (promise_of d m) ++ [k];
        remaining := remaining (promise_of d m) |}).
Proof.
  revert m. induction ps as [|d ps IH]; intros m Hp; simpl.
  - split; [by machine_eq|]. split; [done|]. intros _ d Hd. by apply elem_of_nil in Hd.
  - assert (pstate (promise_of d m) = Pending) as Hd by (apply Hp; left).
    rewrite (then_pending _ _ _ Hd).
    set (m1 := alloc d _ m).
    assert (forall d', d' ∈ ps -> pstate (promise_of d' m1) = Pending) as Hp1.
    { intros d' Hd'. unfold m1. destruct (decide (d' = d)) as [->|Hne].
      - by rewrite promise_of_alloc_eq.
      - rewrite promise_of_alloc_ne by done. apply Hp. by right. }
    destruct (IH m1 Hp1) as (Hshape & Hout & Hin).
    split; [|split].
    + rewrite Hshape. by machine_eq.
    + intros p Hnp. apply not_elem_of_cons in Hnp as [Hne Hnp].
      rewrite (Hout p Hnp). unfold m1. by rewrite promise_of_alloc_ne.
    + intros Hnd d' Hd'. apply NoDup_cons in Hnd as [Hnin Hnd].
      apply elem_of_cons in Hd' as [->|Hd'].
      * rewrite (Hout d Hnin). unfold m1. by rewrite promise_of_alloc_eq.
      * rewrite (Hin Hnd d' Hd'). unfold m1.
        assert (d' <> d) by (intros ->; done).
        by rewrite promise_of_alloc_ne.
Qed.

Lemma all_stock_Forall data os : all_stock data os = true -> Forall (stock data) os.
Proof.
  unfold all_stock, stock. induction os as [|o os IH]; cbn [forallb]; [constructor|].
  intros [Ho Hos]%andb_prop. constructor; [|by apply IH].
  by destruct (update_behaviour o data).
Qed.

Lemma all_quiet_Forall data os : all_quiet data os = true -> Forall (quiet data) os.
Proof.
  unfold all_quiet, quiet. induction os as [|o os IH]; cbn [forallb]; [constructor|].
  intros [Ho Hos]%andb_prop. constructor; [|by apply IH].
  by destruct (cb_throws (callback o) data).
Qed.

Lemma observer_update_stock o d data m :
  stock data o ->
  observer_update o d data m =
  set_frames (frames m ++ [{| fc_observer := o; fc_data := data; fc_promise := d |}])
    (alloc d pending_promise m).
Proof. intros H. unfold observer_update. by rewrite H. Qed.

Lemma update_all_stock n os data : forall i m,
  Forall (stock data) os ->
  let m' := update_all n i os data m in
  m' = set_frames (frames m ++ frame_callbacks n i os data) (set_heap (heap m') m) /\
  (forall j, i <= j < i + length os ->
     promise_of (PDelivery n j) m' = pending_promise) /\
  (forall p, (forall j, i <= j < i + length os -> p <> PDelivery n j) ->
     promise_of p m' = promise_of p m).
Proof.
  induction os as [|o os IH]; intros i m Hs; cbv zeta; simpl.
  - split; [machine_eq; by rewrite app_nil_r|]. split; [lia|done].
  - apply Forall_cons in Hs as [Ho Hs].
    rewrite (observer_update_stock _ _ _ _ Ho).
    set (m1 := set_frames _ _).
    destruct (IH (S i) m1 Hs) as (Hshape & Hin & Hout). cbv zeta in *.
    split; [|split].
    + rewrite Hshape. machine_eq. by rewrite <- app_assoc.
    + intros j Hj. destruct (decide (j = i)) as [->|Hne].
      * rewrite Hout by (intros j' Hj' [=]; lia).
        unfold m1, promise_of; simpl. by rewrite hget_hset_eq.
      * apply Hin. lia.
    + intros p Hp. rewrite Hout by (intros j' Hj'; apply Hp; lia).
      unfold m1, promise_of; simpl. rewrite hget_hset_ne; [done|]. apply Hp. lia.
Qed.

Lemma getObserversToUpdate_ext data m m' :
  selection m' = selection m -> observers m' = observers m ->
  getObserversToUpdate data m' = getObserversToUpdate data m.
Proof. unfold getObserversToUpdate, allObservers. by intros -> ->. Qed.

Lemma elem_of_delivery_ids p n i k :
  p ∈ delivery_ids n i k <-> exists j, i <= j < i + k /\ p = PDelivery n j.
Proof.
  unfold delivery_ids. rewrite list_elem_of_fmap. split.
  - intros (j & -> & Hj). apply elem_of_seq in Hj. eauto.
  - intros (j & Hj & ->). exists j. split; [done|]. by apply elem_of_seq.
Qed.

Lemma NoDup_delivery_ids n i k : NoDup (delivery_ids n i k).
Proof.
  unfold delivery_ids. apply NoDup_fmap_2; [|apply NoDup_seq].
  by intros x y [=].
Qed.

Lemma length_delivery_ids n i k : length (delivery_ids n i k) = k.
Proof. unfold delivery_ids. by rewrite length_map, length_seq. Qed.

Lemma fst_broadcast data m : (broadcast data m).1 = PBroadcast (serial m).
Proof. unfold broadcast. by destruct (getObserversToUpdate _ _). Qed.

(** [broadcast] to at least one observer, all of them stock. *)
Lemma broadcast_stock data m :
  let n := serial m in
  let os := getObserversToUpdate data m in
  let m' := (broadcast data m).2 in
  os <> [] -> Forall (stock data) os ->
  m' = set_microtasks (microtasks m ++ [JThenable (PBroadcast n) (PLedger n)])
         (set_pendingUpdates (obj_set n (PLedger n) (pendingUpdates m))
            (set_frames (frames m ++ frame_callbacks n 0 os data)
               (set_serial (S n) (set_heap (heap m') m)))) /\
  promise_of (PBroadcast n) m' = pending_promise /\
  promise_of (PLedger n) m' = pending_promise /\
  promise_of (PSettled n) m' =
    {| pstate := Pending; reactions := [KDelete n (PLedger n)];
       remaining := length os |} /\
  (forall j, j < length os ->
     promise_of (PDelivery n j) m' =
     {| pstate := Pending; reactions := [KSlot (PSettled n)]; remaining := 0 |}) /\
  (forall p, p <> PBroadcast n -> p <> PLedger n -> p <> PSettled n ->
     (forall j, p <> PDelivery n j) -> promise_of p m' = promise_of p m).
Proof.
  intros n os m' Hne Hs. subst m'. unfold broadcast. fold n.
  set (m0 := set_serial (S n) (alloc (PBroadcast n) pending_promise m)).
  assert (getObserversToUpdate data m0 = os) as -> by by apply getObserversToUpdate_ext.
  destruct os as [|o os'] eqn:Eos; [done|]. rewrite <- Eos in *. clear Hne.
  cbn [snd].
  destruct (update_all_stock n os data 0 m0 Hs) as (Hsh1 & Hin1 & Hout1).
  set (m1 := update_all n 0 os data m0) in *.
  unfold allSettled.
  set (ma := alloc (PSettled n) _ m1).
  assert (forall d, d ∈ delivery_ids n 0 (length os) -> pstate (promise_of d ma) = Pending) as Hpend.
  { intros d (j & Hj & ->)%elem_of_delivery_ids. unfold ma.
    rewrite promise_of_alloc_ne by done. by rewrite Hin1. }
  destruct (fold_then_pending (KSlot (PSettled n)) _ ma Hpend) as (Hsh2 & Hout2 & Hin2).
  set (m2 := fold_left _ _ ma) in *.
  assert (match delivery_ids n 0 (length os) with
          | [] => settle (PSettled n) (Fulfilled PvResults) m2
          | _ :: _ => m2 end = m2) as ->.
  { rewrite Eos. by simpl. }
  assert (promise_of (PSettled n) m2 =
          {| pstate := Pending; reactions := []; remaining := length os |}) as HA2.
  { rewrite Hout2.
    - unfold ma. rewrite promise_of_alloc_eq. by rewrite length_delivery_ids.
    - by intros (j & _ & [=])%elem_of_delivery_ids. }
  rewrite then_pending
    by (rewrite promise_of_alloc_ne by done; by rewrite HA2).
  rewrite promise_of_alloc_ne by done. rewrite HA2. simpl.
  unfold resolve_with.
  split; [|split; [|split; [|split; [|split]]]].
  - machine_eq; rewrite Hsh2; simpl; rewrite Hsh1; by simpl.
  - unfold promise_of; simpl. rewrite !hget_hset_ne by done.
    fold (promise_of (PBroadcast n) m2). rewrite Hout2 by by intros (j & _ & [=])%elem_of_delivery_ids.
    unfold ma. rewrite promise_of_alloc_ne by done.
    rewrite Hout1 by done. unfold m0, promise_of; simpl. by rewrite hget_hset_eq.
  - unfold promise_of; simpl. rewrite hget_hset_ne by done. by rewrite hget_hset_eq.
  - unfold promise_of; simpl. by rewrite hget_hset_eq.
  - intros j Hj. unfold promise_of; simpl. rewrite !hget_hset_ne by done.
    fold (promise_of (PDelivery n j) m2).
    rewrite Hin2.
    + unfold ma. rewrite promise_of_alloc_ne by done. rewrite Hin1 by lia. done.
    + apply NoDup_delivery_ids.
    + apply elem_of_delivery_ids. exists j. split; [lia|done].
  - intros p H1 H2 H3 H4. unfold promise_of; simpl. rewrite !hget_hset_ne by done.
    fold (promise_of p m2).
    rewrite Hout2 by (intros (j & _ & ->)%elem_of_delivery_ids; by apply (H4 j)).
    unfold ma. rewrite promise_of_alloc_ne by done.
    rewrite Hout1 by (intros j _; apply H4).
    unfold m0, promise_of; simpl. by rewrite hget_hset_ne.
Qed.

Section Proofs.

Variable deepEqual : State -> State -> bool.

Lemma drain_idle fuel m : microtasks m = [] -> drain deepEqual fuel m = m.
Proof. intros H. destruct fuel; simpl; [done|]. by rewrite H. Qed.

Lemma drain_step fuel j q m :
  microtasks m = j :: q ->
  drain deepEqual (S fuel) m = drain deepEqual fuel (run_job deepEqual j (set_microtasks q m)).
Proof. intros H. simpl. by rewrite H. Qed.

(** A bound action given an object queues the commit as one microtask. *)
Lemma bound_action_object action P m :
  action (internalState m) = RObject P ->
  bound_action action m =
  (Normal (PAsync (serial m)),
   set_microtasks
     (microtasks m ++ [JReaction (KUpdate (PAsync (serial m))) (Fulfilled (PvPartial P))])
     (set_serial (S (serial m))
        (set_heap
           (hset (PAsync (serial m)) pending_promise
              (hset (PResolved (serial m)) (settled_promise (Fulfilled (PvPartial P)))
                 (heap m))) m))).
Proof.
  intros H. unfold bound_action. rewrite H. cbn [truthy typeof negb orb String.eqb].
  simpl. f_equal. unfold then_, promise_of. cbn [heap alloc set_heap set_serial].
  rewrite hget_hset_ne by done. rewrite hget_hset_eq. cbn [pstate settled_promise].
  by machine_eq.
Qed.

(** The commit step of a changing update whose targets are stock
    observers, at least one. *)
Lemma update_stock P m :
  let s := serial m in
  let data := merge (internalState m) P in
  let os := getObserversToUpdate data m in
  let m' := (update deepEqual P m).2 in
  deepEqual data (internalState m) = false ->
  os <> [] -> Forall (stock data) os ->
  (update deepEqual P m).1 = PUpdate s /\
  m' = set_internalState data
         (set_microtasks (microtasks m ++ [JThenable (PBroadcast (S s)) (PLedger (S s))])
            (set_pendingUpdates (obj_set (S s) (PLedger (S s)) (pendingUpdates m))
               (set_frames (frames m ++ frame_callbacks (S s) 0 os data)
                  (set_serial (S (S s)) (set_heap (heap m') m))))) /\
  promise_of (PUpdate s) m' = pending_promise /\
  promise_of (PBroadcast (S s)) m' =
    {| pstate := Pending; reactions := [KAwait (PUpdate s)]; remaining := 0 |} /\
  promise_of (PLedger (S s)) m' = pending_promise /\
  promise_of (PSettled (S s)) m' =
    {| pstate := Pending; reactions := [KDelete (S s) (PLedger (S s))];
       remaining := length os |} /\
  (forall j, j < length os ->
     promise_of (PDelivery (S s) j) m' =
     {| pstate := Pending; reactions := [KSlot (PSettled (S s))]; remaining := 0 |}) /\
  (forall p, p <> PUpdate s -> p <> PBroadcast (S s) -> p <> PLedger (S s) ->
     p <> PSettled (S s) -> (forall j, p <> PDelivery (S s) j) ->
     promise_of p m' = promise_of p m).
Proof.
  intros s data os m' Hneq Hne Hs. subst m'. unfold update. fold s.
  cbn [internalState set_serial alloc set_heap]. fold data. rewrite Hneq.
  set (m1 := set_internalState data _).
  change (internalState m1) with data.
  assert (getObserversToUpdate data m1 = os) as Hos by by apply getObserversToUpdate_ext.
  pose proof (broadcast_stock data m1) as Hb. cbv zeta in Hb.
  rewrite Hos in Hb. specialize (Hb Hne Hs).
  pose proof (fst_broadcast data m1) as Hfst.
  destruct (broadcast data m1) as [b m2]. cbn [fst snd] in *. subst b.
  change (serial m1) with (S s) in *.
  destruct Hb as (Hsh & Hb & HL & HA & Hd & Hout).
  rewrite then_pending by by rewrite Hb. rewrite Hb. cbn [reactions remaining pending_promise app].
  split; [done|].
  split; [|split; [|split; [|split; [|split; [|split]]]]].
  - machine_eq; rewrite Hsh; by simpl.
  - rewrite promise_of_alloc_ne by done. rewrite Hout by done.
    unfold m1, promise_of; simpl. by rewrite hget_hset_eq.
  - by rewrite promise_of_alloc_eq.
  - by rewrite promise_of_alloc_ne.
  - by rewrite promise_of_alloc_ne.
  - intros j Hj. rewrite promise_of_alloc_ne by done. by apply Hd.
  - intros p H1 H2 H3 H4 H5. rewrite promise_of_alloc_ne by done.
    rewrite Hout by done. unfold m1, promise_of; simpl. by rewrite hget_hset_ne.
Qed.

(** From a bound action to the broadcast in flight. *)
Lemma in_flight_reached action P m k :
  let data := merge (internalState m) P in
  let os := getObserversToUpdate data m in
  microtasks m = [] ->
  action (internalState m) = RObject P ->
  deepEqual data (internalState m) = false ->
  os <> [] -> Forall (stock data) os ->
  in_flight m os data (drain deepEqual (3 + k) (bound_action action m).2).
Proof.
  intros data os Hq Hact Hneq Hne Hs.
  rewrite (bound_action_object _ _ _ Hact). cbn [snd]. rewrite Hq. cbn [app].
  set (s := serial m).
  replace (3 + k) with (S (S (S k))) by lia.
  erewrite drain_step; last by cbn.
  cbn [run_job partial_of].
  set (ma := set_microtasks [] _).
  pose proof (update_stock P ma) as Hu. cbv zeta in Hu.
  change (internalState ma) with (internalState m) in Hu. fold data in Hu.
  assert (getObserversToUpdate data ma = os) as Hos by by apply getObserversToUpdate_ext.
  rewrite Hos in Hu. specialize (Hu Hneq Hne Hs).
  change (serial ma) with (S s) in Hu.
  destruct (update deepEqual P ma) as [u m1]. cbn [fst snd] in Hu.
  destruct Hu as (-> & Hsh & Hu & Hb & HL & HA & Hd & Hout).
  unfold resolve_with, enqueue.
  erewrite drain_step; last first.
  { cbn [microtasks set_microtasks]. rewrite Hsh. by cbn. }
  cbn [run_job].
  set (m2 := set_microtasks [JThenable _ _] _).
  assert (forall p, promise_of p m2 = promise_of p m1) as Hm2 by done.
  rewrite then_pending by by rewrite Hm2, HL.
  rewrite Hm2, HL. cbn [reactions remaining pending_promise app].
  erewrite drain_step; last by cbn.
  cbn [run_job].
  set (m3 := set_microtasks [] _).
  assert (forall p, p <> PLedger (S (S s)) -> promise_of p m3 = promise_of p m1) as Hm3.
  { intros p Hp. unfold m3, promise_of. cbn. by rewrite hget_hset_ne. }
  rewrite then_pending by by rewrite Hm3, Hu.
  rewrite Hm3, Hu by done. cbn [reactions remaining pending_promise app].
  rewrite drain_idle by reflexivity.
  assert (serial m + 1 = S s) as E1 by (unfold s; lia).
  assert (serial m + 2 = S (S s)) as E2 by (unfold s; lia).
  assert (serial m + 3 = S (S (S s))) as E3 by (unfold s; lia).
  split; rewrite ?E1, ?E2, ?E3.
  - machine_eq; rewrite Hsh; by cbn.
  - rewrite promise_of_alloc_ne by done. rewrite Hm3 by done.
    rewrite Hout by done. unfold ma, promise_of; cbn. by rewrite hget_hset_eq.
  - by rewrite promise_of_alloc_eq.
  - rewrite promise_of_alloc_ne by done. by rewrite Hm3, Hb.
  - rewrite promise_of_alloc_ne by done. unfold m3, promise_of; cbn.
    by rewrite hget_hset_eq.
  - rewrite promise_of_alloc_ne by done. by rewrite Hm3, HA.
  - intros j Hj. rewrite promise_of_alloc_ne by done. rewrite Hm3 by done. by apply Hd.
Qed.

Lemma settle_at p s m R k :
  promise_of p m = {| pstate := Pending; reactions := R; remaining := k |} ->
  settle p s m =
  enqueue (map (fun c => JReaction c s) R)
    (alloc p {| pstate := Done s; reactions := []; remaining := k |} m).
Proof. intros H. rewrite settle_pending; by rewrite H. Qed.

Lemma then_at p c m R k :
  promise_of p m = {| pstate := Pending; reactions := R; remaining := k |} ->
  then_ p c m =
  alloc p {| pstate := Pending; reactions := R ++ [c]; remaining := k |} m.
Proof. intros H. rewrite then_pending; by rewrite H. Qed.

Lemma slot_settled_last a m R :
  promise_of a m = {| pstate := Pending; reactions := R; remaining := 1 |} ->
  slot_settled a m =
  enqueue (map (fun c => JReaction c (Fulfilled PvResults)) R)
    (alloc a {| pstate := Done (Fulfilled PvResults); reactions := [];
                remaining := 0 |}
       (alloc a {| pstate := Pending; reactions := R; remaining := 0 |} m)).
Proof.
  intros H. unfold slot_settled. rewrite H. cbn [remaining pred Nat.eqb pstate reactions].
  by erewrite settle_at by apply promise_of_alloc_eq.
Qed.

Lemma slot_settled_more a m R k :
  promise_of a m = {| pstate := Pending; reactions := R; remaining := S (S k) |} ->
  slot_settled a m =
  alloc a {| pstate := Pending; reactions := R; remaining := S k |} m.
Proof. intros H. unfold slot_settled. by rewrite H. Qed.

Lemma run_frame_callback_quiet o data d m R k :
  quiet data o ->
  promise_of d m = {| pstate := Pending; reactions := R; remaining := k |} ->
  run_frame_callback {| fc_observer := o; fc_data := data; fc_promise := d |} m =
  enqueue (map (fun c => JReaction c (Fulfilled PvUndefined)) R)
    (alloc d {| pstate := Done (Fulfilled PvUndefined); reactions := [];
                remaining := k |}
       (record_call FromFrame (callback o) data m)).
Proof.
  intros Ho Hd. unfold run_frame_callback. cbn [fc_observer fc_data fc_promise].
  rewrite Ho. by erewrite settle_at by exact Hd.
Qed.

Lemma frame_callbacks_cons n i o os data :
  frame_callbacks n i (o :: os) data =
  {| fc_observer := o; fc_data := data; fc_promise := PDelivery n i |}
  :: frame_callbacks n (S i) os data.
Proof. reflexivity. Qed.

Lemma fold_left_step {A B} (f : A -> B -> A) x l a :
  fold_left f (x :: l) a = fold_left f l (f a x).
Proof. reflexivity. Qed.

(** One frame over the callbacks of a broadcast in flight: every callback
    is called, the deliveries settle one by one, and the last one settles
    the aggregate, whose reactions are then the only jobs queued. *)
Lemma frame_loop n data fuel R os : forall o i m,
  microtasks m = [] ->
  promise_of (PSettled n) m =
    {| pstate := Pending; reactions := R; remaining := S (length os) |} ->
  (forall j, i <= j < i + S (length os) ->
     promise_of (PDelivery n j) m =
     {| pstate := Pending; reactions := [KSlot (PSettled n)]; remaining := 0 |}) ->
  Forall (quiet data) (o :: os) ->
  exists M,
    fold_left (fun acc fc => drain deepEqual (S fuel) (run_frame_callback fc acc))
      (frame_callbacks n i (o :: os) data) m = drain deepEqual fuel M /\
    M = set_microtasks (map (fun c => JReaction c (Fulfilled PvResults)) R)
          (set_calls (calls m ++ map delivery_of (frame_callbacks n i (o :: os) data))
             (set_heap (heap M) m)) /\
    (forall p, p <> PSettled n -> (forall j, p <> PDelivery n j) ->
       promise_of p M = promise_of p m).
Proof.
  induction os as [|o' os IH]; intros o i m Hq HA Hd Hquiet.
  - apply Forall_cons in Hquiet as [Ho _]. cbn [frame_callbacks fold_left].
    erewrite (run_frame_callback_quiet o) by (done || (apply Hd; simpl; lia)).
    erewrite drain_step; last by (cbn; rewrite Hq).
    cbn [run_job map].
    erewrite slot_settled_last; last first.
    { unfold promise_of; cbn. rewrite hget_hset_ne by done. apply HA. }
    eexists. split; [reflexivity|]. split.
    + machine_eq.
    + intros p H1 H2. unfold promise_of; cbn. rewrite !hget_hset_ne by done. done.
  - apply Forall_cons in Hquiet as [Ho Hquiet].
    rewrite (frame_callbacks_cons n i o), fold_left_step.
    erewrite (run_frame_callback_quiet o) by (done || (apply Hd; simpl; lia)).
    erewrite drain_step; last by (cbn; rewrite Hq).
    cbn [run_job map].
    erewrite slot_settled_more; last first.
    { unfold promise_of; cbn. rewrite hget_hset_ne by done. apply HA. }
    rewrite drain_idle by reflexivity.
    set (m1 := alloc (PSettled n) _ _).
    destruct (IH o' (S i) m1) as (M & Hrun & Hsh & Hout).
    + reflexivity.
    + apply promise_of_alloc_eq.
    + intros j Hj. unfold m1, promise_of; cbn.
      rewrite !hget_hset_ne by (intros [=]; lia). apply Hd. simpl in *. lia.
    + done.
    + exists M. split; [exact Hrun|]. split.
      * rewrite Hsh at 1. machine_eq. by rewrite <- app_assoc.
      * intros p H1 H2. rewrite Hout by done. unfold m1, promise_of; cbn.
        by rewrite !hget_hset_ne.
Qed.


Lemma obj_get_set {V} (k : nat) (v : V) o : obj_get k (obj_set k v o) = Some v.
Proof.
  induction o as [|[k' v'] o IH]; simpl.
  - by rewrite decide_True.
  - destruct (decide (k = k')); simpl.
    + by rewrite decide_True.
    + by rewrite decide_False.
Qed.

Lemma obj_get_delete {V} (k : nat) (o : list (nat * V)) :
  obj_get k (obj_delete k o) = None.
Proof.
  induction o as [|[k' v'] o IH]; simpl; [done|].
  destruct (decide (k = k')); simpl; [done|]. by rewrite decide_False.
Qed.

Ltac lookup :=
  unfold promise_of, alloc, enqueue, record_call;
  cbn [heap set_heap set_microtasks set_calls set_frames set_pendingUpdates
       set_serial set_internalState set_observers];
  repeat first [rewrite hget_hset_eq | rewrite hget_hset_ne by done].

Ltac run_one :=
  erewrite drain_step; last (by cbn); cbn [run_job].

(** The reactions that follow the aggregate of a broadcast in flight when
    nothing else waits on its ledger entry. *)
Lemma completion_chain fuel s h m :
  hget (PLedger (s + 2)) h =
    {| pstate := Pending; reactions := [KForward (PBroadcast (s + 2))];
       remaining := 0 |} ->
  hget (PBroadcast (s + 2)) h =
    {| pstate := Pending; reactions := [KAwait (PUpdate (s + 1))]; remaining := 0 |} ->
  hget (PUpdate (s + 1)) h =
    {| pstate := Pending; reactions := [KForward (PAsync s)]; remaining := 0 |} ->
  hget (PAsync s) h = pending_promise ->
  let M := drain deepEqual (4 + fuel)
             (set_microtasks
                [JReaction (KDelete (s + 2) (PLedger (s + 2))) (Fulfilled PvResults)]
                (set_heap h m)) in
  M = set_pendingUpdates (obj_delete (s + 2) (pendingUpdates m))
        (set_microtasks [] (set_heap (heap M) m)) /\
  pstate (promise_of (PAsync s) M) = Done (Fulfilled (PvBool true)).
Proof.
  intros HL Hb Hu Hr. cbv zeta.
  replace (4 + fuel) with (S (S (S (S fuel)))) by lia.
  run_one.
  erewrite settle_at; last by (lookup; exact HL).
  cbn [map]. run_one.
  erewrite settle_at; last by (lookup; exact Hb).
  cbn [map]. run_one.
  erewrite settle_at; last by (lookup; exact Hu).
  cbn [map]. run_one.
  erewrite settle_at; last by (lookup; exact Hr).
  cbn [map]. rewrite drain_idle by reflexivity.
  split; [by machine_eq|]. by lookup.
Qed.

Lemma delivery_of_frame_callbacks n os data : forall i,
  map delivery_of (frame_callbacks n i os data) = map (delivered FromFrame data) os.
Proof. induction os as [|o os IH]; intros i; simpl; [done|]. by rewrite IH. Qed.

(** C5, as the code has it.  When the merged result differs from the prior
    state and the broadcast has at least one target (stock observers whose
    callbacks return), the settlement of the action is still pending once
    the broadcast has been started and every microtask has run: the state
    is committed, the ledger holds the operation and the frame callbacks
    wait.  It becomes [true] in the frame that runs the deliveries, after
    the last of them has settled and the ledger entry has been removed. *)
Theorem settles_true_after_the_deliveries action P m k k' :
  let data := merge (internalState m) P in
  let os := getObserversToUpdate data m in
  let r := PAsync (serial m) in
  let tok := serial m + 2 in
  let M1 := drain deepEqual (3 + k) (bound_action action m).2 in
  let M2 := run_frame deepEqual (5 + k') M1 in
  microtasks m = [] -> frames m = [] ->
  action (internalState m) = RObject P ->
  deepEqual data (internalState m) = false ->
  os <> [] -> Forall (stock data) os -> Forall (quiet data) os ->
  (bound_action action m).1 = Normal r /\
  (microtasks M1 = [] /\ internalState M1 = data /\
   frames M1 = frame_callbacks tok 0 os data /\
   obj_get tok (pendingUpdates M1) = Some (PLedger tok) /\
   calls M1 = calls m /\
   pstate (promise_of r M1) = Pending) /\
  (microtasks M2 = [] /\ frames M2 = [] /\ internalState M2 = data /\
   calls M2 = calls m ++ map (delivered FromFrame data) os /\
   obj_get tok (pendingUpdates M2) = None /\
   pstate (promise_of r M2) = Done (Fulfilled (PvBool true))).
Proof.
  intros data os r tok M1 M2 Hq Hfr Hact Hneq Hne Hstock Hquiet.
  pose proof (in_flight_reached action P m k Hq Hact Hneq Hne Hstock) as HF.
  fold data os M1 in HF. clearbody M1. destruct HF as [Hsh Hr Hu Hb HL HA Hd]. fold tok r in Hsh, Hr, Hu, Hb, HL, HA, Hd.
  assert (frames M1 = frame_callbacks tok 0 os data) as HfM1.
  { rewrite Hsh. cbn. by rewrite Hfr. }
  split; [by rewrite (bound_action_object _ _ _ Hact)|].
  split.
  { split; [by rewrite Hsh|]. split; [by rewrite Hsh|]. split; [done|].
    split; [rewrite Hsh; cbn; apply obj_get_set|].
    split; [by rewrite Hsh|]. by rewrite Hr. }
  subst M2. unfold run_frame. rewrite HfM1.
  destruct os as [|o os'] eqn:Eos; [done|].
  destruct (frame_loop tok data (4 + k') [KDelete tok (PLedger tok)] os' o 0
              (set_frames [] M1)) as (M & Hrun & HshM & Hout).
  { cbn. by rewrite Hsh. }
  { exact HA. }
  { intros j Hj. apply Hd. simpl in *. lia. }
  { done. }
  change (5 + k') with (S (4 + k')). rewrite Hrun.
  assert (hget (PLedger tok) (heap M) =
          {| pstate := Pending; reactions := [KForward (PBroadcast tok)]; remaining := 0 |}) as HL'
    by (rewrite <- HL; by apply Hout).
  assert (hget (PBroadcast tok) (heap M) =
          {| pstate := Pending; reactions := [KAwait (PUpdate (serial m + 1))]; remaining := 0 |}) as Hb'
    by (rewrite <- Hb; by apply Hout).
  assert (hget (PUpdate (serial m + 1)) (heap M) =
          {| pstate := Pending; reactions := [KForward r]; remaining := 0 |}) as Hu'
    by (rewrite <- Hu; by apply Hout).
  assert (hget r (heap M) = pending_promise) as Hr'
    by (rewrite <- Hr; by apply Hout).
  set (hM := heap M) in *. clearbody hM. subst M.
  cbn [map].
  pose proof (completion_chain k' (serial m) hM
                (set_calls (calls (set_frames [] M1) ++
                            map delivery_of (frame_callbacks tok 0 (o :: os') data))
                   (set_frames [] M1)) HL' Hb' Hu' Hr') as [HshF HrF].
  cbv zeta in HshF, HrF.
  change (set_microtasks _ (set_heap hM (set_calls ?c ?x)))
    with (set_microtasks [JReaction (KDelete tok (PLedger tok)) (Fulfilled PvResults)]
            (set_calls c (set_heap hM x))) in HshF, HrF.
  set (MF := drain deepEqual (4 + k') _) in *.
  split; [by rewrite HshF|]. split; [by rewrite HshF|].
  split; [rewrite HshF; cbn; by rewrite Hsh|].
  split.
  { rewrite HshF. cbn [calls set_pendingUpdates set_microtasks set_heap set_calls set_frames].
    rewrite delivery_of_frame_callbacks. by rewrite Hsh. }
  split; [|exact HrF].
  rewrite HshF. cbn. apply obj_get_delete.
Qed.

(** ** Calls are made by frame callbacks and by the barrier only *)

Lemma calls_observer_update o d data m :
  calls (observer_update o d data m) = calls m.
Proof. unfold observer_update. by destruct (update_behaviour o data). Qed.

Lemma calls_update_all n os data : forall i m,
  calls (update_all n i os data m) = calls m.
Proof.
  induction os as [|o os IH]; intros i m; simpl; [done|].
  by rewrite IH, calls_observer_update.
Qed.

Lemma calls_same_store m m' : same_store m m' -> calls m' = calls m.
Proof. unfold same_store. tauto. Qed.

Lemma calls_broadcast data m : calls (broadcast data m).2 = calls m.
Proof.
  unfold broadcast. destruct (getObserversToUpdate _ _) as [|o os]; [done|].
  cbn [snd]. unfold resolve_with. cbn [calls enqueue set_microtasks set_pendingUpdates].
  rewrite (calls_same_store _ _ (then_same_store _ _ _)).
  cbn [calls alloc set_heap].
  rewrite (calls_same_store _ _ (allSettled_same_store _ _ _)).
  by rewrite calls_update_all.
Qed.

Lemma calls_update P m : calls (update deepEqual P m).2 = calls m.
Proof.
  unfold update. destruct (deepEqual _ _).
  - cbn [snd]. by rewrite (calls_same_store _ _ (settle_same_store _ _ _)).
  - pose proof (calls_broadcast
      (internalState (set_internalState (merge (internalState (set_serial (S (serial m))
         (alloc (PUpdate (serial m)) pending_promise m))) P)
         (set_serial (S (serial m)) (alloc (PUpdate (serial m)) pending_promise m))))
      (set_internalState (merge (internalState (set_serial (S (serial m))
         (alloc (PUpdate (serial m)) pending_promise m))) P)
         (set_serial (S (serial m)) (alloc (PUpdate (serial m)) pending_promise m)))) as Hb.
    destruct (broadcast _ _) as [b m2]. cbn [snd] in *.
    by rewrite (calls_same_store _ _ (then_same_store _ _ _)), Hb.
Qed.

Lemma frame_calls_app l1 l2 : frame_calls (l1 ++ l2) = frame_calls l1 ++ frame_calls l2.
Proof. apply List.filter_app. Qed.

Lemma frame_calls_run_job j m :
  frame_calls (calls (run_job deepEqual j m)) = frame_calls (calls m).
Proof.
  destruct j as [[r|u|a|tok l|o|p] [v|e]|p q]; cbn [run_job];
    rewrite ?(calls_same_store _ _ (settle_same_store _ _ _)),
            ?(calls_same_store _ _ (then_same_store _ _ _)),
            ?(calls_same_store _ _ (slot_settled_same_store _ _)); try done.
  - pose proof (calls_update (partial_of v) m) as Hu.
    destruct (update _ _ _) as [u m1]. cbn [snd] in Hu. unfold resolve_with. cbn. by rewrite Hu.
  - cbn. rewrite frame_calls_app. cbn. by rewrite app_nil_r.
  - cbn. rewrite frame_calls_app. cbn. by rewrite app_nil_r.
Qed.

Lemma frame_calls_drain fuel : forall m,
  frame_calls (calls (drain deepEqual fuel m)) = frame_calls (calls m).
Proof.
  induction fuel as [|fuel IH]; intros m; simpl; [done|].
  destruct (microtasks m) as [|j q] eqn:E; [done|].
  by rewrite IH, frame_calls_run_job.
Qed.

Lemma frame_calls_run_frame_callback fc m :
  frame_calls (calls (run_frame_callback fc m)) =
  frame_calls (calls m) ++ [delivery_of fc].
Proof.
  unfold run_frame_callback. destruct (cb_throws _ _).
  - cbn. by rewrite frame_calls_app.
  - rewrite (calls_same_store _ _ (settle_same_store _ _ _)). cbn.
    by rewrite frame_calls_app.
Qed.

(** In one frame every queued callback is called exactly once, in order,
    and nothing else is called from a frame. *)
Lemma frame_calls_run_frame fuel m :
  frame_calls (calls (run_frame deepEqual fuel m)) =
  frame_calls (calls m) ++ map delivery_of (frames m).
Proof.
  unfold run_frame.
  change (calls m) with (calls (set_frames [] m)).
  generalize (set_frames [] m) as m0. generalize (frames m) as fcs.
  induction fcs as [|fc fcs IH]; intros m0; simpl.
  - by rewrite app_nil_r.
  - rewrite IH, frame_calls_drain, frame_calls_run_frame_callback.
    by rewrite <- app_assoc.
Qed.

(** A changing update with nobody to tell: the commit is made and the
    action settles within the same checkpoint. *)
Lemma no_target_settles action P m k :
  let data := merge (internalState m) P in
  let M := drain deepEqual (6 + k) (bound_action action m).2 in
  microtasks m = [] ->
  action (internalState m) = RObject P ->
  deepEqual data (internalState m) = false ->
  getObserversToUpdate data m = [] ->
  M = set_internalState data
        (set_serial (serial m + 3) (set_microtasks [] (set_heap (heap M) m))) /\
  pstate (promise_of (PAsync (serial m)) M) = Done (Fulfilled (PvBool true)).
Proof.
  intros data M Hq Hact Hneq Hnone. subst M.
  rewrite (bound_action_object _ _ _ Hact). cbn [snd]. rewrite Hq. cbn [app].
  set (s := serial m).
  replace (6 + k) with (S (S (S (S (S (S k)))))) by lia.
  run_one. cbn [partial_of]. unfold update.
  cbn [serial internalState set_serial set_microtasks set_heap alloc].
  fold data. rewrite Hneq.
  unfold broadcast.
  match goal with
  | |- context [getObserversToUpdate ?d ?x] =>
      rewrite (getObserversToUpdate_ext d m x eq_refl eq_refl)
  end.
  cbn [internalState set_internalState]. fold data. rewrite Hnone.
  cbn [serial set_internalState set_serial]. unfold resolve_with.
  erewrite then_at; last by lookup.
  cbn [app]. run_one.
  erewrite then_done; last by lookup.
  run_one.
  erewrite then_at; last by lookup.
  cbn [app]. run_one.
  erewrite settle_at; last by lookup.
  cbn [map]. run_one.
  erewrite settle_at; last by lookup.
  cbn [map]. run_one.
  erewrite settle_at; last by lookup.
  cbn [map]. rewrite drain_idle by reflexivity.
  split; [|by lookup].
  machine_eq. unfold s. lia.
Qed.

(** An unchanged update: nothing is committed or queued, and the action
    settles with [false]. *)
Lemma noop_settles action P m k :
  let M := drain deepEqual (3 + k) (bound_action action m).2 in
  microtasks m = [] ->
  action (internalState m) = RObject P ->
  deepEqual (merge (internalState m) P) (internalState m) = true ->
  M = set_serial (serial m + 2) (set_heap (heap M) m) /\
  pstate (promise_of (PAsync (serial m)) M) = Done (Fulfilled (PvBool false)).
Proof.
  intros M Hq Hact Heq. subst M.
  rewrite (bound_action_object _ _ _ Hact). cbn [snd]. rewrite Hq. cbn [app].
  set (s := serial m).
  replace (3 + k) with (S (S (S k))) by lia.
  run_one. cbn [partial_of]. unfold update.
  cbn [serial internalState set_serial set_microtasks set_heap alloc].
  rewrite Heq. unfold resolve_with.
  erewrite settle_at; last by lookup.
  cbn [map]. run_one.
  erewrite then_done; last by lookup.
  run_one.
  erewrite settle_at; last by lookup.
  cbn [map]. rewrite drain_idle by reflexivity.
  split; [|by lookup].
  machine_eq; [done|]. unfold s. lia.
Qed.


Lemma buildObserver_ext cb props m m' :
  store_params m' = store_params m ->
  buildObserver cb props m' = buildObserver cb props m.
Proof. unfold buildObserver. by intros ->. Qed.


Lemma lookup_merge_present (s p : State) f v :
  p !! f = Some v -> merge s p !! f = Some v.
Proof. intros H. unfold merge. by apply lookup_union_Some_l. Qed.

Lemma lookup_merge_absent (s p : State) f :
  p !! f = None -> merge s p !! f = s !! f.
Proof. intros H. unfold merge. by apply lookup_union_r. Qed.


(** C2.  When the merge of the partial over the state is deeply equal to
    the state, the action settles with [false]; the state, the ledger,
    the frame queue and the record of calls are what they were. *)
Theorem unchanged_update_settles_false action P m k :
  let M := drain deepEqual (3 + k) (bound_action action m).2 in
  microtasks m = [] ->
  action (internalState m) = RObject P ->
  deepEqual (merge (internalState m) P) (internalState m) = true ->
  (bound_action action m).1 = Normal (PAsync (serial m)) /\
  pstate (promise_of (PAsync (serial m)) M) = Done (Fulfilled (PvBool false)) /\
  internalState M = internalState m /\
  pendingUpdates M = pendingUpdates m /\
  observers M = observers m /\
  microtasks M = [] /\ frames M = frames m /\ calls M = calls m.
Proof.
  intros M Hq Hact Heq.
  destruct (noop_settles action P m k Hq Hact Heq) as [Hsh Hr].
  cbv zeta in Hsh, Hr. fold M in Hsh, Hr.
  split; [by rewrite (bound_action_object _ _ _ Hact)|].
  split; [done|]. rewrite Hsh. by cbn.
Qed.

(** C4, as the code has it.  A transition function that returns anything
    but an object or a promise makes the bound action itself throw, before
    any promise is made: no settlement is returned and the machine, the
    state of the store included, is untouched. *)
Theorem bad_result_throws_synchronously action m :
  is_object_result (action (internalState m)) = false ->
  bound_action action m = (Throw action_error, m).
Proof.
  intros H. unfold bound_action.
  destruct (action (internalState m)) as [| |b|n|s| | | ]; try discriminate H;
    cbn; try done.
  - by destruct b.
  - by destruct (Z.eqb n 0).
  - by destruct (String.eqb s "").
Qed.

(** C8.  With [propsRequired], [observe] without [props] throws before
    anything is registered: the machine, the registry included, is the one
    before the call.  The same holds for the methods under it. *)
Theorem observe_without_props_throws guid cb updateImmediately m :
  propsRequired (store_params m) = true ->
  buildObserver cb PropsUndefined m = Throw props_error /\
  saveObserver guid cb PropsUndefined m = (Throw props_error, m) /\
  broadcaster_observe guid cb PropsUndefined m = (Throw props_error, m) /\
  observe guid cb PropsUndefined updateImmediately m = (Throw props_error, m) /\
  observers (observe guid cb PropsUndefined updateImmediately m).2 = observers m.
Proof.
  intros H.
  assert (buildObserver cb PropsUndefined m = Throw props_error) as Hb
    by (unfold buildObserver; by rewrite H).
  unfold observe, broadcaster_observe, saveObserver. by rewrite Hb.
Qed.

(** C9.  With [propsRequired], only an undefined [props] is refused:
    [null] and every other value pass, and the observer is stored under
    its key. *)
Theorem only_undefined_props_are_refused guid cb props updateImmediately m :
  propsRequired (store_params m) = true ->
  (buildObserver cb props m = Throw props_error <-> props = PropsUndefined) /\
  (props <> PropsUndefined ->
   let o := {| callback := cb; params := props;
               obs_class := observerClassConstructor (store_params m) |} in
   saveObserver guid cb props m =
     (Normal o, set_observers (obj_set guid o (observers m)) m) /\
   (observe guid cb props updateImmediately m).1 = Normal guid /\
   obj_get guid (observers (observe guid cb props updateImmediately m).2) = Some o).
Proof.
  intros H. split.
  - unfold buildObserver. rewrite H. destruct props; cbn; split; try done.
  - intros Hp o.
    assert (buildObserver cb props m = Normal o) as Hb.
    { unfold buildObserver. rewrite H. by destruct props. }
    unfold observe, saveObserver. rewrite Hb. cbn [fst snd].
    split; [done|]. split; [done|].
    assert (obj_get guid (obj_set guid o (observers m)) = Some o) as Hg.
    { clear. induction (observers m) as [|[g' o'] l IH]; simpl.
      - by rewrite decide_True.
      - destruct (decide (guid = g')); simpl.
        + by rewrite decide_True.
        + by rewrite decide_False. }
    destruct updateImmediately; [|exact Hg].
    unfold nextTick. rewrite (proj1 (proj2 (proj2 (proj2 (then_same_store _ _ _))))).
    rewrite (proj1 (proj2 (proj2 (proj2 (allSettled_same_store _ _ _))))).
    exact Hg.
Qed.


(** An action and then a subscription with immediate delivery, both made
    before the next checkpoint: the commit runs first, and the barrier
    continuation reads the state it left. *)
Lemma observe_after_action guid cb props o action P m k :
  let data := merge (internalState m) P in
  let m1 := (bound_action action m).2 in
  let m2 := (observe guid cb props true m1).2 in
  let os := getObserversToUpdate data m2 in
  let M := drain deepEqual (4 + k) m2 in
  microtasks m = [] -> pendingUpdates m = [] ->
  action (internalState m) = RObject P ->
  buildObserver cb props m = Normal o ->
  deepEqual data (internalState m) = false ->
  os <> [] -> Forall (stock data) os ->
  internalState m2 = internalState m /\
  M = set_calls (calls m ++ [delivered FromBarrier data o])
        (set_internalState data
           (set_observers (obj_set guid o (observers m))
              (set_pendingUpdates [(serial m + 3, PLedger (serial m + 3))]
                 (set_frames (frames m ++ frame_callbacks (serial m + 3) 0 os data)
                    (set_serial (serial m + 4) (set_heap (heap M) m)))))).
Proof.
  intros data m1 m2 os M Hq Hl Hact Ho Hneq Hne Hstock.
  subst M os m2 m1. revert Hne Hstock.
  rewrite (bound_action_object _ _ _ Hact). cbn [snd]. rewrite Hq. cbn [app].
  set (s := serial m).
  unfold observe, saveObserver.
  match goal with
  | |- context [buildObserver cb props ?x] =>
      rewrite (buildObserver_ext cb props m x eq_refl)
  end.
  rewrite Ho. cbn [snd].
  unfold nextTick. cbn [pendingUpdates set_observers set_serial set_microtasks set_heap serial].
  rewrite Hl. cbn [obj_values map allSettled fold_left length].
  erewrite settle_at; last by lookup.
  cbn [map].
  erewrite then_done; last by lookup.
  set (m2 := enqueue _ _). intros Hne Hstock.
  split; [done|].
  replace (4 + k) with (S (S (S (S k)))) by lia.
  run_one. cbn [partial_of].
  set (ma := set_microtasks _ m2).
  pose proof (update_stock P ma) as Hu. cbv zeta in Hu.
  change (internalState ma) with (internalState m) in Hu. fold data in Hu.
  rewrite (getObserversToUpdate_ext data m2 ma eq_refl eq_refl) in Hu.
  specialize (Hu Hneq Hne Hstock).
  change (serial ma) with (S (S s)) in Hu.
  destruct (update deepEqual P ma) as [u mu]. cbn [fst snd] in Hu.
  destruct Hu as (-> & Hsh & Hu & Hb & HL & HA & Hd & Hout).
  unfold resolve_with, enqueue.
  erewrite drain_step; last first.
  { cbn [microtasks set_microtasks]. rewrite Hsh. by cbn. }
  cbn [run_job].
  erewrite drain_step; last by cbn.
  cbn [run_job].
  erewrite then_at; last by (lookup; exact HL).
  erewrite drain_step; last by cbn.
  cbn [run_job].
  erewrite then_at; last by (lookup; exact Hu).
  rewrite drain_idle by reflexivity.
  machine_eq; try rewrite Hsh; cbn; rewrite ?Hl; try done.
  - by replace (s + 3) with (S (S (S s))) by lia.
  - by replace (s + 3) with (S (S (S s))) by lia.
  - lia.
Qed.

(** ** The registry *)

Lemma obj_set_fresh {V} (g : Guid) (v : V) l :
  g ∉ obj_keys l -> obj_set g v l = l ++ [(g, v)].
Proof.
  induction l as [|[g' v'] l IH]; simpl; intros Hn; [done|].
  apply not_elem_of_cons in Hn as [Hne Hn].
  rewrite decide_False by done. by rewrite IH.
Qed.

Lemma obj_delete_filter {V} (g : Guid) (l : list (Guid * V)) :
  obj_delete g l = List.filter (fun kv => negb (bool_decide (kv.1 = g))) l.
Proof.
  induction l as [|[g' v'] l IH]; simpl; [done|].
  destruct (decide (g = g')) as [->|Hne].
  - rewrite bool_decide_eq_true_2 by done. by simpl.
  - rewrite bool_decide_eq_false_2 by done. simpl. by rewrite IH.
Qed.

Lemma obj_delete_idemp {V} (g : Guid) (l : list (Guid * V)) :
  obj_delete g (obj_delete g l) = obj_delete g l.
Proof.
  induction l as [|[g' v'] l IH]; simpl; [done|].
  destruct (decide (g = g')) as [->|Hne]; [done|].
  simpl. rewrite decide_False by done. by rewrite IH.
Qed.

Lemma saveObserver_accepted m reg m0 :
  store_params m0 = store_params m -> accepted m reg ->
  (saveObserver reg.1.1 reg.1.2 reg.2 m0).2 =
  set_observers (obj_set (reg_guid reg) (observer_of m reg) (observers m0)) m0.
Proof.
  intros Hp Ha. unfold saveObserver.
  rewrite (buildObserver_ext _ _ m m0 Hp). by rewrite Ha.
Qed.

Lemma register_all_cons reg regs m :
  register_all (reg :: regs) m =
  register_all regs (saveObserver reg.1.1 reg.1.2 reg.2 m).2.
Proof. reflexivity. Qed.

Lemma observers_register_all m regs : forall m0,
  store_params m0 = store_params m ->
  Forall (accepted m) regs ->
  NoDup (obj_keys (observers m0) ++ map reg_guid regs) ->
  observers (register_all regs m0) =
    observers m0 ++ map (fun reg => (reg_guid reg, observer_of m reg)) regs /\
  store_params (register_all regs m0) = store_params m /\
  selection (register_all regs m0) = selection m0.
Proof.
  induction regs as [|reg regs IH]; intros m0 Hp Hacc Hnd.
  - cbn. by rewrite app_nil_r.
  - apply Forall_cons in Hacc as [Ha Hacc].
    rewrite register_all_cons, (saveObserver_accepted m reg m0 Hp Ha).
    set (m1 := set_observers _ m0).
    assert (reg_guid reg ∉ obj_keys (observers m0)) as Hfresh.
    { intros Hin. apply NoDup_app in Hnd as (_ & Hdis & _).
      apply (Hdis _ Hin). simpl. left. }
    assert (observers m1 = observers m0 ++ [(reg_guid reg, observer_of m reg)]) as Ho1.
    { unfold m1. cbn. by apply obj_set_fresh. }
    destruct (IH m1) as (Ho & Hp' & Hs').
    + done.
    + done.
    + rewrite Ho1. unfold obj_keys. rewrite map_app. simpl.
      rewrite <- app_assoc. exact Hnd.
    + rewrite Ho, Ho1, <- app_assoc. done.
Qed.

Lemma destroyAll_cons d ds m : destroyAll (d :: ds) m = destroyAll ds (destroy d m).
Proof. reflexivity. Qed.

Lemma filter_not_in_nil {V} (l : list (Guid * V)) :
  List.filter (fun kv => negb (bool_decide (kv.1 ∈ @nil Guid))) l = l.
Proof.
  induction l as [|kv l IH]; cbn [List.filter]; [done|].
  case_bool_decide as E; [by apply elem_of_nil in E|]. cbn [negb]. by rewrite IH.
Qed.

Lemma filter_not_in_cons {V} (d : Guid) (ds : list Guid) (l : list (Guid * V)) :
  List.filter (fun kv => negb (bool_decide (kv.1 ∈ ds)))
    (List.filter (fun kv => negb (bool_decide (kv.1 = d))) l) =
  List.filter (fun kv => negb (bool_decide (kv.1 ∈ d :: ds))) l.
Proof.
  induction l as [|kv l IH]; cbn [List.filter]; [done|].
  case_bool_decide as E1; cbn [negb].
  - case_bool_decide as E2; [cbn [negb]; exact IH|].
    exfalso. apply E2. rewrite E1. left.
  - cbn [List.filter]. case_bool_decide as E2; cbn [negb].
    + case_bool_decide as E3; [cbn [negb]; exact IH|].
      exfalso. apply E3. by right.
    + case_bool_decide as E3; cbn [negb]; [|by rewrite IH].
      exfalso. apply elem_of_cons in E3 as [?|?]; done.
Qed.

Lemma observers_destroyAll ds : forall m,
  observers (destroyAll ds m) =
  List.filter (fun kv => negb (bool_decide (kv.1 ∈ ds))) (observers m).
Proof.
  induction ds as [|d ds IH]; intros m.
  - cbn [destroyAll fold_left]. by rewrite filter_not_in_nil.
  - rewrite destroyAll_cons, IH. cbn [observers destroy set_observers].
    by rewrite obj_delete_filter, filter_not_in_cons.
Qed.

Lemma destroyAll_same_but_observers ds : forall m,
  destroyAll ds m = set_observers (observers (destroyAll ds m)) m.
Proof.
  induction ds as [|d ds IH]; intros m.
  - by machine_eq.
  - rewrite destroyAll_cons. rewrite IH at 1. rewrite (IH (destroy d m)) at 2.
    by machine_eq.
Qed.

Lemma obj_get_filter_out {V} (g : Guid) (ds : list Guid) (l : list (Guid * V)) :
  g ∈ ds ->
  obj_get g (List.filter (fun kv => negb (bool_decide (kv.1 ∈ ds))) l) = None.
Proof.
  intros Hg. induction l as [|[g' v'] l IH]; simpl; [done|].
  destruct (decide (g' ∈ ds)) as [E|E].
  - rewrite (bool_decide_eq_true_2 _ E). by simpl.
  - rewrite (bool_decide_eq_false_2 _ E). simpl.
    rewrite decide_False; [done|]. by intros ->.
Qed.

Lemma filter_survivors m ds regs :
  obj_values (List.filter (fun kv => negb (bool_decide (kv.1 ∈ ds)))
                (map (fun reg => (reg_guid reg, observer_of m reg)) regs)) =
  map (observer_of m) (List.filter (fun reg => negb (destroyed ds reg)) regs).
Proof.
  induction regs as [|reg regs IH]; simpl; [done|].
  unfold destroyed at 1. destruct (bool_decide (reg_guid reg ∈ ds)); simpl; by rewrite IH.
Qed.

(** The frame callbacks a broadcast queues when its targets are stock. *)
Lemma frames_broadcast_stock data m :
  Forall (stock data) (getObserversToUpdate data m) ->
  frames (broadcast data m).2 =
  frames m ++ frame_callbacks (serial m) 0 (getObserversToUpdate data m) data.
Proof.
  intros Hs. destruct (getObserversToUpdate data m) as [|o os] eqn:E.
  - unfold broadcast.
    match goal with
    | |- context [getObserversToUpdate ?d ?x] =>
        rewrite (getObserversToUpdate_ext d m x eq_refl eq_refl)
    end.
    rewrite E. cbn. by rewrite app_nil_r.
  - assert (getObserversToUpdate data m <> []) as Hne by by rewrite E.
    rewrite <- E in Hs.
    destruct (broadcast_stock data m Hne Hs) as (Hsh & _).
    rewrite Hsh. cbn. by rewrite E.
Qed.

(** Nothing but [saveObserver] and the destroy handles touches the
    registry: actions, jobs and frames leave it as it is. *)
Lemma same_registry_refl m : same_registry m m.
Proof. by repeat split. Qed.

Lemma same_registry_trans m1 m2 m3 :
  same_registry m1 m2 -> same_registry m2 m3 -> same_registry m1 m3.
Proof. unfold same_registry. intuition congruence. Qed.

Lemma same_store_registry m m' : same_store m m' -> same_registry m m'.
Proof. unfold same_store, same_registry. tauto. Qed.

Lemma same_registry_by m m' : registry m' = registry m -> same_registry m m'.
Proof. unfold registry, same_registry. intros [= -> -> ->]. done. Qed.

Lemma registry_same_store m m' : same_store m m' -> registry m' = registry m.
Proof. unfold same_store, registry. intros (-> & -> & _ & -> & _). done. Qed.

Lemma registry_then p k m : registry (then_ p k m) = registry m.
Proof. apply registry_same_store, then_same_store. Qed.

Lemma registry_settle p s m : registry (settle p s m) = registry m.
Proof. apply registry_same_store, settle_same_store. Qed.

Lemma registry_slot_settled a m : registry (slot_settled a m) = registry m.
Proof. apply registry_same_store, slot_settled_same_store. Qed.

Lemma registry_allSettled a ps m : registry (allSettled a ps m) = registry m.
Proof. apply registry_same_store, allSettled_same_store. Qed.

Lemma registry_update_all n os data : forall i m,
  registry (update_all n i os data m) = registry m.
Proof.
  induction os as [|o os IH]; intros i m; simpl; [done|].
  rewrite IH. unfold observer_update. by destruct (update_behaviour o data).
Qed.

Lemma registry_broadcast data m : registry (broadcast data m).2 = registry m.
Proof.
  unfold broadcast. destruct (getObserversToUpdate _ _) as [|o os]; [done|].
  cbn [snd]. unfold resolve_with, enqueue.
  change (registry (set_microtasks ?q (set_pendingUpdates ?l ?x))) with (registry x).
  rewrite registry_then.
  change (registry (alloc ?p ?v ?x)) with (registry x).
  by rewrite registry_allSettled, registry_update_all.
Qed.

Lemma registry_update P m : registry (update deepEqual P m).2 = registry m.
Proof.
  unfold update. destruct (deepEqual _ _).
  - cbn [snd]. by rewrite registry_settle.
  - set (m1 := set_internalState _ _).
    pose proof (registry_broadcast (internalState m1) m1) as Hb.
    destruct (broadcast _ m1) as [b m2]. cbn [snd] in *.
    by rewrite registry_then, Hb.
Qed.

Lemma registry_run_job j m : registry (run_job deepEqual j m) = registry m.
Proof.
  destruct j as [[r|u|a|tok l|o|p] [v|e]|p q]; cbn [run_job];
    rewrite ?registry_settle, ?registry_then, ?registry_slot_settled; try done.
  pose proof (registry_update (partial_of v) m) as Hu.
  destruct (update _ _ _) as [u m1]. cbn [snd] in Hu.
  unfold resolve_with, enqueue.
  change (registry (set_microtasks ?q ?x)) with (registry x). exact Hu.
Qed.

Lemma registry_drain fuel : forall m, registry (drain deepEqual fuel m) = registry m.
Proof.
  induction fuel as [|fuel IH]; intros m; simpl; [done|].
  destruct (microtasks m) as [|j q] eqn:E; [done|].
  by rewrite IH, registry_run_job.
Qed.

Lemma registry_run_frame_callback fc m :
  registry (run_frame_callback fc m) = registry m.
Proof.
  unfold run_frame_callback. destruct (cb_throws _ _); [done|].
  by rewrite registry_settle.
Qed.

Lemma registry_run_frame fuel m : registry (run_frame deepEqual fuel m) = registry m.
Proof.
  unfold run_frame.
  change (registry m) with (registry (set_frames [] m)).
  generalize (set_frames [] m) as m0. generalize (frames m) as fcs.
  induction fcs as [|fc fcs IH]; intros m0; simpl; [done|].
  by rewrite IH, registry_drain, registry_run_frame_callback.
Qed.

Lemma registry_bound_action action m :
  registry (bound_action action m).2 = registry m.
Proof.
  unfold bound_action. destruct (_ || _); [done|].
  destruct (action (internalState m)); cbn [snd]; try done;
    by rewrite registry_then.
Qed.

Lemma same_registry_drain fuel m : same_registry m (drain deepEqual fuel m).
Proof. apply same_registry_by, registry_drain. Qed.

Lemma same_registry_run_frame fuel m : same_registry m (run_frame deepEqual fuel m).
Proof. apply same_registry_by, registry_run_frame. Qed.

Lemma same_registry_bound_action action m :
  same_registry m (bound_action action m).2.
Proof. apply same_registry_by, registry_bound_action. Qed.

(** C7, as the code has it.  Register N observers under distinct keys in
    an empty registry, let anything happen that leaves the registry alone
    (actions, checkpoints, frames: a broadcast may be in flight), and invoke
    destroy handles in any order and any number of times.  A broadcast
    started afterwards targets exactly the observers whose handle was not
    invoked, N - M of them in registration order, and queues frame
    callbacks for them alone; a second invocation of a handle changes
    nothing, and the destroyed keys are gone from the registry. *)
Theorem later_broadcasts_reach_the_survivors regs ds data m m' :
  let survivors :=
    map (observer_of m) (List.filter (fun reg => negb (destroyed ds reg)) regs) in
  let m'' := destroyAll ds m' in
  observers m = [] -> selection m = None ->
  Forall (accepted m) regs ->
  NoDup (map reg_guid regs) ->
  same_registry (register_all regs m) m' ->
  Forall (stock data) survivors ->
  getObserversToUpdate data m'' = survivors /\
  length survivors = length regs - length (List.filter (destroyed ds) regs) /\
  frames (broadcast data m'').2 =
    frames m' ++ frame_callbacks (serial m') 0 survivors data /\
  (forall g, destroy g (destroy g m') = destroy g m') /\
  (forall g, g ∈ ds -> obj_get g (observers m'') = None).
Proof.
  intros survivors m'' Hempty Hsel Hacc Hnd (Hp & Hs & Ho) Hstock.
  destruct (observers_register_all m regs m eq_refl Hacc) as (Hreg & Hp1 & Hs1).
  { by rewrite Hempty. }
  rewrite Hempty in Hreg. cbn [app] in Hreg.
  assert (observers m'' =
          List.filter (fun kv => negb (bool_decide (kv.1 ∈ ds)))
            (map (fun reg => (reg_guid reg, observer_of m reg)) regs)) as Ho''.
  { unfold m''. by rewrite observers_destroyAll, Ho, Hreg. }
  assert (getObserversToUpdate data m'' = survivors) as Htargets.
  { unfold getObserversToUpdate, allObservers.
    replace (selection m'') with (@None (State -> Observer -> bool)).
    - rewrite Ho''. apply filter_survivors.
    - unfold m''. rewrite destroyAll_same_but_observers. cbn. by rewrite Hs, Hs1. }
  split; [done|]. split; [|split; [|split]].
  - unfold survivors. rewrite length_map.
    pose proof (List.filter_length (destroyed ds) regs). lia.
  - rewrite frames_broadcast_stock; rewrite Htargets; [|done].
    unfold m''. rewrite destroyAll_same_but_observers. done.
  - intros g. unfold destroy. machine_eq. apply obj_delete_idemp.
  - intros g Hg. rewrite Ho''. by apply obj_get_filter_out.
Qed.


(** ** The state is written by the commit only *)

Lemma state_same_store m m' : same_store m m' -> internalState m' = internalState m.
Proof. unfold same_store. tauto. Qed.

Lemma state_update_all n os data : forall i m,
  internalState (update_all n i os data m) = internalState m.
Proof.
  induction os as [|o os IH]; intros i m; simpl; [done|].
  rewrite IH. unfold observer_update. by destruct (update_behaviour o data).
Qed.

Lemma state_broadcast data m : internalState (broadcast data m).2 = internalState m.
Proof.
  unfold broadcast. destruct (getObserversToUpdate _ _) as [|o os]; [done|].
  cbn [snd]. unfold resolve_with, enqueue.
  cbn [internalState set_microtasks set_pendingUpdates].
  rewrite (state_same_store _ _ (then_same_store _ _ _)).
  cbn [internalState alloc set_heap].
  by rewrite (state_same_store _ _ (allSettled_same_store _ _ _)), state_update_all.
Qed.

Lemma state_nextTick c m : internalState (nextTick c m) = internalState m.
Proof.
  unfold nextTick.
  rewrite (state_same_store _ _ (then_same_store _ _ _)).
  by rewrite (state_same_store _ _ (allSettled_same_store _ _ _)).
Qed.


(** * A commit and the rest of its checkpoint, for any observer classes *)

Section Inert.

Variable T : PId -> Prop.

Lemma inert_ext A pre m m' :
  microtasks m' = microtasks m -> heap m' = heap m ->
  inert T A pre m -> inert T A pre m'.
Proof.
  intros Hq Hh [Hj Hr]. split; [by rewrite Hq|].
  intros p Hp. unfold promise_of. rewrite Hh. by apply Hr.
Qed.

Lemma inert_weaken (A A' : PId -> Prop) pre m :
  (forall p, A' p -> A p) -> inert T A pre m -> inert T A' pre m.
Proof. intros HA [Hj Hr]. split; [done|]. intros p Hp. apply Hr. by apply HA. Qed.

Lemma inert_alloc A pre p v m :
  Forall (inert_kont T) (reactions v) -> inert T A pre m ->
  inert T (fun q => q = p \/ A q) pre (alloc p v m).
Proof.
  intros Hv [Hj Hr]. split; [done|]. intros q Hq.
  destruct (decide (q = p)) as [->|Hne]; [by rewrite promise_of_alloc_eq|].
  rewrite promise_of_alloc_ne by done. destruct Hq as [?|Hq]; [done|by apply Hr].
Qed.

Lemma inert_realloc A pre p v m :
  Forall (inert_kont T) (reactions v) -> inert T A pre m ->
  inert T A pre (alloc p v m).
Proof.
  intros Hv H. eapply inert_weaken; [|by apply inert_alloc].
  intros q Hq. by right.
Qed.

Lemma inert_enqueue A pre js m :
  Forall (inert_job T) js -> inert T A pre m -> inert T A pre (enqueue js m).
Proof.
  intros Hjs [(js0 & Hq & Hj0) Hr]. split; [|done].
  exists (js0 ++ js). cbn. rewrite Hq, app_assoc. split; [done|].
  apply Forall_app. by split.
Qed.

Lemma inert_settle A pre p s m :
  A p -> inert T A pre m -> inert T A pre (settle p s m).
Proof.
  intros Hp H. unfold settle. destruct (pstate (promise_of p m)) eqn:E; [|done].
  apply inert_enqueue.
  - apply List.Forall_map. destruct H as [_ Hr]. exact (Hr p Hp).
  - apply inert_realloc; [constructor|done].
Qed.

Lemma inert_then A pre p k m :
  A p -> inert_kont T k -> inert T A pre m -> inert T A pre (then_ p k m).
Proof.
  intros Hp Hk H. unfold then_. destruct (pstate (promise_of p m)) eqn:E.
  - apply inert_realloc; [|done]. cbn. apply Forall_app. split.
    + destruct H as [_ Hr]. by apply Hr.
    + by constructor.
  - apply inert_enqueue; [|done]. by repeat constructor.
Qed.

Lemma inert_slot_settled A pre a m :
  A a -> inert T A pre m -> inert T A pre (slot_settled a m).
Proof.
  intros Ha H. unfold slot_settled.
  assert (inert T A pre
            (alloc a {| pstate := pstate (promise_of a m);
                        reactions := reactions (promise_of a m);
                        remaining := pred (remaining (promise_of a m)) |} m)) as H1.
  { apply inert_realloc; [|done]. destruct H as [_ Hr]. by apply Hr. }
  destruct (Nat.eqb _ _); [|done]. by apply inert_settle.
Qed.

Lemma inert_observer_update A pre o d data m :
  inert T A pre m ->
  inert T (fun q => q = d \/ A q) pre (observer_update o d data m).
Proof.
  intros H. unfold observer_update. destruct (update_behaviour o data).
  - eapply inert_ext; [| |apply (inert_alloc A pre d pending_promise m); [constructor|done]];
      reflexivity.
  - apply inert_alloc; [constructor|done].
  - apply inert_alloc; [constructor|done].
Qed.

Lemma inert_update_all n os data : forall i A pre m,
  inert T A pre m ->
  inert T (fun q => A q \/ exists j, i <= j < i + length os /\ q = PDelivery n j)
    pre (update_all n i os data m).
Proof.
  induction os as [|o os IH]; intros i A pre m H; cbn [update_all length].
  - eapply inert_weaken; [|exact H]. intros q [Hq|(j & Hj & _)]; [done|lia].
  - eapply inert_weaken; [|apply IH, inert_observer_update, H].
    intros q [Hq|(j & Hj & ->)].
    + left. by right.
    + destruct (decide (j = i)) as [->|Hne]; [left; by left|].
      right. exists j. split; [lia|done].
Qed.

Lemma inert_fold_then A pre k ps : forall m,
  (forall d, d ∈ ps -> A d) -> inert_kont T k -> inert T A pre m ->
  inert T A pre (fold_left (fun acc d => then_ d k acc) ps m).
Proof.
  induction ps as [|d ps IH]; intros m Hps Hk H; cbn [fold_left]; [done|].
  apply IH; [|done|].
  - intros d' Hd'. apply Hps. by right.
  - apply inert_then; [|done|done]. apply Hps. by left.
Qed.

Lemma inert_allSettled A pre a ps m :
  T a -> (forall d, d ∈ ps -> A d) -> inert T A pre m ->
  inert T (fun q => q = a \/ A q) pre (allSettled a ps m).
Proof.
  intros Ha Hps H. unfold allSettled.
  assert (inert T (fun q => q = a \/ A q) pre
            (fold_left (fun acc d => then_ d (KSlot a) acc) ps
               (alloc a {| pstate := Pending; reactions := [];
                           remaining := length ps |} m))) as H1.
  { apply inert_fold_then; [|done|].
    - intros d Hd. right. by apply Hps.
    - apply inert_alloc; [constructor|done]. }
  destruct ps; [|done]. apply inert_settle; [by left|done].
Qed.

Lemma inert_broadcast A pre data m :
  let n := serial m in
  let os := getObserversToUpdate data m in
  T (PBroadcast n) ->
  (length os = 0 -> T (PEmpty n)) ->
  (0 < length os -> T (PSettled n) /\ T (PLedger n) /\
                    forall j, j < length os -> T (PDelivery n j)) ->
  inert T A pre m ->
  inert T (fun q => A q \/ q = PBroadcast n \/
                    (length os = 0 /\ q = PEmpty n) \/
                    (0 < length os /\
                     (q = PSettled n \/ q = PLedger n \/
                      exists j, j < length os /\ q = PDelivery n j)))
    pre (broadcast data m).2.
Proof.
  intros n os Hb He Hne H. unfold broadcast. fold n.
  set (m0 := set_serial (S n) (alloc (PBroadcast n) pending_promise m)).
  assert (getObserversToUpdate data m0 = os) as -> by by apply getObserversToUpdate_ext.
  assert (inert T (fun q => q = PBroadcast n \/ A q) pre m0) as H0.
  { eapply inert_ext; [| |apply (inert_alloc A pre (PBroadcast n) pending_promise m);
                          [constructor|done]]; reflexivity. }
  destruct os as [|o os'] eqn:Eos; cbn [snd].
  - unfold resolve_with. apply inert_enqueue.
    { repeat constructor; [done|]. by apply He. }
    eapply inert_weaken; [|apply inert_alloc; [|exact H0]]; [|constructor].
    intros q Hq. cbn [length] in Hq.
    destruct Hq as [Hq|[->|[[_ ->]|[Hlt _]]]]; [tauto|tauto|tauto|lia].
  - rewrite <- Eos in *.
    assert (0 < length os) as Hlen by (rewrite Eos; cbn; lia).
    destruct (Hne Hlen) as (Hs & Hl & Hd).
    unfold resolve_with. apply inert_enqueue; [by repeat constructor|].
    eapply inert_ext; [reflexivity|reflexivity|].
    apply inert_then; [tauto|done|].
    eapply inert_weaken; last first.
    { apply inert_alloc; [constructor|].
      apply inert_allSettled; [done| |apply inert_update_all, H0].
      intros d (j & Hj & ->)%elem_of_delivery_ids. right. exists j. split; [lia|done]. }
    intros q Hq. cbn beta.
    destruct Hq as [Hq|[->|[[H0' _]|[_ [->|[->|(j & Hj & ->)]]]]]]; try tauto; [lia|].
    right. right. right. exists j. split; [lia|done].
Qed.

Lemma same_but_ledger_refl m : same_but_ledger m m.
Proof. by repeat split. Qed.

Lemma same_but_ledger_trans m1 m2 m3 :
  same_but_ledger m1 m2 -> same_but_ledger m2 m3 -> same_but_ledger m1 m3.
Proof. unfold same_but_ledger. intuition congruence. Qed.

Lemma same_store_but_ledger m m' : same_store m m' -> same_but_ledger m m'.
Proof. unfold same_store, same_but_ledger. tauto. Qed.

(** An inert job leaves the state, the registry, the frame queue and the
    record of calls alone, and the jobs it queues are inert. *)
Lemma inert_run_job j q m :
  inert T T [] m -> microtasks m = j :: q ->
  inert T T [] (run_job deepEqual j (set_microtasks q m)) /\
  same_but_ledger m (run_job deepEqual j (set_microtasks q m)).
Proof.
  intros [(js & Hq & Hjs) Hr] Hm. cbn [app] in Hq. rewrite Hm in Hq. subst js.
  apply Forall_cons in Hjs as [Hj Hjs].
  assert (inert T T [] (set_microtasks q m)) as H0.
  { split; [by exists q|]. exact Hr. }
  assert (same_but_ledger m (set_microtasks q m)) as S0 by by repeat split.
  destruct j as [[r|u|a|tok l|o|p] [v|e]|p p']; cbn [run_job inert_job inert_kont] in *;
    try done.
  - split; [by apply inert_settle|].
    eapply same_but_ledger_trans; [exact S0|apply same_store_but_ledger, settle_same_store].
  - split; [by apply inert_settle|].
    eapply same_but_ledger_trans; [exact S0|apply same_store_but_ledger, settle_same_store].
  - split; [by apply inert_slot_settled|].
    eapply same_but_ledger_trans; [exact S0|apply same_store_but_ledger, slot_settled_same_store].
  - split; [by apply inert_slot_settled|].
    eapply same_but_ledger_trans; [exact S0|apply same_store_but_ledger, slot_settled_same_store].
  - split.
    + apply inert_settle; [done|]. eapply inert_ext; [| |exact H0]; reflexivity.
    + eapply same_but_ledger_trans; [|apply same_store_but_ledger, settle_same_store].
      by repeat split.
  - split; [by apply inert_settle|].
    eapply same_but_ledger_trans; [exact S0|apply same_store_but_ledger, settle_same_store].
  - split; [by apply inert_settle|].
    eapply same_but_ledger_trans; [exact S0|apply same_store_but_ledger, settle_same_store].
  - split; [by apply inert_settle|].
    eapply same_but_ledger_trans; [exact S0|apply same_store_but_ledger, settle_same_store].
  - destruct Hj as [Hp Hp']. split; [by apply inert_then|].
    eapply same_but_ledger_trans; [exact S0|apply same_store_but_ledger, then_same_store].
Qed.

(** So is the rest of the checkpoint. *)
Lemma inert_drain fuel : forall m,
  inert T T [] m ->
  inert T T [] (drain deepEqual fuel m) /\ same_but_ledger m (drain deepEqual fuel m).
Proof.
  induction fuel as [|fuel IH]; intros m H; cbn [drain].
  - split; [done|apply same_but_ledger_refl].
  - destruct (microtasks m) as [|j q] eqn:E; [split; [done|apply same_but_ledger_refl]|].
    destruct (inert_run_job j q m H E) as [H1 S1].
    destruct (IH _ H1) as [H2 S2]. split; [done|].
    by eapply same_but_ledger_trans.
Qed.

End Inert.

Lemma frames_same_store m m' : same_store m m' -> frames m' = frames m.
Proof. unfold same_store. tauto. Qed.

Lemma frames_update_all n os data : forall i m,
  frames (update_all n i os data m) = frames m ++ queued_callbacks n i os data.
Proof.
  induction os as [|o os IH]; intros i m; cbn [update_all queued_callbacks].
  - by rewrite app_nil_r.
  - rewrite IH. unfold observer_update, delegates.
    destruct (update_behaviour o data); cbn; [by rewrite <- app_assoc|done|done].
Qed.

(** What a broadcast queues for the next frame. *)
Lemma frames_broadcast data m :
  frames (broadcast data m).2 =
  frames m ++ queued_callbacks (serial m) 0 (getObserversToUpdate data m) data.
Proof.
  unfold broadcast.
  set (m0 := set_serial _ _).
  rewrite (getObserversToUpdate_ext data m m0 eq_refl eq_refl).
  destruct (getObserversToUpdate data m) as [|o os] eqn:E.
  - cbn. by rewrite app_nil_r.
  - cbn [snd]. unfold resolve_with, enqueue.
    cbn [frames set_microtasks set_pendingUpdates].
    rewrite (frames_same_store _ _ (then_same_store _ _ _)).
    cbn [frames alloc set_heap].
    by rewrite (frames_same_store _ _ (allSettled_same_store _ _ _)), frames_update_all.
Qed.

Lemma queued_callbacks_stock n os data : forall i,
  Forall (stock data) os -> queued_callbacks n i os data = frame_callbacks n i os data.
Proof.
  induction os as [|o os IH]; intros i Hs; cbn [queued_callbacks frame_callbacks]; [done|].
  apply Forall_cons in Hs as [Ho Hs]. unfold delegates. rewrite Ho. cbn. by rewrite IH.
Qed.

Lemma delivery_of_queued_callbacks n os data : forall i,
  map delivery_of (queued_callbacks n i os data) =
  map (delivered FromFrame data) (List.filter (delegates data) os).
Proof.
  induction os as [|o os IH]; intros i; cbn [queued_callbacks List.filter]; [done|].
  rewrite map_app, IH. by destruct (delegates data o).
Qed.

Lemma filter_delegates_stock os data :
  Forall (stock data) os -> List.filter (delegates data) os = os.
Proof.
  induction os as [|o os IH]; intros Hs; cbn [List.filter]; [done|].
  apply Forall_cons in Hs as [Ho Hs]. unfold delegates at 1. rewrite Ho. by rewrite IH.
Qed.

(** The commit job of a changing update, whatever the classes of the
    observers: the merged state is committed, the frame callbacks of the
    stock targets are queued, nobody is called, and what is left to run in
    the checkpoint is inert. *)
Lemma commit_job r P pre X :
  let data := merge (internalState X) P in
  let os := getObserversToUpdate data X in
  let T := commit_promise r (serial X) (length os) in
  let Y := run_job deepEqual (JReaction (KUpdate r) (Fulfilled (PvPartial P))) X in
  microtasks X = pre ->
  deepEqual data (internalState X) = false ->
  reactions (promise_of r X) = [] ->
  inert T T pre Y /\ internalState Y = data /\ calls Y = calls X /\
  registry Y = registry X /\
  frames Y = frames X ++ queued_callbacks (serial X + 1) 0 os data.
Proof.
  intros data os T Y Hq Hneq Hr.
  assert (inert T (fun q => q = r) pre X) as H0.
  { split; [exists []; by rewrite app_nil_r|]. intros p ->. by rewrite Hr. }
  subst Y. cbn [run_job partial_of]. unfold update.
  cbn [internalState set_serial alloc set_heap serial]. fold data. rewrite Hneq.
  set (su := serial X) in *.
  set (m1 := set_internalState data _).
  change (internalState m1) with data.
  assert (getObserversToUpdate data m1 = os) as Hos by by apply getObserversToUpdate_ext.
  assert (inert T (fun q => q = PUpdate su \/ q = r) pre m1) as H1.
  { eapply inert_ext; [| |apply (inert_alloc T _ pre (PUpdate su) pending_promise X);
                          [constructor|exact H0]]; reflexivity. }
  pose proof (inert_broadcast T (fun q => q = PUpdate su \/ q = r) pre data m1) as Hb.
  cbv zeta in Hb.
  rewrite Hos in Hb. change (serial m1) with (S su) in Hb.
  pose proof (fst_broadcast data m1) as Hfst.
  pose proof (state_broadcast data m1) as Hst.
  pose proof (calls_broadcast data m1) as Hca.
  pose proof (registry_broadcast data m1) as Hre.
  pose proof (frames_broadcast data m1) as Hfr. rewrite Hos in Hfr.
  destruct (broadcast data m1) as [b m2]. cbn [fst snd] in *. subst b.
  change (serial m1) with (S su) in *.
  assert (T (PUpdate su)) as Tu by (right; by left).
  assert (T r) as Tr by by left.
  assert (T (PBroadcast (S su))) as Tb by (right; right; by left).
  specialize (Hb Tb).
  split; [|split; [|split; [|split]]].
  - unfold resolve_with. apply inert_enqueue; [by repeat constructor|].
    apply inert_then; [done|done|].
    eapply inert_weaken; [|apply Hb; [| |exact H1]].
    + intros q Hq'. unfold T, commit_promise in Hq'. fold su in Hq'. tauto.
    + intros Hl. right. right. right. left. by split.
    + intros Hl. split; [|split].
      * right. right. right. right. split; [done|]. by left.
      * right. right. right. right. split; [done|]. right. by left.
      * intros j Hj. right. right. right. right. split; [done|]. right. right. by exists j.
  - unfold resolve_with. cbn [internalState enqueue set_microtasks].
    rewrite (state_same_store _ _ (then_same_store _ _ _)). by rewrite Hst.
  - unfold resolve_with. cbn [calls enqueue set_microtasks].
    rewrite (calls_same_store _ _ (then_same_store _ _ _)). by rewrite Hca.
  - unfold resolve_with.
    change (registry (enqueue ?j ?x)) with (registry x).
    rewrite registry_then. by rewrite Hre.
  - unfold resolve_with. cbn [frames enqueue set_microtasks].
    rewrite (frames_same_store _ _ (then_same_store _ _ _)). rewrite Hfr.
    cbn. by replace (su + 1) with (S su) by lia.
Qed.

(** A changing action from its call to the end of the checkpoint. *)
Lemma commit_checkpoint action P m k :
  let data := merge (internalState m) P in
  let os := getObserversToUpdate data m in
  let M := drain deepEqual (1 + k) (bound_action action m).2 in
  microtasks m = [] ->
  action (internalState m) = RObject P ->
  deepEqual data (internalState m) = false ->
  internalState M = data /\ calls M = calls m /\ registry M = registry m /\
  frames M = frames m ++ queued_callbacks (serial m + 2) 0 os data.
Proof.
  intros data os M Hq Hact Hneq. subst M.
  rewrite (bound_action_object _ _ _ Hact). cbn [snd]. rewrite Hq. cbn [app].
  change (1 + k) with (S k). erewrite drain_step; last by cbn.
  set (X := set_microtasks [] _).
  destruct (commit_job (PAsync (serial m)) P [] X) as (Hin & Hi & Hc & Hre & Hf).
  - done.
  - exact Hneq.
  - unfold X. by lookup.
  - cbv zeta in Hin.
    destruct (inert_drain _ k _ Hin) as [_ (_ & _ & Hi' & Ho' & Hf' & Hc' & _)].
    split; [by rewrite Hi', Hi|]. split; [by rewrite Hc', Hc|].
    split.
    + rewrite registry_drain. by rewrite Hre.
    + rewrite Hf', Hf. change (internalState X) with (internalState m). fold data.
      rewrite (getObserversToUpdate_ext data m X eq_refl eq_refl).
      change (frames X) with (frames m). change (serial X) with (S (serial m)).
      by replace (S (serial m) + 1) with (serial m + 2) by lia.
Qed.

(** * Subscriptions with immediate delivery *)



(** C1, as the code has it.  When the merge of the partial over the state
    is not deeply equal to the state, the commit step leaves exactly the
    shallow merge as the state of the store (a field of the partial wins,
    any other field is kept) and calls nobody.  Of the observers that are
    registered at that moment and that the selection step accepts, each
    one whose [update] is the stock one gets exactly one frame callback
    queued, the others none; the next frame calls each of the former
    exactly once from a frame callback, with the merged state.  Calls made
    by the continuation of a barrier are not among these. *)
Theorem changed_update_commits_and_delivers_once action P m k fuel :
  let data := merge (internalState m) P in
  let os := getObserversToUpdate data m in
  let M := drain deepEqual (1 + k) (bound_action action m).2 in
  microtasks m = [] ->
  action (internalState m) = RObject P ->
  deepEqual data (internalState m) = false ->
  internalState M = data /\
  (forall f v, P !! f = Some v -> internalState M !! f = Some v) /\
  (forall f, P !! f = None -> internalState M !! f = internalState m !! f) /\
  calls M = calls m /\
  frames M = frames m ++ queued_callbacks (serial m + 2) 0 os data /\
  frame_calls (calls (run_frame deepEqual fuel M)) =
    frame_calls (calls m) ++ map delivery_of (frames m)
    ++ map (delivered FromFrame data) (List.filter (delegates data) os) /\
  (Forall (stock data) os ->
   frames M = frames m ++ frame_callbacks (serial m + 2) 0 os data /\
   frame_calls (calls (run_frame deepEqual fuel M)) =
     frame_calls (calls m) ++ map delivery_of (frames m)
     ++ map (delivered FromFrame data) os).
Proof.
  intros data os M Hq Hact Hneq.
  destruct (commit_checkpoint action P m k Hq Hact Hneq) as (Hi & Hc & _ & Hf).
  fold data os M in Hi, Hc, Hf.
  assert (frame_calls (calls (run_frame deepEqual fuel M)) =
          frame_calls (calls m) ++ map delivery_of (frames m)
          ++ map (delivered FromFrame data) (List.filter (delegates data) os)) as Hrun.
  { rewrite frame_calls_run_frame, Hc, Hf, map_app.
    by rewrite delivery_of_queued_callbacks. }
  split; [exact Hi|]. rewrite Hi.
  split; [intros f v; apply lookup_merge_present|].
  split; [intros f; apply lookup_merge_absent|].
  split; [exact Hc|]. split; [exact Hf|]. split; [exact Hrun|].
  intros Hstock. split.
  - rewrite Hf. by rewrite queued_callbacks_stock.
  - rewrite Hrun. by rewrite filter_delegates_stock.
Qed.

End Proofs.

Example ex_merge : merge ex_state ex_partial = ex_merged.
Proof. vm_compute. reflexivity. Qed.

Example ex_run :
  let M1 := drain strict_deepEqual 10 (bound_action set_count ex_two).2 in
  let M2 := run_frame strict_deepEqual 10 M1 in
  pendingUpdates M1 = [(2, PLedger 2)] /\ calls M1 = [] /\
  calls M2 = [call FromFrame 1 ex_merged; call FromFrame 2 ex_merged] /\
  pendingUpdates M2 = [] /\ internalState M2 = ex_merged.
Proof. cbv zeta. repeat (split; [vm_compute; reflexivity|]). vm_compute. reflexivity. Qed.

(** C3: the code at the failing input.  The first of two subscribers
    throws.  The second one is still called with the merged state, but the
    delivery promise of the first never settles, so the aggregate stays
    pending, the ledger keeps the entry and the action never settles, with
    no job or frame callback left to change that; a later subscription
    with immediate delivery is then never served. *)
Theorem throwing_callback_stalls_the_broadcast :
  let M1 := drain strict_deepEqual 20 (bound_action set_count ex_bad).2 in
  let M2 := run_frame strict_deepEqual 20 M1 in
  let M3 := run_frame strict_deepEqual 20
              (drain strict_deepEqual 20
                 (observe "g3" (quiet_cb 3) PropsUndefined true M2).2) in
  calls M2 = [call FromFrame 1 ex_merged; call FromFrame 2 ex_merged] /\
  microtasks M2 = [] /\ frames M2 = [] /\
  pendingUpdates M2 = [(2, PLedger 2)] /\
  pstate (promise_of (PDelivery 2 0) M2) = Pending /\
  pstate (promise_of (PSettled 2) M2) = Pending /\
  pstate (promise_of (PLedger 2) M2) = Pending /\
  pstate (promise_of (PAsync 0) M2) = Pending /\
  calls M3 = calls M2 /\ microtasks M3 = [] /\ frames M3 = [].
Proof. cbv zeta. repeat (split; [vm_compute; reflexivity|]). vm_compute. reflexivity. Qed.

Example rejected_delivery_is_tolerated :
  let M1 := drain strict_deepEqual 20 (bound_action set_count ex_rejecting).2 in
  let M2 := run_frame strict_deepEqual 20 M1 in
  pendingUpdates M1 = [(2, PLedger 2)] /\
  calls M2 = [call FromFrame 2 ex_merged] /\
  pendingUpdates M2 = [] /\
  pstate (promise_of (PSettled 2) M2) = Done (Fulfilled PvResults) /\
  pstate (promise_of (PAsync 0) M2) = Done (Fulfilled (PvBool true)).
Proof. cbv zeta. repeat (split; [vm_compute; reflexivity|]). vm_compute. reflexivity. Qed.

Lemma changed_update_commits_and_delivers_once_witness :
  let M := drain strict_deepEqual 6 (bound_action set_count ex_two).2 in
  let R := drain strict_deepEqual 9 (bound_action set_count ex_rejecting).2 in
  (internalState M = merge ex_state ex_partial /\ calls M = [] /\
   frame_calls (calls (run_frame strict_deepEqual 5 M)) =
     [call FromFrame 1 ex_merged; call FromFrame 2 ex_merged]) /\
  (internalState R = merge ex_state ex_partial /\
   frame_calls (calls (run_frame strict_deepEqual 5 R)) = [call FromFrame 2 ex_merged]).
Proof.
  destruct (changed_update_commits_and_delivers_once strict_deepEqual
              set_count ex_partial ex_two 5 5) as (H1 & _ & _ & H4 & _ & _ & H7).
  { reflexivity. }
  { reflexivity. }
  { vm_compute. reflexivity. }
  destruct H7 as [_ H8].
  { apply all_stock_Forall. vm_compute. reflexivity. }
  destruct (changed_update_commits_and_delivers_once strict_deepEqual
              set_count ex_partial ex_rejecting 8 5) as (R1 & _ & _ & _ & _ & R6 & _).
  { reflexivity. }
  { reflexivity. }
  { vm_compute. reflexivity. }
  split.
  - split; [exact H1|]. split; [exact H4|].
    refine (eq_trans H8 _). vm_compute. reflexivity.
  - split; [exact R1|]. refine (eq_trans R6 _). vm_compute. reflexivity.
Defined.

(** C1 as stated fails: an observer that is registered and selected when
    the broadcast starts can be given the merged state twice.  A broadcast
    is in flight when [g3] subscribes with immediate delivery, so its
    barrier waits; then an action commits [ex_three].  In the next frame
    the barrier continuation calls the new callback with [ex_three], and
    the frame callback of the second broadcast calls it with [ex_three]
    again. *)
Lemma targeted_observer_is_called_twice_with_the_merged_state :
  let M1 := drain strict_deepEqual 50 (bound_action set_count ex_two).2 in
  let m := (observe "g3" (quiet_cb 3) PropsUndefined true M1).2 in
  let data := merge (internalState m) {[ "count" := VNum 3 ]} in
  let M := drain strict_deepEqual 50 (bound_action (add_to_count 1) m).2 in
  let F := run_frame strict_deepEqual 50 M in
  (microtasks m = [] /\
   add_to_count 1 (internalState m) = RObject {[ "count" := VNum 3 ]} /\
   strict_deepEqual data (internalState m) = false) /\
  getObserversToUpdate data m =
    [stock_observer 1 PropsUndefined; stock_observer 2 PropsNull;
     stock_observer 3 PropsUndefined] /\
  internalState M = data /\ data = ex_three /\
  calls F = [call FromFrame 1 ex_merged; call FromFrame 2 ex_merged;
             call FromBarrier 3 ex_three; call FromFrame 1 ex_three;
             call FromFrame 2 ex_three; call FromFrame 3 ex_three] /\
  microtasks F = [] /\ frames F = [] /\ pendingUpdates F = [] /\
  List.filter (fun i => Nat.eqb (inv_callback i) 3) (calls F) =
    [call FromBarrier 3 ex_three; call FromFrame 3 ex_three].
Proof.
  cbv zeta.
  split; [split; [vm_compute; reflexivity|split; vm_compute; reflexivity]|].
  repeat (split; [vm_compute; reflexivity|]). vm_compute. reflexivity.
Qed.


Lemma unchanged_update_settles_false_witness :
  let M := drain strict_deepEqual 3 (bound_action keep_count ex_two).2 in
  pstate (promise_of (PAsync 0) M) = Done (Fulfilled (PvBool false)) /\
  internalState M = ex_state /\ pendingUpdates M = [] /\ frames M = [] /\
  calls M = [].
Proof.
  destruct (unchanged_update_settles_false strict_deepEqual keep_count ex_same ex_two 0)
    as (_ & H2 & H3 & H4 & _ & _ & H7 & H8).
  - reflexivity.
  - reflexivity.
  - vm_compute. reflexivity.
  - exact (conj H2 (conj H3 (conj H4 (conj H7 H8)))).
Defined.

Lemma bad_result_throws_synchronously_witness :
  bound_action return_null ex_two = (Throw action_error, ex_two).
Proof. apply (bad_result_throws_synchronously return_null ex_two). reflexivity. Defined.

(** C4 as stated fails: the bound action returns no settlement at all. *)
Lemma null_result_returns_no_settlement :
  ~ exists r m', bound_action return_null ex_two = (Normal r, m').
Proof. intros (r & m' & H). vm_compute in H. discriminate H. Qed.

Lemma settles_true_after_the_deliveries_witness :
  let M1 := drain strict_deepEqual 3 (bound_action set_count ex_two).2 in
  let M2 := run_frame strict_deepEqual 5 M1 in
  pstate (promise_of (PAsync 0) M1) = Pending /\
  obj_get 2 (pendingUpdates M1) = Some (PLedger 2) /\
  pstate (promise_of (PAsync 0) M2) = Done (Fulfilled (PvBool true)) /\
  obj_get 2 (pendingUpdates M2) = None.
Proof.
  destruct (settles_true_after_the_deliveries strict_deepEqual
              set_count ex_partial ex_two 0 0)
    as (_ & (_ & _ & _ & H1 & _ & H2) & (_ & _ & _ & _ & H3 & H4)).
  - reflexivity.
  - reflexivity.
  - reflexivity.
  - vm_compute. reflexivity.
  - vm_compute. discriminate.
  - apply all_stock_Forall. vm_compute. reflexivity.
  - apply all_quiet_Forall. vm_compute. reflexivity.
  - exact (conj H2 (conj H1 (conj H4 H3))).
Defined.

(** C5 as stated fails: the broadcast has been started and no job is
    left, yet the settlement of the action is not [true]. *)
Lemma broadcast_started_and_action_still_pending :
  let M1 := drain strict_deepEqual 50 (bound_action set_count ex_two).2 in
  internalState M1 = ex_merged /\
  pendingUpdates M1 = [(2, PLedger 2)] /\
  length (frames M1) = 2 /\
  microtasks M1 = [] /\
  pstate (promise_of (PAsync 0) M1) <> Done (Fulfilled (PvBool true)).
Proof.
  cbv zeta. repeat (split; [vm_compute; reflexivity|]).
  vm_compute. discriminate.
Qed.



Lemma later_broadcasts_reach_the_survivors_witness :
  let m' := drain strict_deepEqual 3 (bound_action set_count ex_two).2 in
  let m'' := destroyAll ["g1"; "g1"] m' in
  length (getObserversToUpdate ex_same m'') = 1 /\
  frames (broadcast ex_same m'').2 =
    frames m' ++ [{| fc_observer := {| callback := quiet_cb 2; params := PropsNull;
                                     obs_class := None |};
                     fc_data := ex_same; fc_promise := PDelivery 3 0 |}].
Proof.
  destruct (later_broadcasts_reach_the_survivors ex_regs ["g1"; "g1"]
              ex_same ex_store
              (drain strict_deepEqual 3 (bound_action set_count ex_two).2))
    as (H1 & _ & H3 & _).
  - reflexivity.
  - reflexivity.
  - repeat constructor.
  - apply NoDup_cons. split; [|apply NoDup_singleton].
    intros H%list_elem_of_singleton. discriminate H.
  - apply same_registry_by. vm_compute. reflexivity.
  - apply all_stock_Forall. vm_compute. reflexivity.
  - split; [refine (eq_trans (f_equal length H1) _); vm_compute; reflexivity|].
    refine (eq_trans H3 _). vm_compute. reflexivity.
Defined.

(** C7 as stated fails: a handle invoked (twice) while a broadcast is in
    flight removes the observer from the registry, and the frame still
    calls it. *)
Lemma destroyed_observer_still_called :
  let m' := drain strict_deepEqual 50 (bound_action set_count ex_two).2 in
  let m'' := destroy "g1" (destroy "g1" m') in
  let M := run_frame strict_deepEqual 50 m'' in
  calls m'' = [] /\
  obj_get "g1" (observers m'') = None /\
  calls M = [call FromFrame 1 ex_merged; call FromFrame 2 ex_merged].
Proof. cbv zeta. repeat (split; [vm_compute; reflexivity|]). vm_compute. reflexivity. Qed.

Lemma observe_without_props_throws_witness :
  observe "g1" (quiet_cb 1) PropsUndefined true ex_required =
    (Throw props_error, ex_required) /\
  observers (observe "g1" (quiet_cb 1) PropsUndefined true ex_required).2 = [].
Proof.
  destruct (observe_without_props_throws "g1" (quiet_cb 1) true ex_required)
    as (_ & _ & _ & H4 & H5).
  - reflexivity.
  - split; [exact H4 | exact H5].
Defined.

Lemma only_undefined_props_are_refused_witness :
  obj_get "g1" (observers (observe "g1" (quiet_cb 1) PropsNull true ex_required).2) =
  Some {| callback := quiet_cb 1; params := PropsNull; obs_class := None |}.
Proof.
  destruct (only_undefined_props_are_refused "g1" (quiet_cb 1) PropsNull true ex_required)
    as (_ & H).
  - reflexivity.
  - destruct H as (_ & _ & H); [discriminate|]. exact H.
Defined.


(** * Further properties of the two classes *)

Section More.

Variable deepEqual : State -> State -> bool.

Ltac lookup :=
  unfold promise_of, alloc, enqueue, record_call;
  cbn [heap set_heap set_microtasks set_calls set_frames set_pendingUpdates
       set_serial set_internalState set_observers];
  repeat first [rewrite hget_hset_eq | rewrite hget_hset_ne by done].

Ltac run_one :=
  erewrite drain_step; last (by cbn); cbn [run_job].

(** The commit job of an action, alone in the queue, when the update
    changes the state and has stock targets: the three jobs of the
    checkpoint leave the broadcast in flight. *)
Lemma commit_in_flight n P ma k :
  let s := serial ma in
  let data := merge (internalState ma) P in
  let os := getObserversToUpdate data ma in
  let M := drain deepEqual (3 + k) ma in
  microtasks ma = [JReaction (KUpdate (PAsync n)) (Fulfilled (PvPartial P))] ->
  deepEqual data (internalState ma) = false ->
  os <> [] -> Forall (stock data) os ->
  M = set_internalState data
        (set_pendingUpdates (obj_set (S s) (PLedger (S s)) (pendingUpdates ma))
           (set_frames (frames ma ++ frame_callbacks (S s) 0 os data)
              (set_serial (S (S s)) (set_microtasks [] (set_heap (heap M) ma))))) /\
  promise_of (PUpdate s) M =
    {| pstate := Pending; reactions := [KForward (PAsync n)]; remaining := 0 |} /\
  promise_of (PBroadcast (S s)) M =
    {| pstate := Pending; reactions := [KAwait (PUpdate s)]; remaining := 0 |} /\
  promise_of (PLedger (S s)) M =
    {| pstate := Pending; reactions := [KForward (PBroadcast (S s))]; remaining := 0 |} /\
  promise_of (PSettled (S s)) M =
    {| pstate := Pending; reactions := [KDelete (S s) (PLedger (S s))];
       remaining := length os |} /\
  (forall j, j < length os ->
     promise_of (PDelivery (S s) j) M =
     {| pstate := Pending; reactions := [KSlot (PSettled (S s))]; remaining := 0 |}) /\
  (forall p, p <> PUpdate s -> p <> PBroadcast (S s) -> p <> PLedger (S s) ->
     p <> PSettled (S s) -> (forall j, p <> PDelivery (S s) j) ->
     promise_of p M = promise_of p ma).
Proof.
  intros s data os M Hq Hneq Hne Hs. subst M.
  replace (3 + k) with (S (S (S k))) by lia.
  erewrite drain_step; last exact Hq.
  cbn [run_job partial_of].
  set (m0 := set_microtasks [] ma).
  pose proof (update_stock deepEqual P m0) as Hu. cbv zeta in Hu.
  change (internalState m0) with (internalState ma) in Hu. fold data in Hu.
  rewrite (getObserversToUpdate_ext data ma m0 eq_refl eq_refl) in Hu. fold os in Hu.
  specialize (Hu Hneq Hne Hs).
  change (serial m0) with s in Hu.
  destruct (update deepEqual P m0) as [u m1]. cbn [fst snd] in Hu.
  destruct Hu as (-> & Hsh & Hu & Hb & HL & HA & Hd & Hout).
  unfold resolve_with, enqueue.
  erewrite drain_step; last first.
  { cbn [microtasks set_microtasks]. rewrite Hsh. by cbn. }
  cbn [run_job].
  erewrite then_at; last by (lookup; exact HL).
  erewrite drain_step; last by cbn.
  cbn [run_job].
  erewrite then_at; last by (lookup; exact Hu).
  rewrite drain_idle by reflexivity.
  split; [machine_eq; rewrite Hsh; by cbn|].
  split; [by lookup|].
  split; [lookup; exact Hb|].
  split; [by lookup|].
  split; [lookup; exact HA|].
  split; [intros j Hj; lookup; by apply Hd|].
  intros p H1 H2 H3 H4 H5. lookup. by apply Hout.
Qed.

(** The reactions that follow the aggregate of a broadcast, for any names
    of the promises of the call chain; the other promises are not touched. *)
Lemma completion_chain_any fuel tok su n h m :
  hget (PLedger tok) h =
    {| pstate := Pending; reactions := [KForward (PBroadcast tok)]; remaining := 0 |} ->
  hget (PBroadcast tok) h =
    {| pstate := Pending; reactions := [KAwait (PUpdate su)]; remaining := 0 |} ->
  hget (PUpdate su) h =
    {| pstate := Pending; reactions := [KForward (PAsync n)]; remaining := 0 |} ->
  hget (PAsync n) h = pending_promise ->
  let M := drain deepEqual (4 + fuel)
             (set_microtasks
                [JReaction (KDelete tok (PLedger tok)) (Fulfilled PvResults)]
                (set_heap h m)) in
  M = set_pendingUpdates (obj_delete tok (pendingUpdates m))
        (set_microtasks [] (set_heap (heap M) m)) /\
  pstate (promise_of (PAsync n) M) = Done (Fulfilled (PvBool true)) /\
  (forall p, p <> PLedger tok -> p <> PBroadcast tok -> p <> PUpdate su ->
     p <> PAsync n -> promise_of p M = hget p h).
Proof.
  intros HL Hb Hu Hr. cbv zeta.
  replace (4 + fuel) with (S (S (S (S fuel)))) by lia.
  run_one.
  erewrite settle_at; last by (lookup; exact HL).
  cbn [map]. run_one.
  erewrite settle_at; last by (lookup; exact Hb).
  cbn [map]. run_one.
  erewrite settle_at; last by (lookup; exact Hu).
  cbn [map]. run_one.
  erewrite settle_at; last by (lookup; exact Hr).
  cbn [map]. rewrite drain_idle by reflexivity.
  split; [by machine_eq|]. split; [by lookup|].
  intros p H1 H2 H3 H4. by lookup.
Qed.

(** One frame lands a broadcast in flight: every target is called, the
    ledger entry is deleted and the action that started it settles. *)
Lemma flight_lands n tok su os data M fuel :
  microtasks M = [] ->
  frames M = frame_callbacks tok 0 os data ->
  os <> [] -> Forall (quiet data) os ->
  promise_of (PAsync n) M = pending_promise ->
  promise_of (PUpdate su) M =
    {| pstate := Pending; reactions := [KForward (PAsync n)]; remaining := 0 |} ->
  promise_of (PBroadcast tok) M =
    {| pstate := Pending; reactions := [KAwait (PUpdate su)]; remaining := 0 |} ->
  promise_of (PLedger tok) M =
    {| pstate := Pending; reactions := [KForward (PBroadcast tok)]; remaining := 0 |} ->
  promise_of (PSettled tok) M =
    {| pstate := Pending; reactions := [KDelete tok (PLedger tok)];
       remaining := length os |} ->
  (forall j, j < length os ->
     promise_of (PDelivery tok j) M =
     {| pstate := Pending; reactions := [KSlot (PSettled tok)]; remaining := 0 |}) ->
  let F := run_frame deepEqual (5 + fuel) M in
  F = set_calls (calls M ++ map (delivered FromFrame data) os)
        (set_pendingUpdates (obj_delete tok (pendingUpdates M))
           (set_frames [] (set_heap (heap F) M))) /\
  pstate (promise_of (PAsync n) F) = Done (Fulfilled (PvBool true)).
Proof.
  intros Hq Hf Hne Hquiet Hr Hu Hb HL HA Hd F. subst F.
  unfold run_frame. rewrite Hf.
  destruct os as [|o os'] eqn:Eos; [done|].
  destruct (frame_loop deepEqual tok data (4 + fuel) [KDelete tok (PLedger tok)] os' o 0
              (set_frames [] M)) as (M' & Hrun & HshM & Hout).
  { exact Hq. }
  { exact HA. }
  { intros j Hj. apply Hd. simpl in *. lia. }
  { done. }
  change (5 + fuel) with (S (4 + fuel)). rewrite Hrun.
  assert (hget (PLedger tok) (heap M') =
          {| pstate := Pending; reactions := [KForward (PBroadcast tok)]; remaining := 0 |}) as HL'
    by (rewrite <- HL; by apply Hout).
  assert (hget (PBroadcast tok) (heap M') =
          {| pstate := Pending; reactions := [KAwait (PUpdate su)]; remaining := 0 |}) as Hb'
    by (rewrite <- Hb; by apply Hout).
  assert (hget (PUpdate su) (heap M') =
          {| pstate := Pending; reactions := [KForward (PAsync n)]; remaining := 0 |}) as Hu'
    by (rewrite <- Hu; by apply Hout).
  assert (hget (PAsync n) (heap M') = pending_promise) as Hr'
    by (rewrite <- Hr; by apply Hout).
  set (hM := heap M') in *. clearbody hM. subst M'.
  cbn [map].
  pose proof (completion_chain_any fuel tok su n hM
                (set_calls (calls (set_frames [] M) ++
                            map delivery_of (frame_callbacks tok 0 (o :: os') data))
                   (set_frames [] M)) HL' Hb' Hu' Hr') as (HshF & HrF & _).
  cbv zeta in HshF, HrF.
  set (X := set_microtasks _ (set_calls _ (set_heap hM _))).
  set (Y := set_microtasks _ (set_heap hM (set_calls _ _))) in HshF, HrF.
  assert (X = Y) as -> by by machine_eq.
  set (MF := drain deepEqual (4 + fuel) Y) in *.
  split; [|exact HrF].
  rewrite HshF at 1. apply machine_eq; try reflexivity.
  all: cbn [calls microtasks set_calls set_pendingUpdates set_microtasks set_heap
            set_frames].
  all: rewrite ?delivery_of_frame_callbacks, ?Hq; reflexivity.
Qed.

Lemma merge_empty (s : State) : merge s ∅ = s.
Proof. unfold merge. apply (left_id_L ∅ (∪)). Qed.

Lemma merge_idemp (s p : State) : merge (merge s p) p = merge s p.
Proof. unfold merge. by rewrite (assoc_L (∪)), (idemp_L (∪)). Qed.

(** X1.  A changing update in a store whose selection yields no observer:
    the merged state is committed, the broadcast makes no ledger entry and
    queues no frame callback, and the action settles with [true] within
    the same checkpoint, no frame needed. *)
Theorem commit_without_targets action P m k :
  let data := merge (internalState m) P in
  let M := drain deepEqual (6 + k) (bound_action action m).2 in
  microtasks m = [] ->
  action (internalState m) = RObject P ->
  deepEqual data (internalState m) = false ->
  getObserversToUpdate data m = [] ->
  internalState M = data /\
  pendingUpdates M = pendingUpdates m /\ frames M = frames m /\
  calls M = calls m /\ microtasks M = [] /\
  pstate (promise_of (PAsync (serial m)) M) = Done (Fulfilled (PvBool true)).
Proof.
  intros data M Hq Hact Hneq Hnone.
  destruct (no_target_settles deepEqual action P m k Hq Hact Hneq Hnone) as [Hsh Hr].
  cbv zeta in Hsh, Hr. fold data M in Hsh, Hr.
  split; [by rewrite Hsh|]. split; [by rewrite Hsh|]. split; [by rewrite Hsh|].
  split; [by rewrite Hsh|]. split; [by rewrite Hsh|]. exact Hr.
Qed.

(** X2.  With a [deepEqual] that holds of a value and itself, an action
    that returns fields the state already has, the ones a previous commit
    of the same partial put there included, or no field at all, settles
    with [false] and notifies nobody. *)
Theorem same_fields_again_settle_false action S P m k :
  let M := drain deepEqual (3 + k) (bound_action action m).2 in
  (forall x, deepEqual x x = true) ->
  microtasks m = [] ->
  internalState m = merge S P ->
  action (internalState m) = RObject P ->
  pstate (promise_of (PAsync (serial m)) M) = Done (Fulfilled (PvBool false)) /\
  internalState M = merge S P /\
  pendingUpdates M = pendingUpdates m /\ frames M = frames m /\ calls M = calls m.
Proof.
  intros M Hrefl Hq Hst Hact.
  assert (deepEqual (merge (internalState m) P) (internalState m) = true) as Heq.
  { rewrite Hst, merge_idemp. apply Hrefl. }
  destruct (noop_settles deepEqual action P m k Hq Hact Heq) as [Hsh Hr].
  cbv zeta in Hsh, Hr. fold M in Hsh, Hr.
  split; [exact Hr|]. rewrite Hsh. cbn. by rewrite Hst.
Qed.

(** X3.  A bound action never commits within the call: whatever the
    transition function returns, the state, the registry, the ledger, the
    frame queue and the record of calls are the same right after the call,
    and no job is run; an object or a promise gives back the [async]
    promise, still pending. *)
Theorem action_call_commits_nothing action m :
  let m' := (bound_action action m).2 in
  internalState m' = internalState m /\ observers m' = observers m /\
  pendingUpdates m' = pendingUpdates m /\ frames m' = frames m /\
  calls m' = calls m /\
  (is_object_result (action (internalState m)) = true ->
   (bound_action action m).1 = Normal (PAsync (serial m)) /\
   (forall p, action (internalState m) = RObject p ->
      microtasks m' =
      microtasks m ++ [JReaction (KUpdate (PAsync (serial m))) (Fulfilled (PvPartial p))] /\
      pstate (promise_of (PAsync (serial m)) m') = Pending)).
Proof.
  intros m'. subst m'. unfold bound_action.
  destruct (action (internalState m)) as [| |b|z|str| |p|q] eqn:E;
    cbn [truthy typeof is_object_result].
  1,2,6: by simpl.
  - destruct b; by simpl.
  - destruct (Z.eqb z 0); by simpl.
  - destruct (String.eqb str ""); by simpl.
  - rewrite String.eqb_refl. cbn [negb orb fst snd].
    erewrite then_done; last by lookup.
    do 5 (split; [done|]). intros _. split; [done|].
    intros p' [= <-]. split; [done|]. by lookup.
  - rewrite String.eqb_refl. cbn [negb orb fst snd].
    pose proof (then_same_store q (KUpdate (PAsync (serial m)))
                  (alloc (PAsync (serial m)) pending_promise (set_serial (S (serial m)) m)))
      as (_ & _ & Hi & Ho & Hp & Hf & Hc & _).
    rewrite Hi, Ho, Hp, Hf, Hc. do 5 (split; [done|]). intros _. split; [done|].
    intros p' [=].
Qed.

(** A bound action given a pending promise subscribes the commit to it. *)
Lemma bound_action_promise action q m :
  action (internalState m) = RPromise (PUser q) ->
  promise_of (PUser q) m = pending_promise ->
  bound_action action m =
  (Normal (PAsync (serial m)),
   alloc (PUser q)
     {| pstate := Pending; reactions := [KUpdate (PAsync (serial m))]; remaining := 0 |}
     (alloc (PAsync (serial m)) pending_promise (set_serial (S (serial m)) m))).
Proof.
  intros Hact Hp. unfold bound_action. rewrite Hact.
  cbn [truthy typeof]. rewrite String.eqb_refl. cbn [negb orb].
  f_equal. erewrite then_at; last by (lookup; exact Hp). done.
Qed.

(** X4.  An action whose transition function returns a promise commits
    nothing while that promise is pending: the checkpoint runs no job and
    the [async] promise stays pending.  When the promise is fulfilled with
    a partial that changes the state, the commit and the broadcast follow
    as for an immediate result: the merged state is committed in the next
    checkpoint, and the frame that calls the observers (stock, callbacks
    returning) settles the action with [true] and clears the ledger. *)
Theorem deferred_result_commits_when_fulfilled action q P m k k1 k2 :
  let s := serial m in
  let data := merge (internalState m) P in
  let os := getObserversToUpdate data m in
  let m1 := (bound_action action m).2 in
  let m2 := drain deepEqual (3 + k1)
              (user_settles q (Fulfilled (PvPartial P)) (drain deepEqual k m1)) in
  let m3 := run_frame deepEqual (5 + k2) m2 in
  microtasks m = [] -> frames m = [] ->
  action (internalState m) = RPromise (PUser q) ->
  promise_of (PUser q) m = pending_promise ->
  deepEqual data (internalState m) = false ->
  os <> [] -> Forall (stock data) os -> Forall (quiet data) os ->
  (bound_action action m).1 = Normal (PAsync s) /\
  (drain deepEqual k m1 = m1 /\ internalState m1 = internalState m /\
   pendingUpdates m1 = pendingUpdates m /\ frames m1 = [] /\
   pstate (promise_of (PAsync s) m1) = Pending) /\
  (internalState m2 = data /\ frames m2 = frame_callbacks (s + 2) 0 os data /\
   calls m2 = calls m /\ pstate (promise_of (PAsync s) m2) = Pending) /\
  (calls m3 = calls m ++ map (delivered FromFrame data) os /\
   obj_get (s + 2) (pendingUpdates m3) = None /\
   pstate (promise_of (PAsync s) m3) = Done (Fulfilled (PvBool true))).
Proof.
  intros s data os m1 m2 m3 Hq Hfr Hact Hp Hneq Hne Hstock Hquiet.
  subst m3 m2 m1. rewrite (bound_action_promise _ _ _ Hact Hp). cbn [fst snd]. fold s.
  split; [done|].
  set (m1 := alloc (PUser q) _ _).
  assert (drain deepEqual k m1 = m1) as Hidle by (apply drain_idle; exact Hq).
  rewrite Hidle.
  split.
  { split; [done|]. split; [done|]. split; [done|]. split; [exact Hfr|].
    unfold m1. by lookup. }
  unfold user_settles. erewrite settle_at; last by (unfold m1; lookup).
  cbn [map].
  set (ma := enqueue _ _).
  assert (microtasks ma =
          [JReaction (KUpdate (PAsync s)) (Fulfilled (PvPartial P))]) as Hqa
    by (unfold ma, m1; cbn; by rewrite Hq).
  pose proof (commit_in_flight s P ma k1) as HC. cbv zeta in HC.
  change (internalState ma) with (internalState m) in HC. fold data in HC.
  rewrite (getObserversToUpdate_ext data m ma eq_refl eq_refl) in HC. fold os in HC.
  change (serial ma) with (S s) in HC.
  specialize (HC Hqa Hneq Hne Hstock).
  set (M := drain deepEqual (3 + k1) ma) in *. clearbody M.
  destruct HC as (Hsh & Hu & Hb & HL & HA & Hd & Hout).
  assert (promise_of (PAsync s) M = pending_promise) as Hr.
  { rewrite Hout by done. unfold ma, m1. by lookup. }
  replace (s + 2) with (S (S s)) by lia.
  assert (frames M = frame_callbacks (S (S s)) 0 os data) as HfM
    by (rewrite Hsh; cbn; by rewrite Hfr).
  split.
  { split; [by rewrite Hsh|]. split; [exact HfM|]. split; [by rewrite Hsh|].
    by rewrite Hr. }
  assert (microtasks M = []) as HqM by by rewrite Hsh.
  destruct (flight_lands s (S (S s)) (S s) os data M k2 HqM HfM Hne Hquiet Hr Hu Hb HL HA Hd)
    as [HshF HrF].
  set (F := run_frame deepEqual (5 + k2) M) in *. clearbody F.
  split; [rewrite HshF; cbn; by rewrite Hsh|].
  split; [rewrite HshF; cbn; apply obj_get_delete|]. exact HrF.
Qed.

(** X5.  When the promise returned by a transition function rejects, the
    [async] promise of the action rejects with the same error in the next
    checkpoint; nothing is committed, broadcast or called. *)
Theorem deferred_rejection_propagates action q e m k :
  let s := serial m in
  let M := drain deepEqual (1 + k)
             (user_settles q (Rejected e) (bound_action action m).2) in
  microtasks m = [] ->
  action (internalState m) = RPromise (PUser q) ->
  promise_of (PUser q) m = pending_promise ->
  pstate (promise_of (PAsync s) M) = Done (Rejected e) /\
  internalState M = internalState m /\ pendingUpdates M = pendingUpdates m /\
  frames M = frames m /\ calls M = calls m /\ microtasks M = [].
Proof.
  intros s M Hq Hact Hp. subst M.
  rewrite (bound_action_promise _ _ _ Hact Hp). cbn [snd]. fold s.
  unfold user_settles. erewrite settle_at; last by lookup.
  cbn [map]. change (1 + k) with (S k).
  erewrite drain_step; last by (cbn; rewrite Hq).
  cbn [run_job].
  erewrite settle_at; last by lookup.
  cbn [map]. rewrite drain_idle by reflexivity.
  split; [by lookup|]. by cbn.
Qed.

(** X6.  The check on the result of a transition function is not applied
    to what a returned promise is fulfilled with.  With a [deepEqual] that
    holds of a value and itself, a promise fulfilled with undefined or with
    a boolean is an empty update: the action
    settles with [false], where the same value returned directly would
    make the bound action throw. *)
Theorem deferred_non_object_settles_false action q v m k :
  let s := serial m in
  let M := drain deepEqual (3 + k)
             (user_settles q (Fulfilled v) (bound_action action m).2) in
  (forall x, deepEqual x x = true) ->
  v = PvUndefined \/ (exists b, v = PvBool b) ->
  microtasks m = [] ->
  action (internalState m) = RPromise (PUser q) ->
  promise_of (PUser q) m = pending_promise ->
  pstate (promise_of (PAsync s) M) = Done (Fulfilled (PvBool false)) /\
  internalState M = internalState m /\ pendingUpdates M = pendingUpdates m /\
  frames M = frames m /\ calls M = calls m /\ microtasks M = [].
Proof.
  intros s M Hrefl Hv Hq Hact Hp. subst M.
  assert (partial_of v = ∅) as Hpv by (by destruct Hv as [->|[b ->]]).
  rewrite (bound_action_promise _ _ _ Hact Hp). cbn [snd]. fold s.
  unfold user_settles. erewrite settle_at; last by lookup.
  cbn [map]. replace (3 + k) with (S (S (S k))) by lia.
  erewrite drain_step; last by (cbn; rewrite Hq).
  cbn [run_job]. rewrite Hpv. unfold update.
  cbn [serial internalState set_serial set_microtasks set_heap alloc enqueue].
  rewrite merge_empty, Hrefl. unfold resolve_with.
  erewrite settle_at; last by lookup.
  cbn [map]. run_one.
  erewrite then_done; last by lookup.
  run_one.
  erewrite settle_at; last by lookup.
  cbn [map]. rewrite drain_idle by reflexivity.
  split; [by lookup|]. by cbn.
Qed.

(** ** The registry as a dictionary *)

Lemma obj_set_twice {V} (g : Guid) (v1 v2 : V) l :
  obj_set g v2 (obj_set g v1 l) = obj_set g v2 l.
Proof.
  induction l as [|[g' v'] l IH]; simpl.
  - by rewrite decide_True.
  - destruct (decide (g = g')) as [->|Hne]; simpl.
    + by rewrite decide_True.
    + rewrite decide_False by done. by rewrite IH.
Qed.

Lemma obj_delete_set {V} (g : Guid) (v : V) l :
  obj_delete g (obj_set g v l) = obj_delete g l.
Proof.
  induction l as [|[g' v'] l IH]; simpl.
  - by rewrite decide_True.
  - destruct (decide (g = g')) as [->|Hne]; simpl.
    + by rewrite decide_True.
    + rewrite decide_False by done. by rewrite IH.
Qed.

Lemma obj_delete_fresh {V} (g : Guid) (l : list (Guid * V)) :
  g ∉ obj_keys l -> obj_delete g l = l.
Proof.
  induction l as [|[g' v'] l IH]; simpl; intros Hn; [done|].
  apply not_elem_of_cons in Hn as [Hne Hn].
  rewrite decide_False by done. by rewrite IH.
Qed.

Lemma length_obj_set_present {V} (g : Guid) (v : V) l :
  g ∈ obj_keys l -> length (obj_set g v l) = length l.
Proof.
  induction l as [|[g' v'] l IH]; simpl; intros Hin.
  - by apply elem_of_nil in Hin.
  - destruct (decide (g = g')) as [->|Hne]; simpl; [done|].
    apply elem_of_cons in Hin as [?|Hin]; [done|]. by rewrite IH.
Qed.

Lemma obj_keys_set_same {V} (g : Guid) (v : V) l : g ∈ obj_keys (obj_set g v l).
Proof.
  induction l as [|[g' v'] l IH]; simpl.
  - left.
  - destruct (decide (g = g')) as [->|Hne]; simpl; [left|by right].
Qed.

Lemma set_observers_same m : set_observers (observers m) m = m.
Proof. by destruct m. Qed.

Lemma saveObserver_built g cb props o m :
  buildObserver cb props m = Normal o ->
  saveObserver g cb props m =
  (Normal o, set_observers (obj_set g o (observers m)) m).
Proof. intros H. unfold saveObserver. by rewrite H. Qed.

(** X7.  [Broadcaster.guid()] drawing the same key twice: the second
    registration takes the place of the first.  The registry is the one
    registering the second observer alone would give, it has not grown,
    and the destroy handle of either removes the second observer. *)
Theorem same_key_replaces_the_observer g cb1 props1 o1 cb2 props2 o2 m :
  let m1 := (saveObserver g cb1 props1 m).2 in
  let m2 := (saveObserver g cb2 props2 m1).2 in
  buildObserver cb1 props1 m = Normal o1 ->
  buildObserver cb2 props2 m = Normal o2 ->
  observers m2 = obj_set g o2 (observers m) /\
  obj_get g (observers m2) = Some o2 /\
  length (observers m2) = length (observers m1) /\
  destroy g m2 = destroy g m.
Proof.
  intros m1 m2 H1 H2. subst m2 m1.
  rewrite (saveObserver_built g cb1 props1 o1 m H1). cbn [snd].
  rewrite (saveObserver_built g cb2 props2 o2 _
             (eq_trans (buildObserver_ext cb2 props2 m
                          (set_observers (obj_set g o1 (observers m)) m) eq_refl) H2)).
  cbn [snd observers set_observers].
  rewrite obj_set_twice.
  split; [done|]. split.
  { clear. induction (observers m) as [|[g' o'] l IH]; simpl.
    - by rewrite decide_True.
    - destruct (decide (g = g')); simpl; [by rewrite decide_True|].
      by rewrite decide_False. }
  split.
  { rewrite <- (obj_set_twice g o1 o2). apply length_obj_set_present, obj_keys_set_same. }
  unfold destroy. cbn [observers set_observers]. rewrite obj_delete_set.
  by machine_eq.
Qed.

(** X8.  Subscribing without immediate delivery under a key that is not
    in the registry and then invoking the destroy handle gives back the
    machine as it was, for [DataStore.observe] and [Broadcaster.observe]
    alike. *)
Theorem observe_then_destroy_restores g cb props o m :
  g ∉ obj_keys (observers m) ->
  buildObserver cb props m = Normal o ->
  destroy g (observe g cb props false m).2 = m /\
  destroy g (broadcaster_observe g cb props m).2 = m.
Proof.
  intros Hfresh Ho. unfold observe, broadcaster_observe, saveObserver. rewrite Ho.
  cbn [snd]. unfold destroy. cbn [observers set_observers].
  rewrite obj_delete_set, (obj_delete_fresh _ _ Hfresh).
  split; apply machine_eq; reflexivity.
Qed.

(** X9.  The destroy handle does not cancel the initial delivery: when
    it is invoked right after [observe(cb, props, true)], with nothing
    pending, the observer is gone from the registry and its callback is
    still called once, in the next checkpoint, with the current state. *)
Theorem destroy_keeps_the_initial_delivery g cb props o m k :
  let M := drain deepEqual (1 + k) (destroy g (observe g cb props true m).2) in
  microtasks m = [] -> pendingUpdates m = [] ->
  buildObserver cb props m = Normal o ->
  obj_get g (observers M) = None /\
  calls M = calls m ++ [delivered FromBarrier (internalState m) o] /\
  microtasks M = [] /\ frames M = frames m.
Proof.
  intros M Hq Hl Ho. subst M. unfold observe, saveObserver. rewrite Ho.
  cbn [snd]. unfold nextTick.
  cbn [pendingUpdates set_observers set_serial serial]. rewrite Hl.
  cbn [obj_values map allSettled fold_left length].
  erewrite settle_at; last by lookup.
  cbn [map].
  erewrite then_done; last by lookup.
  change (1 + k) with (S k).
  erewrite drain_step; last by (cbn; rewrite Hq).
  cbn [run_job]. rewrite drain_idle by reflexivity.
  cbn. split; [|done].
  rewrite obj_delete_set. clear.
  induction (observers m) as [|[g' o'] l IH]; simpl; [done|].
  destruct (decide (g = g')); simpl; [done|]. by rewrite decide_False.
Qed.

Lemma filter_ext_in_keys {V} (ds ds' : list Guid) (l : list (Guid * V)) :
  (forall g, g ∈ ds <-> g ∈ ds') ->
  List.filter (fun kv => negb (bool_decide (kv.1 ∈ ds))) l =
  List.filter (fun kv => negb (bool_decide (kv.1 ∈ ds'))) l.
Proof.
  intros H. induction l as [|kv l IH]; cbn [List.filter]; [done|].
  rewrite (bool_decide_ext _ _ (H kv.1)). by rewrite IH.
Qed.

(** X10.  [destroyAll] depends on which handles it is given only: two
    lists with the same handles, in any order and with any repetitions,
    leave the same machine, the one whose registry has lost exactly the
    keys given. *)
Theorem destroyAll_ignores_order_and_repeats ds ds' m :
  (forall g, g ∈ ds <-> g ∈ ds') ->
  destroyAll ds m = destroyAll ds' m /\
  destroyAll ds m =
    set_observers
      (List.filter (fun kv => negb (bool_decide (kv.1 ∈ ds))) (observers m)) m.
Proof.
  intros H.
  assert (forall l, destroyAll l m =
            set_observers
              (List.filter (fun kv => negb (bool_decide (kv.1 ∈ l))) (observers m)) m) as Hd.
  { intros l. rewrite destroyAll_same_but_observers. by rewrite observers_destroyAll. }
  split; [|apply Hd]. rewrite (Hd ds), (Hd ds'). f_equal. by apply filter_ext_in_keys.
Qed.

(** ** What the methods leave alone *)

(** X11.  The registry and the configuration of a store change through
    [observe] and the destroy handles only: a bound action, a broadcast,
    any number of microtasks and a whole frame leave them as they are.
    The state changes through the commit of an action only: subscribing,
    destroying, broadcasting by hand and running a frame callback leave
    it as it is. *)
Theorem registry_and_state_are_kept action data fuel g cb props now fc m :
  (registry (bound_action action m).2 = registry m /\
   registry (broadcast data m).2 = registry m /\
   registry (drain deepEqual fuel m) = registry m /\
   registry (run_frame deepEqual fuel m) = registry m) /\
  (internalState (observe g cb props now m).2 = internalState m /\
   internalState (destroy g m) = internalState m /\
   internalState (broadcast data m).2 = internalState m /\
   internalState (run_frame_callback fc m) = internalState m).
Proof.
  split.
  - split; [apply registry_bound_action|]. split; [apply registry_broadcast|].
    split; [apply registry_drain | apply registry_run_frame].
  - split.
    { unfold observe, saveObserver. destruct (buildObserver cb props m); [|done].
      cbn [snd]. destruct now; [|done]. by rewrite state_nextTick. }
    split; [done|]. split; [apply state_broadcast|].
    unfold run_frame_callback. destruct (cb_throws _ _); [done|].
    by rewrite (state_same_store _ _ (settle_same_store _ _ _)).
Qed.

Lemma obj_get_set_other {V} (k k' : nat) (v : V) o :
  k <> k' -> obj_get k (obj_set k' v o) = obj_get k o.
Proof.
  intros Hne. induction o as [|[k0 v0] o IH]; simpl.
  - by rewrite decide_False.
  - destruct (decide (k' = k0)) as [->|Hne']; simpl.
    + by rewrite !decide_False.
    + destruct (decide (k = k0)); [done|]. exact IH.
Qed.

(** X12.  Deliveries are not coalesced.  Two actions that each change
    the state, the second invoked after the checkpoint of the first and
    before any frame, give two broadcasts in flight; the next frame calls
    the targets of the first with the first merged state and then the
    targets of the second with the second one, each exactly once. *)
Theorem two_commits_two_deliveries action1 P1 action2 P2 m k1 k2 fuel :
  let data1 := merge (internalState m) P1 in
  let data2 := merge data1 P2 in
  let os1 := getObserversToUpdate data1 m in
  let os2 := getObserversToUpdate data2 m in
  let M1 := drain deepEqual (3 + k1) (bound_action action1 m).2 in
  let M2 := drain deepEqual (3 + k2) (bound_action action2 M1).2 in
  microtasks m = [] -> frames m = [] ->
  action1 (internalState m) = RObject P1 ->
  action2 data1 = RObject P2 ->
  deepEqual data1 (internalState m) = false ->
  deepEqual data2 data1 = false ->
  os1 <> [] -> Forall (stock data1) os1 ->
  os2 <> [] -> Forall (stock data2) os2 ->
  internalState M2 = data2 /\
  obj_get (serial m + 2) (pendingUpdates M2) = Some (PLedger (serial m + 2)) /\
  obj_get (serial m + 5) (pendingUpdates M2) = Some (PLedger (serial m + 5)) /\
  frame_calls (calls (run_frame deepEqual fuel M2)) =
    frame_calls (calls m) ++ map (delivered FromFrame data1) os1
    ++ map (delivered FromFrame data2) os2.
Proof.
  intros data1 data2 os1 os2 M1 M2 Hq Hfr Ha1 Ha2 Hn1 Hn2 Hne1 Hs1 Hne2 Hs2.
  pose proof (in_flight_reached deepEqual action1 P1 m k1 Hq Ha1 Hn1 Hne1 Hs1) as HF1.
  fold data1 os1 M1 in HF1. clearbody M1. destruct HF1 as [Hsh1 _ _ _ _ _ _].
  assert (microtasks M1 = []) as Hq1 by by rewrite Hsh1.
  assert (internalState M1 = data1) as Hi1 by by rewrite Hsh1.
  assert (serial M1 = serial m + 3) as Hser1 by by rewrite Hsh1.
  assert (getObserversToUpdate data2 M1 = os2) as Hos2.
  { apply getObserversToUpdate_ext; by rewrite Hsh1. }
  assert (frames M1 = frame_callbacks (serial m + 2) 0 os1 data1) as Hf1
    by (rewrite Hsh1; cbn; by rewrite Hfr).
  assert (calls M1 = calls m) as Hc1 by by rewrite Hsh1.
  assert (obj_get (serial m + 2) (pendingUpdates M1) = Some (PLedger (serial m + 2)))
    as Hl1 by (rewrite Hsh1; cbn; apply obj_get_set).
  clear Hsh1.
  pose proof (in_flight_reached deepEqual action2 P2 M1 k2 Hq1) as HF2.
  cbv zeta in HF2. rewrite Hi1 in HF2. fold data2 in HF2. rewrite Hos2 in HF2.
  specialize (HF2 Ha2 Hn2 Hne2 Hs2). fold M2 in HF2. clearbody M2.
  destruct HF2 as [Hsh2 _ _ _ _ _ _]. rewrite Hser1 in Hsh2.
  replace (serial m + 3 + 2) with (serial m + 5) in Hsh2 by lia.
  split; [by rewrite Hsh2|]. split; [|split].
  - rewrite Hsh2. cbn [pendingUpdates set_internalState set_pendingUpdates].
    rewrite obj_get_set_other by lia. exact Hl1.
  - rewrite Hsh2. cbn [pendingUpdates set_internalState set_pendingUpdates].
    apply obj_get_set.
  - rewrite frame_calls_run_frame.
    rewrite Hsh2 at 1 2.
    cbn [calls frames set_internalState set_pendingUpdates set_frames set_serial
         set_microtasks set_heap].
    rewrite Hc1, Hf1, !map_app, !delivery_of_frame_callbacks. reflexivity.
Qed.

(** X13.  No update is lost to a new subscriber.  A subscription with
    immediate delivery followed, before the checkpoint, by an action that
    changes the state: the callback is first called with the state of the
    subscription time, in the checkpoint, and the observer is among the
    targets of the broadcast of the new state (when the selection yields
    it), which it receives in the next frame; the frame settles the action
    and leaves the ledger empty. *)
Theorem subscribe_then_act g cb props o action P m k k2 :
  let s := serial m in
  let m1 := (observe g cb props true m).2 in
  let data := merge (internalState m) P in
  let os := getObserversToUpdate data m1 in
  let M := drain deepEqual (4 + k) (bound_action action m1).2 in
  let F := run_frame deepEqual (5 + k2) M in
  microtasks m = [] -> pendingUpdates m = [] -> frames m = [] ->
  buildObserver cb props m = Normal o ->
  action (internalState m) = RObject P ->
  deepEqual data (internalState m) = false ->
  os <> [] -> Forall (stock data) os -> Forall (quiet data) os ->
  (selection m = None -> o ∈ os) /\
  calls M = calls m ++ [delivered FromBarrier (internalState m) o] /\
  internalState M = data /\
  calls F = calls m ++ [delivered FromBarrier (internalState m) o]
            ++ map (delivered FromFrame data) os /\
  pendingUpdates F = [] /\
  pstate (promise_of (PAsync (s + 1)) F) = Done (Fulfilled (PvBool true)).
Proof.
  intros s m1 data os M F Hq Hl Hfr Ho Hact Hneq.
  subst F M os m1. unfold observe, saveObserver. rewrite Ho. cbn [snd].
  unfold nextTick. cbn [pendingUpdates set_observers set_serial serial]. rewrite Hl.
  cbn [obj_values map allSettled fold_left length]. fold s.
  erewrite settle_at; last by lookup.
  cbn [map].
  erewrite then_done; last by lookup.
  set (m1 := enqueue _ _). intros Hne Hstock Hquiet.
  split.
  { intros Hsel. unfold getObserversToUpdate, allObservers, m1.
    cbn [selection observers enqueue alloc set_heap set_serial set_observers
         set_microtasks]. rewrite Hsel.
    clear. induction (observers m) as [|[g' o'] l IH]; simpl.
    - left.
    - destruct (decide (g = g')); simpl; [left|by right]. }
  rewrite (bound_action_object action P m1 Hact). cbn [snd].
  replace (4 + k) with (S (3 + k)) by lia.
  erewrite drain_step; last by (unfold m1; cbn; rewrite Hq).
  cbn [run_job].
  set (ma := record_call _ _ _ _).
  assert (microtasks ma =
          [JReaction (KUpdate (PAsync (S s))) (Fulfilled (PvPartial P))]) as Hqa by done.
  pose proof (commit_in_flight (S s) P ma k) as HC. cbv zeta in HC.
  change (internalState ma) with (internalState m) in HC. fold data in HC.
  rewrite (getObserversToUpdate_ext data m1 ma eq_refl eq_refl) in HC.
  change (serial ma) with (S (S s)) in HC.
  specialize (HC Hqa Hneq Hne Hstock).
  set (M := drain deepEqual (3 + k) ma) in *. clearbody M.
  destruct HC as (Hsh & Hu & Hb & HL & HA & Hd & Hout).
  assert (promise_of (PAsync (S s)) M = pending_promise) as Hr.
  { rewrite Hout by done. unfold ma, m1. by lookup. }
  assert (frames M = frame_callbacks (S (S (S s))) 0 (getObserversToUpdate data m1) data)
    as HfM by (rewrite Hsh; cbn; by rewrite Hfr).
  assert (microtasks M = []) as HqM by by rewrite Hsh.
  assert (calls M = calls m ++ [delivered FromBarrier (internalState m) o]) as HcM
    by by rewrite Hsh.
  split; [exact HcM|]. split; [by rewrite Hsh|].
  destruct (flight_lands (S s) (S (S (S s))) (S (S s)) _ data M k2
              HqM HfM Hne Hquiet Hr Hu Hb HL HA Hd) as [HshF HrF].
  set (F := run_frame deepEqual (5 + k2) M) in *. clearbody F.
  replace (s + 1) with (S s) by lia.
  split; [rewrite HshF; cbn; by rewrite HcM, <- app_assoc|].
  split; [|exact HrF].
  rewrite HshF. cbn [pendingUpdates set_calls set_pendingUpdates].
  rewrite Hsh. cbn. rewrite Hl. cbn. by rewrite decide_True.
Qed.

Ltac lookup_far :=
  unfold promise_of, alloc, enqueue, record_call;
  cbn [heap set_heap set_microtasks set_calls set_frames set_pendingUpdates
       set_serial set_internalState set_observers];
  repeat first [rewrite hget_hset_eq
               | rewrite hget_hset_ne by (try done; intros [=]; lia)].

(** X14.  Actions are not serialised.  Two actions invoked one after the
    other before any checkpoint: the transition function of the second is
    given the state the store had before the first commit, and the two
    partials are then merged in invocation order, the second over the
    first; both broadcasts (stock targets) are in flight afterwards and the
    next frame delivers the two merged states in that order. *)
Theorem back_to_back_actions action1 P1 action2 P2 m k fuel :
  let s := serial m in
  let data1 := merge (internalState m) P1 in
  let data2 := merge data1 P2 in
  let os1 := getObserversToUpdate data1 m in
  let os2 := getObserversToUpdate data2 m in
  let m1 := (bound_action action1 m).2 in
  let m2 := (bound_action action2 m1).2 in
  let M := drain deepEqual (6 + k) m2 in
  microtasks m = [] ->
  action1 (internalState m) = RObject P1 ->
  action2 (internalState m) = RObject P2 ->
  deepEqual data1 (internalState m) = false ->
  deepEqual data2 data1 = false ->
  os1 <> [] -> Forall (stock data1) os1 ->
  os2 <> [] -> Forall (stock data2) os2 ->
  internalState m1 = internalState m /\
  microtasks m2 =
    [JReaction (KUpdate (PAsync s)) (Fulfilled (PvPartial P1));
     JReaction (KUpdate (PAsync (s + 1))) (Fulfilled (PvPartial P2))] /\
  internalState M = data2 /\ microtasks M = [] /\
  frames M = frames m ++ frame_callbacks (s + 3) 0 os1 data1
             ++ frame_callbacks (s + 5) 0 os2 data2 /\
  frame_calls (calls (run_frame deepEqual fuel M)) =
    frame_calls (calls m) ++ map delivery_of (frames m)
    ++ map (delivered FromFrame data1) os1 ++ map (delivered FromFrame data2) os2.
Proof.
  intros s data1 data2 os1 os2 m1 m2 M Hq Ha1 Ha2 Hn1 Hn2 Hne1 Hs1 Hne2 Hs2.
  subst M m2 m1.
  rewrite (bound_action_object action1 P1 m Ha1). cbn [snd]. rewrite Hq. cbn [app].
  fold s. split; [done|].
  set (m1 := set_microtasks _ _).
  rewrite (bound_action_object action2 P2 m1 Ha2). cbn [snd].
  change (serial m1) with (S s). change (microtasks m1) with
    [JReaction (KUpdate (PAsync s)) (Fulfilled (PvPartial P1))]. cbn [app].
  replace (s + 1) with (S s) by lia.
  split; [done|].
  replace (6 + k) with (S (S (S (S (S (S k)))))) by lia.
  (* the first commit *)
  erewrite drain_step; last by cbn.
  cbn [run_job partial_of].
  set (ma := set_microtasks [_] _).
  pose proof (update_stock deepEqual P1 ma) as HU1. cbv zeta in HU1.
  change (internalState ma) with (internalState m) in HU1. fold data1 in HU1.
  rewrite (getObserversToUpdate_ext data1 m ma eq_refl eq_refl) in HU1. fold os1 in HU1.
  specialize (HU1 Hn1 Hne1 Hs1). change (serial ma) with (S (S s)) in HU1.
  destruct (update deepEqual P1 ma) as [u1 mu1]. cbn [fst snd] in HU1.
  destruct HU1 as (-> & Hsh1 & Hu1 & Hb1 & HL1 & HA1 & Hd1 & Hout1).
  unfold resolve_with, enqueue.
  (* the second commit *)
  erewrite drain_step; last first.
  { cbn [microtasks set_microtasks]. rewrite Hsh1. by cbn. }
  cbn [run_job partial_of].
  set (mb := set_microtasks [_; _] _).
  assert (internalState mb = data1) as Hib by (unfold mb; cbn; by rewrite Hsh1).
  assert (serial mb = S (S (S (S s)))) as Hsb by (unfold mb; cbn; by rewrite Hsh1).
  assert (getObserversToUpdate data2 mb = os2) as Hob.
  { apply getObserversToUpdate_ext; unfold mb; cbn; by rewrite Hsh1. }
  assert (forall p, promise_of p mb = promise_of p mu1) as Hpb by done.
  pose proof (update_stock deepEqual P2 mb) as HU2. cbv zeta in HU2.
  rewrite Hib in HU2. fold data2 in HU2. rewrite Hob, Hsb in HU2.
  specialize (HU2 Hn2 Hne2 Hs2).
  destruct (update deepEqual P2 mb) as [u2 mu2]. cbn [fst snd] in HU2.
  destruct HU2 as (-> & Hsh2 & Hu2 & Hb2 & HL2 & HA2 & Hd2 & Hout2).
  unfold resolve_with, enqueue.
  (* the four subscriptions *)
  erewrite drain_step; last first.
  { cbn [microtasks set_microtasks]. rewrite Hsh2. by cbn. }
  cbn [run_job].
  erewrite then_at; last first.
  { lookup_far. change (hget ?p (heap mu2)) with (promise_of p mu2).
    rewrite Hout2 by (try done; intros [=]; lia). rewrite Hpb. exact HL1. }
  erewrite drain_step; last by cbn.
  cbn [run_job].
  erewrite then_at; last first.
  { lookup_far. change (hget ?p (heap mu2)) with (promise_of p mu2).
    rewrite Hout2 by (try done; intros [=]; lia). rewrite Hpb. exact Hu1. }
  erewrite drain_step; last by cbn.
  cbn [run_job].
  erewrite then_at; last first.
  { lookup_far. exact HL2. }
  erewrite drain_step; last by cbn.
  cbn [run_job].
  erewrite then_at; last first.
  { lookup_far. exact Hu2. }
  rewrite drain_idle by reflexivity.
  set (M := alloc _ _ _).
  assert (internalState M = data2) as HiM by (unfold M; cbn; by rewrite Hsh2).
  assert (frames M = frames m ++ frame_callbacks (s + 3) 0 os1 data1
                     ++ frame_callbacks (s + 5) 0 os2 data2) as HfM.
  { unfold M. cbn. rewrite Hsh2. cbn. rewrite Hsh1. cbn.
    replace (s + 3) with (S (S (S s))) by lia.
    replace (s + 5) with (S (S (S (S (S s))))) by lia.
    by rewrite <- app_assoc. }
  assert (calls M = calls m) as HcM.
  { unfold M. cbn. rewrite Hsh2. cbn. by rewrite Hsh1. }
  split; [exact HiM|]. split; [done|]. split; [exact HfM|].
  rewrite frame_calls_run_frame, HcM, HfM, !map_app, !delivery_of_frame_callbacks.
  reflexivity.
Qed.

Lemma register_all_same_but_observers regs : forall m,
  register_all regs m = set_observers (observers (register_all regs m)) m.
Proof.
  induction regs as [|reg regs IH]; intros m.
  - by machine_eq.
  - rewrite register_all_cons. rewrite IH at 1.
    unfold saveObserver. destruct (buildObserver _ _ m); by machine_eq.
Qed.

(** X15.  The targets of a broadcast are fixed when it starts.  While the
    broadcast of an action is in flight, invoking destroy handles and
    registering observers (without immediate delivery) change the
    registry, not the deliveries: the next frame calls exactly the
    observers that were targets when the broadcast started, each once with
    the merged state, settles the action and removes the ledger entry. *)
Theorem in_flight_targets_are_a_snapshot action P ds regs m k k2 :
  let data := merge (internalState m) P in
  let os := getObserversToUpdate data m in
  let M1 := drain deepEqual (3 + k) (bound_action action m).2 in
  let M2 := register_all regs (destroyAll ds M1) in
  let F := run_frame deepEqual (5 + k2) M2 in
  microtasks m = [] -> frames m = [] ->
  action (internalState m) = RObject P ->
  deepEqual data (internalState m) = false ->
  os <> [] -> Forall (stock data) os -> Forall (quiet data) os ->
  calls M2 = calls m /\
  calls F = calls m ++ map (delivered FromFrame data) os /\
  observers F = observers M2 /\
  obj_get (serial m + 2) (pendingUpdates F) = None /\
  pstate (promise_of (PAsync (serial m)) F) = Done (Fulfilled (PvBool true)).
Proof.
  intros data os M1 M2 F Hq Hfr Hact Hneq Hne Hstock Hquiet.
  pose proof (in_flight_reached deepEqual action P m k Hq Hact Hneq Hne Hstock) as HF.
  fold data os M1 in HF. clearbody M1. destruct HF as [Hsh Hr Hu Hb HL HA Hd].
  assert (M2 = set_observers (observers M2) M1) as HM2.
  { unfold M2. rewrite register_all_same_but_observers.
    rewrite (destroyAll_same_but_observers ds M1) at 2. by machine_eq. }
  clearbody M2.
  assert (microtasks M2 = []) as Hq2 by (rewrite HM2; cbn; by rewrite Hsh).
  assert (frames M2 = frame_callbacks (serial m + 2) 0 os data) as Hf2
    by (rewrite HM2; cbn; rewrite Hsh; cbn; by rewrite Hfr).
  assert (forall p, promise_of p M2 = promise_of p M1) as Hp2 by (intros p; by rewrite HM2).
  assert (calls M2 = calls m) as Hc2 by (rewrite HM2; cbn; by rewrite Hsh).
  destruct (flight_lands (serial m) (serial m + 2) (serial m + 1) os data M2 k2
              Hq2 Hf2 Hne Hquiet) as [HshF HrF].
  1-5: by rewrite Hp2.
  { intros j Hj. rewrite Hp2. by apply Hd. }
  fold F in HshF, HrF. clearbody F.
  split; [done|]. split; [rewrite HshF; cbn; by rewrite Hc2|].
  split; [by rewrite HshF|]. split; [|exact HrF].
  rewrite HshF. cbn. apply obj_get_delete.
Qed.

(** X16.  [broadcast] called by hand notifies without committing: the
    state of the store is untouched, the operation is entered in the
    ledger, and with no microtask pending the next frame calls every
    target (stock observers) exactly once with the data given, after the
    callbacks that were queued before. *)
Theorem manual_broadcast_does_not_commit data m k fuel :
  let os := getObserversToUpdate data m in
  let M := drain deepEqual (1 + k) (broadcast data m).2 in
  microtasks m = [] ->
  os <> [] -> Forall (stock data) os ->
  (broadcast data m).1 = PBroadcast (serial m) /\
  internalState M = internalState m /\
  obj_get (serial m) (pendingUpdates M) = Some (PLedger (serial m)) /\
  frames M = frames m ++ frame_callbacks (serial m) 0 os data /\
  frame_calls (calls (run_frame deepEqual fuel M)) =
    frame_calls (calls m) ++ map delivery_of (frames m)
    ++ map (delivered FromFrame data) os.
Proof.
  intros os M Hq Hne Hs.
  destruct (broadcast_stock data m Hne Hs) as (Hsh & Hb & HL & _).
  split; [apply fst_broadcast|].
  subst M. set (m' := (broadcast data m).2) in *. clearbody m'.
  change (1 + k) with (S k).
  erewrite drain_step; last by (rewrite Hsh; cbn; rewrite Hq).
  cbn [run_job].
  erewrite then_at; last by (lookup; exact HL).
  rewrite drain_idle by reflexivity.
  set (M := alloc _ _ _).
  assert (frames M = frames m ++ frame_callbacks (serial m) 0 os data) as HfM
    by (unfold M; cbn; by rewrite Hsh).
  assert (calls M = calls m) as HcM by (unfold M; cbn; by rewrite Hsh).
  split; [unfold M; cbn; by rewrite Hsh|].
  split; [unfold M; cbn; rewrite Hsh; cbn; apply obj_get_set|].
  split; [exact HfM|].
  rewrite frame_calls_run_frame, HcM, HfM, map_app, delivery_of_frame_callbacks.
  reflexivity.
Qed.

(** ** Deliveries that are settled from the start *)

Lemma update_all_settled n os data : forall i m,
  Forall (settles_at_once data) os ->
  let m' := update_all n i os data m in
  m' = set_heap (heap m') m /\
  (forall j, i <= j < i + length os ->
     exists s, pstate (promise_of (PDelivery n j) m') = Done s) /\
  (forall p, (forall j, i <= j < i + length os -> p <> PDelivery n j) ->
     promise_of p m' = promise_of p m).
Proof.
  induction os as [|o os IH]; intros i m Hs; cbv zeta.
  - cbn [update_all]. split; [by machine_eq|].
    split; [intros j Hj; exfalso; cbn [length] in Hj; lia|done].
  - apply Forall_cons in Hs as [Ho Hs]. cbn [update_all].
    set (m1 := observer_update o (PDelivery n i) data m).
    assert (exists s, m1 = alloc (PDelivery n i) (settled_promise s) m) as [s Hm1].
    { unfold m1, observer_update. unfold settles_at_once in Ho.
      destruct (update_behaviour o data); [done|by eexists..]. }
    destruct (IH (S i) m1 Hs) as (Hsh & Hin & Hout). cbv zeta in *.
    split; [|split].
    + rewrite Hsh at 1. rewrite Hm1. by machine_eq.
    + intros j Hj. destruct (decide (j = i)) as [->|Hne].
      * exists s. rewrite Hout by (intros j' Hj' [=]; lia).
        rewrite Hm1. by rewrite promise_of_alloc_eq.
      * apply Hin. simpl in Hj. lia.
    + intros p Hp. rewrite Hout by (intros j' Hj'; apply Hp; simpl; lia).
      rewrite Hm1. rewrite promise_of_alloc_ne; [done|]. apply Hp. simpl. lia.
Qed.

Lemma fold_then_done c ps : forall m,
  (forall d, d ∈ ps -> exists s, pstate (promise_of d m) = Done s) ->
  exists ss, length ss = length ps /\
    fold_left (fun acc d => then_ d c acc) ps m =
    set_microtasks (microtasks m ++ map (JReaction c) ss) m.
Proof.
  induction ps as [|d ps IH]; intros m Hd.
  - exists []. split; [done|]. cbn. rewrite app_nil_r. by machine_eq.
  - destruct (Hd d) as [s Hs]; [left|].
    cbn [fold_left]. rewrite (then_done _ _ _ _ Hs).
    destruct (IH (enqueue [JReaction c s] m)) as (ss & Hlen & Hfold).
    { intros d' Hd'. apply Hd. by right. }
    exists (s :: ss). split; [simpl; by rewrite Hlen|].
    rewrite Hfold. unfold enqueue. machine_eq. by rewrite <- app_assoc.
Qed.

(** The jobs of an aggregate whose elements were all settled when it was
    made: each counts one element down and the last settles it. *)
Lemma slots_loop a R rest fuel ss : forall s0 m,
  microtasks m = map (JReaction (KSlot a)) (s0 :: ss) ++ rest ->
  promise_of a m =
    {| pstate := Pending; reactions := R; remaining := S (length ss) |} ->
  exists M,
    drain deepEqual (S (length ss) + fuel) m = drain deepEqual fuel M /\
    M = set_microtasks (rest ++ map (fun c => JReaction c (Fulfilled PvResults)) R)
          (set_heap (heap M) m) /\
    pstate (promise_of a M) = Done (Fulfilled PvResults) /\
    (forall p, p <> a -> promise_of p M = promise_of p m).
Proof.
  induction ss as [|s1 ss IH]; intros s0 m Hq Ha.
  - cbn [length Nat.add]. erewrite drain_step; last exact Hq.
    cbn [run_job]. erewrite slot_settled_last; last by (lookup; exact Ha).
    eexists. split; [reflexivity|]. split; [by machine_eq|].
    split; [by lookup|]. intros p Hp. by lookup.
  - cbn [length Nat.add]. erewrite drain_step; last exact Hq.
    cbn [run_job]. erewrite slot_settled_more; last by (lookup; exact Ha).
    set (m1 := alloc a _ _).
    destruct (IH s1 m1) as (M & Hrun & Hsh & Hdone & Hout).
    + done.
    + unfold m1. by rewrite promise_of_alloc_eq.
    + exists M. split; [exact Hrun|]. split; [|split; [exact Hdone|]].
      * rewrite Hsh at 1. by machine_eq.
      * intros p Hp. rewrite Hout by done. unfold m1. by rewrite promise_of_alloc_ne.
Qed.

(** [broadcast] to observers whose [update] returns settled promises. *)
Lemma broadcast_settled data m :
  let n := serial m in
  let os := getObserversToUpdate data m in
  let m' := (broadcast data m).2 in
  os <> [] -> Forall (settles_at_once data) os ->
  exists ss, length ss = length os /\
  m' = set_microtasks
         (microtasks m ++ map (JReaction (KSlot (PSettled n))) ss
          ++ [JThenable (PBroadcast n) (PLedger n)])
         (set_pendingUpdates (obj_set n (PLedger n) (pendingUpdates m))
            (set_serial (S n) (set_heap (heap m') m))) /\
  promise_of (PBroadcast n) m' = pending_promise /\
  promise_of (PLedger n) m' = pending_promise /\
  promise_of (PSettled n) m' =
    {| pstate := Pending; reactions := [KDelete n (PLedger n)];
       remaining := length os |} /\
  (forall p, p <> PBroadcast n -> p <> PLedger n -> p <> PSettled n ->
     (forall j, p <> PDelivery n j) -> promise_of p m' = promise_of p m).
Proof.
  intros n os m' Hne Hs. subst m'. unfold broadcast. fold n.
  set (m0 := set_serial (S n) (alloc (PBroadcast n) pending_promise m)).
  rewrite (getObserversToUpdate_ext data m m0 eq_refl eq_refl). fold os.
  destruct os as [|o os'] eqn:Eos; [done|]. rewrite <- Eos in *. clear Hne.
  cbn [snd].
  destruct (update_all_settled n os data 0 m0 Hs) as (Hsh1 & Hin1 & Hout1).
  set (m1 := update_all n 0 os data m0) in *.
  unfold allSettled.
  set (ma := alloc (PSettled n) _ m1).
  destruct (fold_then_done (KSlot (PSettled n)) (delivery_ids n 0 (length os)) ma)
    as (ss & Hlen & Hfold).
  { intros d (j & Hj & ->)%elem_of_delivery_ids. unfold ma.
    rewrite promise_of_alloc_ne by done. apply Hin1. lia. }
  rewrite Hfold. rewrite length_delivery_ids in Hlen.
  assert (match delivery_ids n 0 (length os) with
          | [] => settle (PSettled n) (Fulfilled PvResults)
                    (set_microtasks
                       (microtasks ma ++ map (JReaction (KSlot (PSettled n))) ss) ma)
          | _ :: _ => set_microtasks
                        (microtasks ma ++ map (JReaction (KSlot (PSettled n))) ss) ma
          end = set_microtasks
                  (microtasks ma ++ map (JReaction (KSlot (PSettled n))) ss) ma) as ->.
  { rewrite Eos. by simpl. }
  erewrite then_at; last first.
  { lookup. unfold ma. lookup. rewrite length_delivery_ids. reflexivity. }
  unfold resolve_with. exists ss. split; [exact Hlen|].
  split; [|split; [|split; [|split]]].
  - machine_eq; try (rewrite Hsh1; by cbn).
    unfold ma. cbn. rewrite Hsh1. cbn. by rewrite <- app_assoc.
  - lookup. unfold ma. lookup. change (hget ?p (heap m1)) with (promise_of p m1).
    rewrite Hout1 by done. unfold m0. by lookup.
  - by lookup.
  - by lookup.
  - intros p H1 H2 H3 H4. lookup. unfold ma. lookup.
    change (hget ?q (heap m1)) with (promise_of q m1).
    rewrite Hout1 by (intros j _; apply H4). unfold m0. by lookup.
Qed.

Lemma ledger_delete_set {V} (k : Token) (v : V) l :
  obj_delete k (obj_set k v l) = obj_delete k l.
Proof.
  induction l as [|[k' v'] l IH]; simpl.
  - by rewrite decide_True.
  - destruct (decide (k = k')) as [->|Hne]; simpl.
    + by rewrite decide_True.
    + rewrite decide_False by done. by rewrite IH.
Qed.

(** X17.  A delivery promise that is rejected does not fail a broadcast.
    When the [update] of every target returns a promise that is already
    settled, fulfilled or rejected, the whole operation completes within
    the checkpoint of the commit: the aggregate settles, the ledger entry
    is deleted and the action settles with [true], with no frame callback
    queued and no callback called. *)
Theorem settled_deliveries_complete_in_the_checkpoint action P m k :
  let s := serial m in
  let data := merge (internalState m) P in
  let os := getObserversToUpdate data m in
  let M := drain deepEqual (length os + 7 + k) (bound_action action m).2 in
  microtasks m = [] ->
  action (internalState m) = RObject P ->
  deepEqual data (internalState m) = false ->
  os <> [] -> Forall (settles_at_once data) os ->
  internalState M = data /\ microtasks M = [] /\
  frames M = frames m /\ calls M = calls m /\
  pendingUpdates M = obj_delete (s + 2) (pendingUpdates m) /\
  pstate (promise_of (PSettled (s + 2)) M) = Done (Fulfilled PvResults) /\
  pstate (promise_of (PAsync s) M) = Done (Fulfilled (PvBool true)).
Proof.
  intros s data os M Hq Hact Hneq Hne Hs. subst M.
  rewrite (bound_action_object action P m Hact). cbn [snd]. rewrite Hq. cbn [app].
  fold s.
  replace (length os + 7 + k) with (S (length os + (6 + k))) by lia.
  erewrite drain_step; last by cbn.
  cbn [run_job partial_of]. unfold update.
  cbn [serial internalState set_serial set_microtasks set_heap alloc].
  fold data. rewrite Hneq.
  set (m1 := set_internalState data _).
  pose proof (broadcast_settled data m1) as HB. cbv zeta in HB.
  rewrite (getObserversToUpdate_ext data m m1 eq_refl eq_refl) in HB. fold os in HB.
  specialize (HB Hne Hs).
  pose proof (fst_broadcast data m1) as Hfst.
  change (internalState m1) with data.
  destruct (broadcast data m1) as [b m2]. cbn [fst snd] in *. subst b.
  change (serial m1) with (S (S s)) in *.
  destruct HB as (ss & Hlen & Hsh & Hb & HL & HA & Hout).
  erewrite then_at; last exact Hb.
  unfold resolve_with, enqueue.
  destruct ss as [|s0 ss]; [destruct os; [done|discriminate Hlen]|].
  cbn [length] in Hlen.
  set (X := set_microtasks _ _).
  destruct (slots_loop (PSettled (S (S s))) [KDelete (S (S s)) (PLedger (S (S s)))]
              [JThenable (PBroadcast (S (S s))) (PLedger (S (S s)));
               JThenable (PAsync s) (PUpdate (S s))]
              (6 + k) ss s0 X) as (M & Hrun & HshM & HA' & HoutM).
  { unfold X. cbn [microtasks set_microtasks alloc set_heap]. rewrite Hsh.
    cbn [microtasks set_microtasks set_pendingUpdates set_serial set_heap
         set_internalState m1 app].
    change (microtasks (alloc _ _ (set_microtasks [] _))) with (@nil Job).
    cbn [app]. by rewrite <- app_assoc. }
  { unfold X. lookup. rewrite Hlen. exact HA. }
  rewrite <- Hlen. rewrite Hrun.
  assert (hget (PLedger (S (S s))) (heap M) = pending_promise) as HL'.
  { change (hget ?p (heap M)) with (promise_of p M). rewrite HoutM by done.
    unfold X. lookup. exact HL. }
  assert (hget (PUpdate (S s)) (heap M) = pending_promise) as Hu'.
  { change (hget ?p (heap M)) with (promise_of p M). rewrite HoutM by done.
    unfold X. lookup. change (hget ?p (heap m2)) with (promise_of p m2).
    rewrite Hout by done. unfold m1. by lookup. }
  assert (hget (PBroadcast (S (S s))) (heap M) =
          {| pstate := Pending; reactions := [KAwait (PUpdate (S s))]; remaining := 0 |})
    as Hb'.
  { change (hget ?p (heap M)) with (promise_of p M). rewrite HoutM by done.
    unfold X. by lookup. }
  assert (hget (PAsync s) (heap M) = pending_promise) as Hr'.
  { change (hget ?p (heap M)) with (promise_of p M). rewrite HoutM by done.
    unfold X. lookup. change (hget ?p (heap m2)) with (promise_of p m2).
    rewrite Hout by done. unfold m1. by lookup. }
  change (promise_of ?p M) with (hget p (heap M)) in HA'.
  set (hM := heap M) in *. clearbody hM. subst M.
  cbn [map app].
  replace (6 + k) with (S (S (S (S (S (S k)))))) by lia.
  run_one. erewrite then_at; last by (lookup; exact HL').
  run_one. erewrite then_at; last by (lookup; exact Hu').
  run_one. erewrite settle_at; last by lookup.
  cbn [map app]. run_one. erewrite settle_at; last by (lookup; exact Hb').
  cbn [map app]. run_one. erewrite settle_at; last by lookup.
  cbn [map app]. run_one. erewrite settle_at; last by (lookup; exact Hr').
  cbn [map]. rewrite drain_idle by reflexivity.
  replace (s + 2) with (S (S s)) by lia.
  split; [unfold X; cbn; rewrite Hsh; by cbn|].
  split; [done|].
  split; [unfold X; cbn; rewrite Hsh; by cbn|].
  split; [unfold X; cbn; rewrite Hsh; by cbn|].
  split; [unfold X; cbn; rewrite Hsh; cbn; apply ledger_delete_set|].
  split; [lookup; exact HA'|]. by lookup.
Qed.
End More.

(** ** The properties above at concrete inputs *)

Lemma value_eqb_refl : forall v, value_eqb v v = true.
Proof.
  fix IH 1. intros [| |b|n|s|xs|fs]; simpl.
  - reflexivity.
  - reflexivity.
  - by destruct b.
  - apply Z.eqb_refl.
  - apply String.eqb_refl.
  - induction xs as [|x xs IHxs]; [reflexivity|]. by rewrite (IH x), IHxs.
  - induction fs as [|[f x] fs IHfs]; [reflexivity|].
    by rewrite String.eqb_refl, (IH x), IHfs.
Qed.

Lemma fields_eqb_refl l : fields_eqb l l = true.
Proof.
  induction l as [|[f x] l IH]; [reflexivity|]. simpl.
  by rewrite String.eqb_refl, value_eqb_refl, IH.
Qed.

Lemma strict_deepEqual_refl x : strict_deepEqual x x = true.
Proof. apply fields_eqb_refl. Qed.

Lemma commit_without_targets_witness :
  let M := drain strict_deepEqual 6 (bound_action set_count ex_store).2 in
  internalState M = merge ex_state ex_partial /\ pendingUpdates M = [] /\
  frames M = [] /\
  pstate (promise_of (PAsync 0) M) = Done (Fulfilled (PvBool true)).
Proof.
  destruct (commit_without_targets strict_deepEqual set_count ex_partial ex_store 0)
    as (H1 & H2 & H3 & _ & _ & H6).
  - reflexivity.
  - reflexivity.
  - vm_compute. reflexivity.
  - reflexivity.
  - exact (conj H1 (conj H2 (conj H3 H6))).
Defined.

Lemma same_fields_again_settle_false_witness :
  let m := set_internalState (merge ex_state ex_partial) ex_two in
  let M := drain strict_deepEqual 3 (bound_action set_count m).2 in
  pstate (promise_of (PAsync 0) M) = Done (Fulfilled (PvBool false)) /\
  frames M = [] /\ calls M = [].
Proof.
  destruct (same_fields_again_settle_false strict_deepEqual set_count ex_state ex_partial
              (set_internalState (merge ex_state ex_partial) ex_two) 0)
    as (H1 & _ & _ & H4 & H5).
  - apply strict_deepEqual_refl.
  - reflexivity.
  - reflexivity.
  - reflexivity.
  - exact (conj H1 (conj H4 H5)).
Defined.

Lemma deferred_result_commits_when_fulfilled_witness :
  let m1 := (bound_action return_promise ex_two).2 in
  let m2 := drain strict_deepEqual 3
              (user_settles 0 (Fulfilled (PvPartial ex_partial))
                 (drain strict_deepEqual 9 m1)) in
  let m3 := run_frame strict_deepEqual 5 m2 in
  internalState m1 = ex_state /\
  pstate (promise_of (PAsync 0) m1) = Pending /\
  internalState m2 = merge ex_state ex_partial /\
  pstate (promise_of (PAsync 0) m3) = Done (Fulfilled (PvBool true)) /\
  calls m3 = [call FromFrame 1 ex_merged; call FromFrame 2 ex_merged].
Proof.
  destruct (deferred_result_commits_when_fulfilled strict_deepEqual return_promise 0
              ex_partial ex_two 9 0 0)
    as (_ & (_ & H1 & _ & _ & H2) & (H3 & _) & (H4 & _ & H5)).
  - reflexivity.
  - reflexivity.
  - reflexivity.
  - reflexivity.
  - vm_compute. reflexivity.
  - vm_compute. discriminate.
  - apply all_stock_Forall. vm_compute. reflexivity.
  - apply all_quiet_Forall. vm_compute. reflexivity.
  - split; [exact H1|]. split; [exact H2|]. split; [exact H3|]. split; [exact H5|].
    refine (eq_trans H4 _). vm_compute. reflexivity.
Defined.

Lemma deferred_rejection_propagates_witness :
  let M := drain strict_deepEqual 1
             (user_settles 0 (Rejected (Error "offline"))
                (bound_action return_promise ex_two).2) in
  pstate (promise_of (PAsync 0) M) = Done (Rejected (Error "offline")) /\
  internalState M = ex_state /\ frames M = [].
Proof.
  destruct (deferred_rejection_propagates strict_deepEqual return_promise 0
              (Error "offline") ex_two 0) as (H1 & H2 & _ & H4 & _).
  - reflexivity.
  - reflexivity.
  - reflexivity.
  - exact (conj H1 (conj H2 H4)).
Defined.

Lemma deferred_non_object_settles_false_witness :
  let M := drain strict_deepEqual 3
             (user_settles 0 (Fulfilled PvUndefined)
                (bound_action return_promise ex_two).2) in
  pstate (promise_of (PAsync 0) M) = Done (Fulfilled (PvBool false)) /\
  internalState M = ex_state.
Proof.
  destruct (deferred_non_object_settles_false strict_deepEqual return_promise 0
              PvUndefined ex_two 0) as (H1 & H2 & _).
  - apply strict_deepEqual_refl.
  - left. reflexivity.
  - reflexivity.
  - reflexivity.
  - reflexivity.
  - exact (conj H1 H2).
Defined.

Lemma action_call_commits_nothing_witness :
  let r := bound_action set_count ex_two in
  internalState r.2 = ex_state /\ calls r.2 = [] /\ frames r.2 = [] /\
  r.1 = Normal (PAsync 0) /\
  microtasks r.2 = [JReaction (KUpdate (PAsync 0)) (Fulfilled (PvPartial ex_partial))] /\
  pstate (promise_of (PAsync 0) r.2) = Pending.
Proof.
  destruct (action_call_commits_nothing set_count ex_two) as (H1 & _ & _ & H4 & H5 & H6).
  destruct H6 as (H6 & H7); [reflexivity|].
  destruct (H7 ex_partial) as (H8 & H9); [reflexivity|].
  exact (conj H1 (conj H5 (conj H4 (conj H6 (conj H8 H9))))).
Defined.

Lemma same_key_replaces_the_observer_witness :
  let m1 := (saveObserver "g1" (quiet_cb 7) PropsUndefined ex_two).2 in
  let m2 := (saveObserver "g1" (quiet_cb 8) PropsNull m1).2 in
  obj_get "g1" (observers m2) = Some (stock_observer 8 PropsNull) /\
  length (observers m2) = 2 /\
  destroy "g1" m2 = destroy "g1" ex_two.
Proof.
  destruct (same_key_replaces_the_observer "g1" (quiet_cb 7) PropsUndefined
              (stock_observer 7 PropsUndefined) (quiet_cb 8) PropsNull
              (stock_observer 8 PropsNull) ex_two) as (_ & H2 & H3 & H4).
  - reflexivity.
  - reflexivity.
  - split; [exact H2|]. split; [|exact H4].
    refine (eq_trans H3 _). vm_compute. reflexivity.
Defined.

Lemma observe_then_destroy_restores_witness :
  destroy "g3" (observe "g3" (quiet_cb 3) PropsNull false ex_two).2 = ex_two.
Proof.
  destruct (observe_then_destroy_restores "g3" (quiet_cb 3) PropsNull
              (stock_observer 3 PropsNull) ex_two) as (H & _).
  - intros H. vm_compute in H.
    repeat (apply elem_of_cons in H as [H|H]; [discriminate H|]).
    apply elem_of_nil in H. destruct H.
  - reflexivity.
  - exact H.
Defined.

Lemma destroy_keeps_the_initial_delivery_witness :
  let M := drain strict_deepEqual 1
             (destroy "g3" (observe "g3" (quiet_cb 3) PropsNull true ex_two).2) in
  obj_get "g3" (observers M) = None /\ calls M = [call FromBarrier 3 ex_state].
Proof.
  destruct (destroy_keeps_the_initial_delivery strict_deepEqual "g3" (quiet_cb 3)
              PropsNull (stock_observer 3 PropsNull) ex_two 0) as (H1 & H2 & _).
  - reflexivity.
  - reflexivity.
  - reflexivity.
  - split; [exact H1|]. refine (eq_trans H2 _). vm_compute. reflexivity.
Defined.

Lemma destroyAll_ignores_order_and_repeats_witness :
  destroyAll ["g2"; "g1"; "g2"] ex_two = destroyAll ["g1"; "g2"] ex_two.
Proof.
  destruct (destroyAll_ignores_order_and_repeats ["g2"; "g1"; "g2"] ["g1"; "g2"] ex_two)
    as (H & _).
  - intros g. rewrite !elem_of_cons, !elem_of_nil. tauto.
  - exact H.
Defined.

Lemma two_commits_two_deliveries_witness :
  let M1 := drain strict_deepEqual 3 (bound_action (add_to_count 1) ex_two).2 in
  let M2 := drain strict_deepEqual 3 (bound_action (add_to_count 10) M1).2 in
  count_of (internalState M2) = 12%Z /\
  map (fun i => (inv_callback i, count_of (inv_data i)))
    (frame_calls (calls (run_frame strict_deepEqual 9 M2))) =
  [(1, 2%Z); (2, 2%Z); (1, 12%Z); (2, 12%Z)].
Proof.
  destruct (two_commits_two_deliveries strict_deepEqual
              (add_to_count 1) {[ "count" := VNum 2 ]}
              (add_to_count 10) {[ "count" := VNum 12 ]} ex_two 0 0 9)
    as (H1 & _ & _ & H4).
  - reflexivity.
  - reflexivity.
  - vm_compute. reflexivity.
  - vm_compute. reflexivity.
  - vm_compute. reflexivity.
  - vm_compute. reflexivity.
  - vm_compute. discriminate.
  - apply all_stock_Forall. vm_compute. reflexivity.
  - vm_compute. discriminate.
  - apply all_stock_Forall. vm_compute. reflexivity.
  - split.
    + refine (eq_trans (f_equal count_of H1) _). vm_compute. reflexivity.
    + refine (eq_trans (f_equal _ H4) _). vm_compute. reflexivity.
Defined.

Lemma subscribe_then_act_witness :
  let m1 := (observe "g3" (quiet_cb 3) PropsNull true ex_two).2 in
  let M := drain strict_deepEqual 4 (bound_action set_count m1).2 in
  calls M = [call FromBarrier 3 ex_state] /\
  calls (run_frame strict_deepEqual 5 M) =
    [call FromBarrier 3 ex_state; call FromFrame 1 ex_merged;
     call FromFrame 2 ex_merged; call FromFrame 3 ex_merged].
Proof.
  destruct (subscribe_then_act strict_deepEqual "g3" (quiet_cb 3) PropsNull
              (stock_observer 3 PropsNull) set_count ex_partial ex_two 0 0)
    as (_ & H2 & _ & H4 & _).
  - reflexivity.
  - reflexivity.
  - reflexivity.
  - reflexivity.
  - reflexivity.
  - vm_compute. reflexivity.
  - vm_compute. discriminate.
  - apply all_stock_Forall. vm_compute. reflexivity.
  - apply all_quiet_Forall. vm_compute. reflexivity.
  - split; [refine (eq_trans H2 _); vm_compute; reflexivity|].
    refine (eq_trans H4 _). vm_compute. reflexivity.
Defined.

Lemma back_to_back_actions_witness :
  let m2 := (bound_action (add_to_count 10) (bound_action (add_to_count 1) ex_two).2).2 in
  let M := drain strict_deepEqual 6 m2 in
  count_of (internalState M) = 11%Z /\
  map (fun i => (inv_callback i, count_of (inv_data i)))
    (frame_calls (calls (run_frame strict_deepEqual 9 M))) =
  [(1, 2%Z); (2, 2%Z); (1, 11%Z); (2, 11%Z)].
Proof.
  destruct (back_to_back_actions strict_deepEqual
              (add_to_count 1) {[ "count" := VNum 2 ]}
              (add_to_count 10) {[ "count" := VNum 11 ]} ex_two 0 9)
    as (_ & _ & H3 & _ & _ & H6).
  - reflexivity.
  - vm_compute. reflexivity.
  - vm_compute. reflexivity.
  - vm_compute. reflexivity.
  - vm_compute. reflexivity.
  - vm_compute. discriminate.
  - apply all_stock_Forall. vm_compute. reflexivity.
  - vm_compute. discriminate.
  - apply all_stock_Forall. vm_compute. reflexivity.
  - split.
    + refine (eq_trans (f_equal count_of H3) _). vm_compute. reflexivity.
    + refine (eq_trans (f_equal _ H6) _). vm_compute. reflexivity.
Defined.

Lemma in_flight_targets_are_a_snapshot_witness :
  let M1 := drain strict_deepEqual 3 (bound_action set_count ex_two).2 in
  let M2 := register_all [("g3", quiet_cb 3, PropsNull)] (destroyAll ["g1"] M1) in
  obj_keys (observers M2) = ["g2"; "g3"] /\
  calls (run_frame strict_deepEqual 5 M2) =
    [call FromFrame 1 ex_merged; call FromFrame 2 ex_merged].
Proof.
  destruct (in_flight_targets_are_a_snapshot strict_deepEqual set_count ex_partial
              ["g1"] [("g3", quiet_cb 3, PropsNull)] ex_two 0 0)
    as (_ & H2 & _).
  - reflexivity.
  - reflexivity.
  - reflexivity.
  - vm_compute. reflexivity.
  - vm_compute. discriminate.
  - apply all_stock_Forall. vm_compute. reflexivity.
  - apply all_quiet_Forall. vm_compute. reflexivity.
  - split; [vm_compute; reflexivity|]. refine (eq_trans H2 _). vm_compute. reflexivity.
Defined.

Lemma manual_broadcast_does_not_commit_witness :
  let M := drain strict_deepEqual 1 (broadcast ex_partial ex_two).2 in
  internalState M = ex_state /\
  frame_calls (calls (run_frame strict_deepEqual 5 M)) =
    [call FromFrame 1 ex_partial; call FromFrame 2 ex_partial].
Proof.
  destruct (manual_broadcast_does_not_commit strict_deepEqual ex_partial ex_two 0 5)
    as (_ & H2 & _ & _ & H5).
  - reflexivity.
  - vm_compute. discriminate.
  - apply all_stock_Forall. vm_compute. reflexivity.
  - split; [exact H2|]. refine (eq_trans H5 _). vm_compute. reflexivity.
Defined.

Lemma settled_deliveries_complete_in_the_checkpoint_witness :
  let M := drain strict_deepEqual 9 (bound_action set_count ex_settled).2 in
  internalState M = merge ex_state ex_partial /\ pendingUpdates M = [] /\
  frames M = [] /\ calls M = [] /\
  pstate (promise_of (PAsync 0) M) = Done (Fulfilled (PvBool true)).
Proof.
  destruct (settled_deliveries_complete_in_the_checkpoint strict_deepEqual set_count
              ex_partial ex_settled 0) as (H1 & _ & H3 & H4 & H5 & _ & H7).
  - reflexivity.
  - reflexivity.
  - vm_compute. reflexivity.
  - vm_compute. discriminate.
  - repeat constructor; discriminate.
  - exact (conj H1 (conj H5 (conj H3 (conj H4 H7)))).
Defined.
